(** * ClawScope: search adapter, provider endpoints, log classifier, timeline

    A shallow embedding of the TypeScript sources of ClawScope
    (offline-sqlite-backend.ts, search.ts, frontend.ts, frontend-v2.ts,
    mcp-server.ts, activity-backend.ts), the properties its specification
    states about them, and further properties the code has.

    Conventions of the embedding.
    - A JavaScript string is the list of its UTF-16 code units, so that
      [length], [slice] and the regular expressions count what the runtime
      counts.
    - [undefined] / [null] fields are [None].
    - A thrown exception is the [Throw] case of [exn]; [try]/[catch] is a
      [match] on it.
    - What the runtime provides and the repository does not define
      ([JSON.parse], [JSON.stringify], [Date]) is the interface [JsRuntime];
      theorems hold for every implementation of it.  [Mini] is a small
      executable implementation used to run the handlers on concrete
      requests. *)

From Stdlib Require Import List ZArith NArith QArith Lia Bool String Ascii.
From Stdlib Require Import Permutation DecimalString.
Import ListNotations.
Open Scope Z_scope.
Open Scope list_scope.

Set Implicit Arguments.
Set Warnings "-register-all".

(* ================================================================== *)
(** * Part I.  The embedding                                           *)
(* ================================================================== *)

(** ** JavaScript strings *)

Module JsString.

Definition jsstring := list N.

(** A literal whose characters are ASCII. *)
Definition u16 (s : string) : jsstring :=
  map N_of_ascii (list_ascii_of_string s).

Fixpoint eqb (a b : jsstring) : bool :=
  match a, b with
  | [], [] => true
  | x :: a', y :: b' => N.eqb x y && eqb a' b'
  | _, _ => false
  end.

(** [\s] of a regular expression and the set [String.prototype.trim]
    strips: WhiteSpace and LineTerminator of ECMA-262. *)
Definition is_space (c : N) : bool :=
  ((9 <=? c) && (c <=? 13) || (c =? 32) || (c =? 160) || (c =? 5760)
   || (8192 <=? c) && (c <=? 8202) || (c =? 8232) || (c =? 8233)
   || (c =? 8239) || (c =? 8287) || (c =? 12288) || (c =? 65279))%N.

(** [\w] without the [i] and [u] flags: [A-Za-z0-9_]. *)
Definition is_word (c : N) : bool :=
  ((48 <=? c) && (c <=? 57) || (65 <=? c) && (c <=? 90) || (c =? 95)
   || (97 <=? c) && (c <=? 122))%N.

Fixpoint dropWhile (p : N -> bool) (s : jsstring) : jsstring :=
  match s with
  | [] => []
  | c :: r => if p c then dropWhile p r else s
  end.

Fixpoint takeWhile (p : N -> bool) (s : jsstring) : jsstring :=
  match s with
  | [] => []
  | c :: r => if p c then c :: takeWhile p r else []
  end.

Definition trimStart (s : jsstring) : jsstring := dropWhile is_space s.
Definition trimEnd (s : jsstring) : jsstring := rev (dropWhile is_space (rev s)).

(** [s.trim()] *)
Definition trim (s : jsstring) : jsstring := trimEnd (trimStart s).

(** [s.replace(/\s+/g, ' ')]: every maximal run of white space becomes one
    U+0020.  [in_run] records that the previous code unit was white space. *)
Fixpoint replace_ws (in_run : bool) (s : jsstring) : jsstring :=
  match s with
  | [] => []
  | c :: r =>
      if is_space c
      then if in_run then replace_ws true r else 32%N :: replace_ws true r
      else c :: replace_ws false r
  end.

(** [s.startsWith(p)] *)
Fixpoint startsWith (p s : jsstring) : bool :=
  match p, s with
  | [], _ => true
  | _ :: _, [] => false
  | x :: p', y :: s' => N.eqb x y && startsWith p' s'
  end.

(** [s.includes(p)] *)
Fixpoint includes (p s : jsstring) : bool :=
  startsWith p s ||
  match s with
  | [] => false
  | _ :: s' => includes p s'
  end.

(** [s.slice(0, n)] for a non-negative literal [n]. *)
Definition slice0 (n : nat) (s : jsstring) : jsstring := firstn n s.

(** [s.split('\n')] *)
Fixpoint split_lines_aux (cur : jsstring) (s : jsstring) : list jsstring :=
  match s with
  | [] => [rev cur]
  | c :: r =>
      if N.eqb c 10 then rev cur :: split_lines_aux [] r
      else split_lines_aux (c :: cur) r
  end.

Definition split_lines (s : jsstring) : list jsstring := split_lines_aux [] s.

(** The relational comparison [a >= b] of two strings: code unit by code
    unit. *)
Fixpoint geb (a b : jsstring) : bool :=
  match a, b with
  | _, [] => true
  | [], _ :: _ => false
  | x :: a', y :: b' =>
      if N.ltb y x then true
      else if N.ltb x y then false
      else geb a' b'
  end.

(** [String(n)] of an integer-valued number whose magnitude is below
    10^21: the runtime prints such a number with all its digits, and a
    larger one in exponent form, which this definition does not follow. *)
Definition of_Z (z : Z) : jsstring :=
  u16 (NilZero.string_of_int (Z.to_int z)).

(** Truthiness of a string-valued optional field. *)
Definition truthy (s : option jsstring) : bool :=
  match s with
  | Some (_ :: _) => true
  | _ => false
  end.

(** [s || d] *)
Definition or_else (s : option jsstring) (d : jsstring) : jsstring :=
  match s with
  | Some (c :: r) => c :: r
  | _ => d
  end.

(** [s === lit] for a possibly absent field. *)
Definition is_lit (s : option jsstring) (lit : string) : bool :=
  match s with
  | Some v => eqb v (u16 lit)
  | None => false
  end.

(** The escape sequences [/\x1b\[[0-9;]*m/g] removes. *)
Definition is_sgr_param (c : N) : bool :=
  ((48 <=? c) && (c <=? 57) || (c =? 59))%N.

(** After [ESC \[] and its parameters: the rest after the final [m], when
    the sequence is complete. *)
Definition sgr_tail (s : jsstring) : option jsstring :=
  match dropWhile is_sgr_param s with
  | 109%N :: r => Some r
  | _ => None
  end.

(** [s.replace(/\x1b\[[0-9;]*m/g, '')], by fuel on the length. *)
Fixpoint strip_ansi_fuel (fuel : nat) (s : jsstring) : jsstring :=
  match fuel with
  | O => s
  | S fuel' =>
      match s with
      | [] => []
      | 27%N :: 91%N :: r =>
          match sgr_tail r with
          | Some r' => strip_ansi_fuel fuel' r'
          | None => 27%N :: strip_ansi_fuel fuel' (91%N :: r)
          end
      | c :: r => c :: strip_ansi_fuel fuel' r
      end
  end.

Definition strip_ansi (s : jsstring) : jsstring :=
  strip_ansi_fuel (S (List.length s)) s.

(** [s.search(/[\[{]/)] followed by [s.slice(i)] when found, else [s]. *)
Fixpoint from_first_bracket_aux (s : jsstring) : option jsstring :=
  match s with
  | [] => None
  | c :: r =>
      if (N.eqb c 91 || N.eqb c 123)%bool then Some s
      else from_first_bracket_aux r
  end.

Definition from_first_bracket (s : jsstring) : jsstring :=
  match from_first_bracket_aux s with
  | Some r => r
  | None => s
  end.

End JsString.

Import JsString.

(** ** JSON values, exceptions, HTTP responses *)

Module Js.

(** A value produced by [JSON.parse].  Numbers are the integer-valued ones;
    the handlers only pass other numbers through.  An object lists its
    properties in insertion order, each key once. *)
Inductive json : Type :=
| JNull
| JBool (b : bool)
| JNum (n : Z)
| JStr (s : jsstring)
| JArr (items : list json)
| JObj (fields : list (jsstring * json)).

(** Truthiness, as [if (v)] and [v && ...] test it. *)
Definition truthy (v : json) : bool :=
  match v with
  | JNull => false
  | JBool b => b
  | JNum n => negb (n =? 0)
  | JStr s => match s with [] => false | _ => true end
  | JArr _ | JObj _ => true
  end.

Fixpoint assoc (k : jsstring) (fields : list (jsstring * json)) : option json :=
  match fields with
  | [] => None
  | (k', v) :: r => if JsString.eqb k k' then Some v else assoc k r
  end.

(** [v.k] for a property [k] no prototype defines; [None] is [undefined]. *)
Definition get (k : string) (v : json) : option json :=
  match v with
  | JObj fields => assoc (u16 k) fields
  | _ => None
  end.

(** The outcome of an expression that may throw. *)
Inductive exn (A : Type) : Type :=
| Return (a : A)
| Throw (message : jsstring).

Arguments Return {A} a.
Arguments Throw {A} message.

(** What [res.end(JSON.stringify(...))] is given: a payload of the
    endpoint's type, or the object [{error: message}]. *)
Inductive body (A : Type) : Type :=
| Payload (a : A)
| ErrorObject (message : jsstring).

Arguments Payload {A} a.
Arguments ErrorObject {A} message.

Record response (A : Type) : Type := Response {
  statusCode : Z;
  content : body A
}.

(** [err?.message || fallback] *)
Definition message_or (message : jsstring) (fallback : string) : jsstring :=
  or_else (Some message) (u16 fallback).

(** [l.slice(-n)] for a positive literal [n]. *)
Definition slice_last {A : Type} (n : nat) (l : list A) : list A :=
  skipn (List.length l - n) l.

(** [a ?? b] *)
Definition nullish {A : Type} (a : option A) (b : A) : A :=
  match a with
  | Some v => v
  | None => b
  end.

Definition nullish_opt {A : Type} (a b : option A) : option A :=
  match a with
  | Some v => Some v
  | None => b
  end.

End Js.

Import Js.

(** ** The search backend adapter (offline-sqlite-backend.ts) *)

Module Search.

Inductive SearchMode : Type := lexical | semantic | hybrid.

(** [kinds] and [sources] of the request are not read by this backend. *)
Record SearchRequest : Type := {
  query : jsstring;
  mode : option SearchMode;
  limit : option Z;
  k : option Z
}.

(** The engine's identifier of an item: a number or a string. *)
Inductive idval : Type :=
| IdNum (n : Z)
| IdStr (s : jsstring).

(** [String(id)]; an absent id prints as [undefined]. *)
Definition String_id (i : option idval) : jsstring :=
  match i with
  | None => u16 "undefined"
  | Some (IdNum n) => of_Z n
  | Some (IdStr s) => s
  end.

(** An item row as the engine returns it. *)
Record engine_item : Type := {
  item_id : option idval;
  item_text : option jsstring;
  item_source : option jsstring;
  item_title : option jsstring;
  item_created_at : option jsstring;
  item_tags : option jsstring;
  item_source_id : option jsstring
}.

(** One result [r] of the engine: the row is [r.item] when present and [r]
    itself otherwise; scores are passed through, never computed with. *)
Record engine_result : Type := {
  r_item : option engine_item;
  r_self : engine_item;
  r_score : option Q;
  r_lexicalScore : option Q;
  r_semanticScore : option Q
}.

Record payload : Type := {
  memory_id : option idval;
  text : jsstring;
  tags : option jsstring;
  p_source : option jsstring;
  source_id : option jsstring
}.

Record SearchItem : Type := {
  id : jsstring;
  kind : jsstring;
  source : option jsstring;
  title : option jsstring;
  snippet : jsstring;
  score : Q;
  score_fts : option Q;
  score_embed : option Q;
  created_at : option jsstring;
  item_payload : payload
}.

Definition ellipsis : N := 8230%N.

Definition buildSnippet_len (text : jsstring) (maxLen : nat) : jsstring :=
  let singleLine := trim (replace_ws false text) in
  if (List.length singleLine <=? maxLen)%nat then singleLine
  else slice0 maxLen singleLine ++ [ellipsis].

(** [buildSnippet(text)] with the default [maxLen = 220]. *)
Definition buildSnippet (text : jsstring) : jsstring :=
  buildSnippet_len text 220.

Definition row_of (r : engine_result) : engine_item :=
  nullish (r_item r) (r_self r).

Definition payload_of (item : engine_item) (text : jsstring) : payload :=
  {| memory_id := item_id item;
     text := text;
     tags := item_tags item;
     p_source := item_source item;
     source_id := item_source_id item |}.

(** The callback of [results.map] in [searchLexical]. *)
Definition lexical_item (r : engine_result) : SearchItem :=
  let item := row_of r in
  let text := nullish (item_text item) [] in
  {| id := String_id (item_id item);
     kind := u16 "memory";
     source := Some (nullish (item_source item) (u16 "openclaw"));
     title := item_title item;
     snippet := buildSnippet text;
     score := nullish (nullish_opt (r_score r) (r_lexicalScore r)) 0%Q;
     score_fts := nullish_opt (r_lexicalScore r) (r_score r);
     score_embed := None;
     created_at := item_created_at item;
     item_payload := payload_of item text |}.

(** The callback of [results.map] in [searchHybrid]. *)
Definition hybrid_item (r : engine_result) : SearchItem :=
  let item := row_of r in
  let text := nullish (item_text item) [] in
  {| id := String_id (item_id item);
     kind := u16 "memory";
     source := Some (nullish (item_source item) (u16 "openclaw"));
     title := item_title item;
     snippet := buildSnippet text;
     score := nullish (r_score r) 0%Q;
     score_fts := r_lexicalScore r;
     score_embed := r_semanticScore r;
     created_at := item_created_at item;
     item_payload := payload_of item text |}.

(** *** The engine and the calls made to it *)

Record lexical_response : Type := {
  results : option (list engine_result);
  escapedQuery : jsstring
}.

Record MemConfig : Type := {
  mc_dbPath : jsstring;
  mc_ollamaBaseUrl : jsstring;
  mc_embeddingModel : jsstring;
  mc_ollamaTimeoutMs : Z
}.

Record hybrid_options : Type := {
  topK : Z;
  candidates : Z;
  o_semanticWeight : Q
}.

(** The memory engine ([@akashabot/openclaw-memory-offline-core]), an
    external collaborator: any implementation of these four entry points. *)
Record Engine : Type := {
  db : Type;
  openDb : jsstring -> exn db;
  initSchema : db -> exn unit;
  searchItems : db -> jsstring -> Z -> exn lexical_response;
  hybridSearch : db -> MemConfig -> jsstring -> hybrid_options -> exn (list engine_result)
}.

Inductive call : Type :=
| CallOpenDb (path : jsstring)
| CallInitSchema
| CallSearchItems (q : jsstring) (lim : Z)
| CallHybridSearch (q : jsstring) (opts : hybrid_options).

(** A computation that records the engine calls it makes and may throw. *)
Definition M (A : Type) : Type := (list call * exn A)%type.

Definition ret {A : Type} (a : A) : M A := ([], Return a).

Definition bind {A B : Type} (m : M A) (f : A -> M B) : M B :=
  match m with
  | (t, Return a) => let (t', r) := f a in (t ++ t', r)
  | (t, Throw e) => (t, Throw e)
  end.

Definition invoke {A : Type} (c : call) (r : exn A) : M A := ([c], r).

Local Notation "x <- m ;; f" := (bind m (fun x => f))
  (at level 61, m at next level, right associativity).

Record config : Type := {
  dbPath : jsstring;
  defaultMode : SearchMode;
  defaultTopK : Z;
  defaultCandidates : Z;
  semanticWeight : Q;
  ollamaBaseUrl : jsstring;
  embeddingModel : jsstring;
  ollamaTimeoutMs : Z
}.

Record OfflineBackendOptions : Type := {
  opt_dbPath : option jsstring;
  opt_defaultMode : option SearchMode;
  opt_defaultTopK : option Z;
  opt_defaultCandidates : option Z;
  opt_semanticWeight : option Q;
  opt_ollamaBaseUrl : option jsstring;
  opt_embeddingModel : option jsstring;
  opt_ollamaTimeoutMs : option Z
}.

(** The constructor; [defaultDbPath] is [~/.openclaw/memory/offline.sqlite]
    as [path.join] spells it on the host. *)
Definition constructor (defaultDbPath : jsstring) (options : OfflineBackendOptions) : config :=
  {| dbPath := nullish (opt_dbPath options) defaultDbPath;
     defaultMode := nullish (opt_defaultMode options) hybrid;
     defaultTopK := nullish (opt_defaultTopK options) 20;
     defaultCandidates := nullish (opt_defaultCandidates options) 80;
     semanticWeight := nullish (opt_semanticWeight options) (7 # 10);
     ollamaBaseUrl := nullish (opt_ollamaBaseUrl options) (u16 "http://127.0.0.1:11434");
     embeddingModel := nullish (opt_embeddingModel options) (u16 "bge-m3");
     ollamaTimeoutMs := nullish (opt_ollamaTimeoutMs options) 3000 |}.

Section Backend.

Variable E : Engine.
Variable cfg : config.

Definition searchLexical (d : db E) (q : jsstring) (lim : Z) : M (list SearchItem) :=
  res <- invoke (CallSearchItems q lim) (searchItems E d q lim) ;;
  ret (map lexical_item (nullish (results res) [])).

Definition searchHybrid (d : db E) (q : jsstring) (lim cands : Z) : M (list SearchItem) :=
  let memCfg := {| mc_dbPath := dbPath cfg;
                   mc_ollamaBaseUrl := ollamaBaseUrl cfg;
                   mc_embeddingModel := embeddingModel cfg;
                   mc_ollamaTimeoutMs := ollamaTimeoutMs cfg |} in
  esc <- invoke (CallSearchItems q 1) (searchItems E d q 1) ;;
  let opts := {| topK := lim; candidates := cands;
                 o_semanticWeight := semanticWeight cfg |} in
  rs <- invoke (CallHybridSearch (escapedQuery esc) opts)
               (hybridSearch E d memCfg (escapedQuery esc) opts) ;;
  ret (map hybrid_item rs).

Definition search (req : SearchRequest) : M (list SearchItem) :=
  let mode := nullish (mode req) (defaultMode cfg) in
  let limit := nullish (limit req) (defaultTopK cfg) in
  let candidates := nullish (k req) (defaultCandidates cfg) in
  let query := trim (query req) in
  match query with
  | [] => ret []
  | _ =>
      d <- invoke (CallOpenDb (dbPath cfg)) (openDb E (dbPath cfg)) ;;
      _ <- invoke CallInitSchema (initSchema E d) ;;
      match mode with
      | lexical => searchLexical d query limit
      | _ => searchHybrid d query limit candidates
      end
  end.

End Backend.

End Search.

(** ** Upstream records and the runtime interface *)

Module Runtime.

(** One line of [openclaw logs --json], parsed: the fields the classifiers
    read, each a string when present. *)
Record log_record : Type := {
  log_type : option jsstring;
  log_time : option jsstring;
  log_subsystem : option jsstring;
  log_message : option jsstring;
  log_level : option jsstring
}.

(** A job's [schedule] descriptor. *)
Record schedule : Type := {
  sched_kind : option jsstring;
  sched_expr : option jsstring;
  sched_everyMs : option Z;
  sched_at : option jsstring
}.

(** A cron job as the companion service and [openclaw cron list --json]
    describe it. *)
Record job : Type := {
  job_id : option jsstring;
  job_name : option jsstring;
  job_enabled : option bool;
  job_schedule : option schedule;
  job_nextRunAt : option jsstring;
  job_agentId : option jsstring;
  job_owner : option jsstring;
  job_kind : option jsstring;
  job_description : option jsstring;
  job_payloadSummary : option jsstring;
  job_lastRunAtMs : option Z
}.

(** The document that lists the jobs: an array of jobs, or an object whose
    [jobs] property may be absent. *)
Inductive cron_payload : Type :=
| CronArray (jobs : list job)
| CronObject (jobs : option (list job)).

(** What the host runtime provides.  [JSON_parse] throws a [SyntaxError] on
    text that is not JSON; [JSON_parse_log] and [JSON_parse_cron] are
    [JSON.parse] read at the type of a log line and of a job list.
    [Date_getTime s] is [new Date(s).getTime()], [None] for [NaN];
    [Date_toISOString ms] is [new Date(ms).toISOString()], which throws a
    [RangeError] on an invalid time value. *)
Class JsRuntime : Type := {
  JSON_parse : jsstring -> exn json;
  JSON_parse_log : jsstring -> exn log_record;
  JSON_parse_cron : jsstring -> exn cron_payload;
  JSON_stringify : json -> jsstring;
  JSON_stringify_indent : json -> jsstring;
  Date_getTime : jsstring -> option Z;
  Date_toISOString : Z -> exn jsstring
}.

(** [new Date(v).getTime()] for a possibly absent string. *)
Definition getTime `{JsRuntime} (v : option jsstring) : option Z :=
  match v with
  | Some s => Date_getTime s
  | None => None
  end.

(** [a < b] on numbers; false when either is [NaN]. *)
Definition num_lt (a b : option Z) : bool :=
  match a, b with
  | Some x, Some y => x <? y
  | _, _ => false
  end.

(** [b - a > 0] for the comparator [(a, b) => getTime(b) - getTime(a)]:
    a [NaN] difference counts as [+0]. *)
Definition num_sub (b a : option Z) : Z :=
  match b, a with
  | Some x, Some y => x - y
  | _, _ => 0
  end.

(** The promisified [exec]: the child's standard output, or a rejection
    whose error may still carry the output produced so far. *)
Inductive exec_result : Type :=
| ExecOk (stdout : jsstring)
| ExecFail (message : jsstring) (stdout : option jsstring).

(** A request made to the outside while a handler runs. *)
Inductive effect : Type :=
| FetchPlugin (path : string)
| Exec (command : jsstring).

End Runtime.

Import Runtime.

(** ** Scheduled tasks (frontend.ts) *)

Module Tasks.

(** [Math.round(ms / 60000)] on an integer number of milliseconds. *)
Definition round_minutes (ms : Z) : Z := (2 * ms + 60000) / 120000.

Definition formatSchedule (s : option schedule) : jsstring :=
  match s with
  | None => u16 "unknown"
  | Some schedule =>
      if is_lit (sched_kind schedule) "cron" then
        or_else (sched_expr schedule) (u16 "cron")
      else if is_lit (sched_kind schedule) "every" then
        let mins := round_minutes (nullish (sched_everyMs schedule) 0) in
        if mins =? 0 then u16 "every"
        else u16 "every " ++ of_Z mins ++ u16 "min"
      else if is_lit (sched_kind schedule) "at" then
        match sched_at schedule with
        | Some (c :: r) => u16 "once at " ++ c :: r
        | _ => u16 "once"
        end
      else u16 "unknown"
  end.

(** A template literal prints an absent value as [undefined]. *)
Definition interpolate (v : option jsstring) : jsstring :=
  nullish v (u16 "undefined").

(** The [schedule] expression of the CLI fallback of [/tasks]; [None] is
    [undefined] (a [cron] schedule without [expr]). *)
Definition cli_schedule (s : option schedule) : option jsstring :=
  match s with
  | None => Some (u16 "unknown")
  | Some schedule =>
      if is_lit (sched_kind schedule) "cron" then sched_expr schedule
      else if is_lit (sched_kind schedule) "every" then
        Some (u16 "every "
              ++ of_Z (round_minutes (nullish (sched_everyMs schedule) 0))
              ++ u16 "min")
      else if is_lit (sched_kind schedule) "at" then
        Some (u16 "once at " ++ interpolate (sched_at schedule))
      else Some (u16 "unknown")
  end.

Record task_item : Type := {
  id : option jsstring;
  name : option jsstring;
  enabled : bool;
  schedule_text : option jsstring;
  nextRun : option jsstring;
  agentId : option jsstring;
  kind : option jsstring;
  description : option jsstring;
  payloadSummary : option jsstring
}.

(** [job.enabled !== false] *)
Definition is_enabled (j : job) : bool :=
  match job_enabled j with
  | Some false => false
  | _ => true
  end.

(** [v || null] on a string field: an empty string is dropped too. *)
Definition or_null (v : option jsstring) : option jsstring :=
  match v with
  | Some (c :: r) => Some (c :: r)
  | _ => None
  end.

(** The callback of [jobs.map] in [fetchTasksFromPlugin]. *)
Definition plugin_item (j : job) : task_item :=
  {| id := job_id j;
     name := job_name j;
     enabled := is_enabled j;
     schedule_text := Some (formatSchedule (job_schedule j));
     nextRun := or_null (job_nextRunAt j);
     agentId := match or_null (job_agentId j) with
                | Some a => Some a
                | None => or_null (job_owner j)
                end;
     kind := job_kind j;
     description := job_description j;
     payloadSummary := job_payloadSummary j |}.

(** The callback of [jobs.map] in the CLI fallback. *)
Definition cli_item (j : job) : task_item :=
  {| id := job_id j;
     name := job_name j;
     enabled := is_enabled j;
     schedule_text := cli_schedule (job_schedule j);
     nextRun := or_null (job_nextRunAt j);
     agentId := job_agentId j;
     kind := None;
     description := None;
     payloadSummary := None |}.

(** [fetchTasksFromPlugin]; its argument is the outcome of the request and
    of [resp.json()]. *)
Definition fetchTasksFromPlugin (plugin : exn cron_payload) : exn (list task_item) :=
  match plugin with
  | Throw e => Throw e
  | Return (CronArray jobs) => Return (map plugin_item jobs)
  | Return (CronObject jobs) => Return (map plugin_item (nullish jobs []))
  end.

(** [data.jobs || []]; an array has no [jobs] property. *)
Definition cli_jobs (data : cron_payload) : list job :=
  match data with
  | CronArray _ => []
  | CronObject jobs => nullish jobs []
  end.

Definition cron_list_command : jsstring := u16 "openclaw cron list --json".

(** The [GET /tasks] handler of frontend.ts. *)
Definition tasks_handler `{JsRuntime}
    (plugin : exn cron_payload) (cli : exec_result)
  : list effect * response (list task_item) :=
  match fetchTasksFromPlugin plugin with
  | Return items =>
      ([FetchPlugin "/clawscope/cron?includeDisabled=true"],
       Response 200 (Payload items))
  | Throw err =>
      let effects := [FetchPlugin "/clawscope/cron?includeDisabled=true";
                      Exec cron_list_command] in
      let fallback :=
        match cli with
        | ExecFail e _ => Throw e
        | ExecOk stdout =>
            let cleanStdout := strip_ansi stdout in
            let jsonStr := from_first_bracket cleanStdout in
            match JSON_parse_cron jsonStr with
            | Throw e => Throw e
            | Return data => Return (map cli_item (cli_jobs data))
            end
        end in
      match fallback with
      | Return items => (effects, Response 200 (Payload items))
      | Throw e =>
          (effects,
           Response 500
             (ErrorObject (or_else (Some e) (or_else (Some err) (u16 "tasks failed")))))
      end
  end.

End Tasks.

(** ** The log-line classifiers (frontend.ts, mcp-server.ts) *)

Module Classifier.

Inductive event_kind : Type :=
| tool | session | cron | alert | memory
| message. (* an activity kind frontend-v2 passes through *)

Record event (D : Type) : Type := {
  id : option jsstring;
  ts : option jsstring;
  kind : event_kind;
  summary : jsstring;
  level : option jsstring;
  details : option D
}.

Arguments id {D} e.
Arguments ts {D} e.
Arguments kind {D} e.
Arguments summary {D} e.
Arguments level {D} e.
Arguments details {D} e.

(** The classifiers attach no [details]. *)
Definition TimelineEvent : Type := event Empty_set.

Definition mk (i : option jsstring) (t : option jsstring) (k : event_kind)
    (s : jsstring) (l : jsstring) : TimelineEvent :=
  {| id := i; ts := t; kind := k; summary := s; level := Some l; details := None |}.

(** [message.match(/P(\w+)/)] for a literal prefix [P]: the capture of the
    leftmost match. *)
Fixpoint match_word_after (prefix s : jsstring) : option jsstring :=
  match s with
  | [] => None
  | _ :: r =>
      if startsWith prefix s then
        match takeWhile is_word (skipn (List.length prefix) s) with
        | [] => match_word_after prefix r
        | w => Some w
        end
      else match_word_after prefix r
  end.

(** [message.match(/tool (start|end)/)]: the capture of the leftmost
    match. *)
Fixpoint match_tool_action (s : jsstring) : option jsstring :=
  match s with
  | [] => None
  | _ :: r =>
      if startsWith (u16 "tool start") s then Some (u16 "start")
      else if startsWith (u16 "tool end") s then Some (u16 "end")
      else match_tool_action r
  end.

Definition benign : jsstring := u16 "Config was last written by a newer OpenClaw".

(** [parsed.time + suffix] *)
Definition time_id (time : option jsstring) (suffix : jsstring) : option jsstring :=
  Some (Tasks.interpolate time ++ suffix).

(** The summary of a tool event: a start or an end mark, then the name. *)
Definition tool_summary (action name : jsstring) : jsstring :=
  (if JsString.eqb action (u16 "start") then 9654%N else 10003%N)
  :: 32%N :: name.

Definition is_blank (s : jsstring) : bool :=
  match trim s with
  | [] => true
  | _ => false
  end.

Section WithRuntime.

Context `{JsRuntime}.

(** The body of the loop over the lines in [GET /timeline-data] of
    frontend.ts: the events it pushes for one line. *)
Definition classify_timeline (sinceTs : option Z) (line : jsstring) : list TimelineEvent :=
  if is_blank line || negb (startsWith (u16 "{") line) then []
  else
    match JSON_parse_log line with
    | Throw _ => []
    | Return parsed =>
        if negb (is_lit (log_type parsed) "log") then []
        else
          let eventTs := getTime (log_time parsed) in
          if num_lt eventTs sinceTs then []
          else
            let subsystem := or_else (log_subsystem parsed) [] in
            let message := or_else (log_message parsed) [] in
            let level := or_else (log_level parsed) (u16 "debug") in
            if JsString.eqb subsystem (u16 "agent/embedded")
               && includes (u16 "tool ") message then
              match match_word_after (u16 "tool=") message, match_tool_action message with
              | Some toolName, Some action =>
                  [mk (time_id (log_time parsed) (u16 "-" ++ toolName))
                      (log_time parsed) tool (tool_summary action toolName) level]
              | _, _ => []
              end
            else if JsString.eqb subsystem (u16 "diagnostic")
                    && includes (u16 "session state") message then
              match match_word_after (u16 "new=") message with
              | Some state =>
                  [mk (time_id (log_time parsed) (u16 "-session"))
                      (log_time parsed) session (u16 "Session " ++ state) level]
              | None => []
              end
            else if JsString.eqb subsystem (u16 "memory")
                    || includes (u16 "memory") message
                    || includes (u16 "Memory") message then
              [mk (time_id (log_time parsed) (u16 "-memory"))
                  (log_time parsed) memory (slice0 80 message) level]
            else if JsString.eqb subsystem (u16 "cron")
                    || includes (u16 "cron") message then
              [mk (time_id (log_time parsed) (u16 "-cron"))
                  (log_time parsed) cron (slice0 60 message) level]
            else if (JsString.eqb level (u16 "warn") || JsString.eqb level (u16 "error"))
                    && negb (includes benign message) then
              [mk (time_id (log_time parsed) (u16 "-alert"))
                  (log_time parsed) alert (slice0 80 message) level]
            else []
    end.

(** The body of the loop over the lines in [GET /activity] of
    frontend.ts. *)
Definition classify_activity (line : jsstring) : list TimelineEvent :=
  if is_blank line || negb (startsWith (u16 "{") line) then []
  else
    match JSON_parse_log line with
    | Throw _ => []
    | Return parsed =>
        if JsString.truthy (log_type parsed) && negb (is_lit (log_type parsed) "log")
        then []
        else
          let subsystem := or_else (log_subsystem parsed) [] in
          let message := or_else (log_message parsed) [] in
          let level := or_else (log_level parsed) (u16 "debug") in
          if JsString.eqb subsystem (u16 "agent/embedded")
             && includes (u16 "tool ") message then
            match match_word_after (u16 "tool=") message, match_tool_action message with
            | Some toolName, Some action =>
                [mk (time_id (log_time parsed) (u16 "-" ++ toolName))
                    (log_time parsed) tool (tool_summary action toolName) level]
            | _, _ => []
            end
          else if JsString.eqb subsystem (u16 "diagnostic")
                  && includes (u16 "session state") message then
            match match_word_after (u16 "new=") message with
            | Some state =>
                [mk (time_id (log_time parsed) (u16 "-session"))
                    (log_time parsed) session (u16 "Session " ++ state) level]
            | None => []
            end
          else if JsString.eqb subsystem (u16 "cron")
                  || includes (u16 "cron") message then
            [mk (time_id (log_time parsed) (u16 "-cron"))
                (log_time parsed) cron (slice0 60 message) level]
          else if (JsString.eqb level (u16 "warn") || JsString.eqb level (u16 "error"))
                  && negb (includes benign message) then
            [mk (time_id (log_time parsed) (u16 "-warn"))
                (log_time parsed) alert (slice0 80 message) level]
          else []
    end.

(** The body of the loop over the lines in the tool
    [clawscope_get_activity] of mcp-server.ts, together with the filter
    [l.trim().startsWith('{')] that selects the lines; its events carry no
    id. *)
Definition classify_mcp (line : jsstring) : list TimelineEvent :=
  if negb (startsWith (u16 "{") (trim line)) then []
  else
    match JSON_parse_log line with
    | Throw _ => []
    | Return parsed =>
        if negb (is_lit (log_type parsed) "log") then []
        else
          let subsystem := or_else (log_subsystem parsed) [] in
          let message := or_else (log_message parsed) [] in
          let level := or_else (log_level parsed) (u16 "debug") in
          if JsString.eqb subsystem (u16 "agent/embedded")
             && includes (u16 "tool ") message then
            match match_word_after (u16 "tool=") message, match_tool_action message with
            | Some toolName, Some action =>
                [mk None (log_time parsed) tool (tool_summary action toolName) level]
            | _, _ => []
            end
          else if JsString.eqb subsystem (u16 "diagnostic")
                  && includes (u16 "session state") message then
            [mk None (log_time parsed) session (slice0 100 message) level]
          else if JsString.eqb subsystem (u16 "cron")
                  || includes (u16 "cron") message then
            [mk None (log_time parsed) cron (slice0 100 message) level]
          else if (JsString.eqb level (u16 "warn") || JsString.eqb level (u16 "error"))
                  && negb (includes benign message) then
            [mk None (log_time parsed) alert (slice0 150 message) level]
          else []
    end.

End WithRuntime.

End Classifier.

(** ** The provider endpoints and the settings route (frontend.ts) *)

Module Frontend.

Import Classifier.

(** *** [GET /sessions] and its cache *)

(** The module-level variables [lastSessionsJson] and [lastSessionsAt]. *)
Record session_cache : Type := {
  lastSessionsJson : json;
  lastSessionsAt : Z
}.

Definition initial_cache : session_cache :=
  {| lastSessionsJson := JNull; lastSessionsAt := 0 |}.

Definition SESSIONS_TTL_MS : Z := 15 * 60 * 1000.

Definition sessions_command : jsstring := u16 "openclaw sessions --json".

(** The test that opens the handler: a value is held and it is younger
    than the TTL. *)
Definition cache_fresh (now : Z) (c : session_cache) : bool :=
  Js.truthy (lastSessionsJson c) && (now - lastSessionsAt c <? SESSIONS_TTL_MS).

Record sessions_result : Type := {
  sessions_effects : list effect;
  sessions_response : response json;
  sessions_cache : session_cache
}.

(** What becomes of a request: a response is written, or an exception
    leaves a listener uncaught and nothing is written. *)
Inductive outcome (A : Type) : Type :=
| Responded (r : response A)
| Uncaught (message : jsstring).

Arguments Responded {A} r.
Arguments Uncaught {A} message.

(** The payload [{ok: true}]. *)
Definition ok_true : json := JObj [(u16 "ok", JBool true)].

Section WithRuntime.

Context `{JsRuntime}.

(** The handler of [GET /sessions]: [now] is [Date.now()], [plugin] the
    outcome of [fetchSessionsFromPlugin] and [cli] that of
    [exec('openclaw sessions --json')], each consulted only where the code
    awaits it. *)
Definition sessions_handler
    (plugin : exn json) (cli : exec_result) (now : Z) (c : session_cache)
  : sessions_result :=
  if cache_fresh now c then
    {| sessions_effects := [];
       sessions_response := Response 200 (Payload (lastSessionsJson c));
       sessions_cache := c |}
  else
    match plugin with
    | Return data =>
        {| sessions_effects := [FetchPlugin "/clawscope/sessions"];
           sessions_response := Response 200 (Payload data);
           sessions_cache := {| lastSessionsJson := data; lastSessionsAt := now |} |}
    | Throw _ =>
        let effects := [FetchPlugin "/clawscope/sessions"; Exec sessions_command] in
        let fallback :=
          match cli with
          | ExecFail e _ => Throw e
          | ExecOk stdout =>
              let cleanStdout := strip_ansi stdout in
              let jsonStr := from_first_bracket cleanStdout in
              JSON_parse jsonStr
          end in
        match fallback with
        | Return data =>
            {| sessions_effects := effects;
               sessions_response := Response 200 (Payload data);
               sessions_cache := {| lastSessionsJson := data; lastSessionsAt := now |} |}
        | Throw _ =>
            {| sessions_effects := effects;
               sessions_response := Response 200 (Payload (JArr []));
               sessions_cache := c |}
        end
    end.

(** *** [GET /activity] *)

Definition logs_command : jsstring := u16 "openclaw logs --json --limit 100".

(** [typeof x === 'string' ? x : JSON.stringify(x)] *)
Definition as_line (x : json) : json :=
  match x with
  | JStr s => JStr s
  | _ => JStr (JSON_stringify x)
  end.

(** The lines taken from the companion service's answer.  [data.lines] is
    used as it is, so its elements need not be strings. *)
Definition plugin_lines (data : json) : list json :=
  match data with
  | JArr items => map as_line items
  | _ =>
      if Js.truthy data then
        match get "lines" data with
        | Some (JArr lines) => lines
        | _ =>
            match get "logs" data with
            | Some (JArr logs) => map as_line logs
            | _ => []
            end
        end
      else []
  end.

Definition nonempty (s : jsstring) : bool :=
  match s with
  | [] => false
  | _ => true
  end.

(** [stdout] after the [try]/[catch] around [exec]: [result.stdout], or
    [e?.stdout || ''] when [exec] rejects. *)
Definition cli_stdout (cli : exec_result) : jsstring :=
  match cli with
  | ExecOk out => out
  | ExecFail _ out => or_else out []
  end.

(** [cleanStdout.split('\n').filter(Boolean)] *)
Definition cli_lines (cli : exec_result) : list jsstring :=
  filter nonempty (split_lines (strip_ansi (cli_stdout cli))).

(** The message of the [TypeError] that [line.trim()] throws on a line
    that is not a string. *)
Definition trim_type_error (line : json) : jsstring :=
  match line with
  | JNull => u16 "Cannot read properties of null (reading 'trim')"
  | _ => u16 "line.trim is not a function"
  end.

(** The loop over the lines.  [line.trim()] is evaluated outside the inner
    [try], so a line that is not a string ends the loop with a throw. *)
Fixpoint classify_lines (lines : list json) : exn (list TimelineEvent) :=
  match lines with
  | [] => Return []
  | JStr line :: rest =>
      match classify_lines rest with
      | Return events => Return (classify_activity line ++ events)
      | Throw e => Throw e
      end
  | other :: _ => Throw (trim_type_error other)
  end.

(** The lines the handler classifies, with the requests made to get
    them: those of the companion service, or, when there are none, those of
    the CLI.  [plugin] is the outcome of [fetchActivityFromPlugin(200)],
    [cli] that of [exec('openclaw logs --json --limit 100')]. *)
Definition activity_lines (plugin : exn json) (cli : exec_result)
  : list effect * list json :=
  let data :=
    match plugin with
    | Return d => d
    | Throw _ => JNull
    end in
  match plugin_lines data with
  | [] => ([FetchPlugin "/clawscope/activity?limit=200"; Exec logs_command],
           map JStr (cli_lines cli))
  | lines => ([FetchPlugin "/clawscope/activity?limit=200"], lines)
  end.

(** The handler of [GET /activity]. *)
Definition activity_handler (plugin : exn json) (cli : exec_result)
  : list effect * response (list TimelineEvent) :=
  let '(effects, lines) := activity_lines plugin cli in
  match classify_lines lines with
  | Return events =>
      (effects, Response 200 (Payload (rev (slice_last 30 events))))
  | Throw e =>
      (effects, Response 500 (ErrorObject (message_or e "activity failed")))
  end.

(** *** [POST /settings/save] *)

(** [saveLocalSettings(data)]: the new content of the settings file. *)
Definition saveLocalSettings (data : json) : jsstring :=
  JSON_stringify_indent data.

(** The listener registered for [end]: parse the accumulated body, write
    the file, answer.  The state is the content of the settings file,
    [None] while it does not exist. *)
Definition on_end (body : jsstring) (file : option jsstring)
  : exn (response json * option jsstring) :=
  let parsed :=
    match body with
    | [] => Return (JObj [])
    | _ => JSON_parse body
    end in
  match parsed with
  | Throw e => Throw e
  | Return data =>
      Return (Response 200 (Payload ok_true), Some (saveLocalSettings data))
  end.

(** The [try] block of the handler: the two calls [req.on('data', ...)]
    and [req.on('end', ...)], which register the listeners and return. *)
Definition register_listeners : exn unit := Return tt.

(** The handler of [POST /settings/save].  Its [catch] (status 500) guards
    the registration only; the handler then returns, and the listeners run
    later from the stream's events, outside the [try]: [chunks] are the
    [data] events in order, then [end] fires. *)
Definition settings_save_handler (chunks : list jsstring) (file : option jsstring)
  : outcome json * option jsstring :=
  match register_listeners with
  | Throw err =>
      (Responded (Response 500 (ErrorObject (message_or err "save failed"))), file)
  | Return _ =>
      let body := List.concat chunks in
      match on_end body file with
      | Return (r, file') => (Responded r, file')
      | Throw e => (Uncaught e, file)
      end
  end.

End WithRuntime.

End Frontend.

(** ** The endpoints of frontend-v2.ts that answer from the activity backend *)

Module ActivityBackend.

(** activity-backend.ts *)
Inductive ActivityKind : Type :=
| session_start | session_end | message | tool | cron | system.

Record ActivityEvent : Type := {
  id : jsstring;
  ts : jsstring;
  kind : ActivityKind;
  sessionKey : option jsstring;
  agentId : option jsstring;
  channel : option jsstring;
  summary : jsstring
}.

Record params : Type := {
  since : option jsstring;
  limit : option Z
}.

(** [l.slice(0, n)] for an integer [n]: a negative [n] counts from the
    end. *)
Definition slice_to {A : Type} (n : Z) (l : list A) : list A :=
  if n <? 0 then firstn (List.length l - Z.to_nat (- n)) l
  else firstn (Z.to_nat n) l.

(** [InMemoryActivityBackend.listActivity]; [events] is the list the
    constructor stored. *)
Definition listActivity (events : list ActivityEvent) (p : option params)
  : list ActivityEvent :=
  let limit := nullish (match p with Some q => limit q | None => None end) 20 in
  let out :=
    match p with
    | Some {| since := Some (c :: r) |} =>
        filter (fun e => geb (ts e) (c :: r)) events
    | _ => events
    end in
  slice_to limit out.


End ActivityBackend.

(** ** The timeline: the server's aggregation and the page's merge *)

Module Timeline.

Import Classifier.

(** [l.sort(cmp)]: a stable sort, written as an insertion sort.  [cmp x y]
    is positive when [x] belongs after [y].  This is the order the runtime
    gives when the comparator is consistent on the list, as a difference
    of times is when every time is a date.  When a difference is [NaN]
    the language leaves the order to the implementation, and the result
    here is one permutation among those possible: what is stated about the
    order of a sorted list assumes dated events. *)
Fixpoint insert_sorted {A : Type} (cmp : A -> A -> Z) (x : A) (l : list A) : list A :=
  match l with
  | [] => [x]
  | y :: r => if 0 <? cmp x y then y :: insert_sorted cmp x r else x :: l
  end.

Definition sort {A : Type} (cmp : A -> A -> Z) (l : list A) : list A :=
  fold_right (insert_sorted cmp) [] l.

(** *** [GET /timeline-data] of frontend-v2.ts *)

(** An entry of [sessions.json]. *)
Record session_entry : Type := {
  sessionId : option jsstring;
  key : option jsstring;
  updatedAt : option Z;
  displayName : option jsstring
}.

(** [sessions.json]: an array of entries, or an object whose [sessions]
    property may be absent. *)
Inductive sessions_file : Type :=
| SessionsArray (entries : list session_entry)
| SessionsObject (sessions : option (list session_entry)).

Inductive source_record : Type :=
| OfSession (s : session_entry)
| OfTask (t : job)
| OfActivity (a : ActivityBackend.ActivityEvent).

Definition FeedEvent : Type := event source_record.

(** What the request and the process bring: the query parameters ([limit]
    after [parseInt], [None] for [NaN]), the default lower bound (seven
    days before now, in ISO form), the value of the [i]-th call of
    [new Date().toISOString()] and of [Math.random().toString()], the two
    files as [readJsonFile] returns them, and the events the activity
    backend holds. *)
Record request : Type := {
  since_param : option jsstring;
  limit : option Z;
  default_since : jsstring;
  now_iso : nat -> jsstring;
  random : nat -> jsstring;
  sessions_json : option sessions_file;
  jobs_json : option cron_payload;
  backend_events : list ActivityBackend.ActivityEvent
}.

Definition session_entries (f : option sessions_file) : list session_entry :=
  match f with
  | None => []
  | Some (SessionsArray entries) => entries
  | Some (SessionsObject sessions) => nullish sessions []
  end.

Definition task_entries (f : option cron_payload) : list job :=
  match f with
  | Some (CronObject jobs) => nullish jobs []
  | _ => []
  end.

(** [a || b] on string fields. *)
Definition or_field (a b : option jsstring) : option jsstring :=
  match a with
  | Some (c :: r) => Some (c :: r)
  | _ => b
  end.

(** [n] when it is truthy. *)
Definition nonzero (n : option Z) : option Z :=
  match n with
  | Some v => if v =? 0 then None else Some v
  | None => None
  end.

(** The timeline kind of an activity kind. *)
Definition timeline_kind (k : ActivityBackend.ActivityKind) : event_kind :=
  match k with
  | ActivityBackend.session_start | ActivityBackend.session_end => session
  | ActivityBackend.tool => tool
  | ActivityBackend.system => alert
  | ActivityBackend.cron => cron
  | ActivityBackend.message => message
  end.

(** The comparator [(a, b) => new Date(b.ts).getTime() - new Date(a.ts).getTime()]. *)
Definition newest_first `{JsRuntime} {D : Type} (a b : event D) : Z :=
  num_sub (getTime (ts b)) (getTime (ts a)).

(** [e.ts >= since] *)
Definition not_before {D : Type} (since : jsstring) (e : event D) : bool :=
  match ts e with
  | Some t => geb t since
  | None => false
  end.

Section WithRuntime.

Context `{JsRuntime}.

(** The callback of the [forEach] over the sessions; [i] is the position
    of the session. *)
Definition session_event (rq : request) (i : nat) (s : session_entry) : exn FeedEvent :=
  let stamp :=
    match nonzero (updatedAt s) with
    | Some ms => Date_toISOString ms
    | None => Return (now_iso rq i)
    end in
  match stamp with
  | Throw e => Throw e
  | Return t =>
      Return {| id := Some (or_else (or_field (sessionId s) (key s)) (random rq i));
                ts := Some t;
                kind := session;
                summary := or_else (or_field (displayName s) (key s)) (u16 "Session activity");
                level := None;
                details := Some (OfSession s) |}
  end.

Fixpoint session_events (rq : request) (i : nat) (l : list session_entry)
  : exn (list FeedEvent) :=
  match l with
  | [] => Return []
  | s :: r =>
      match session_event rq i s with
      | Throw e => Throw e
      | Return ev =>
          match session_events rq (S i) r with
          | Throw e => Throw e
          | Return evs => Return (ev :: evs)
          end
      end
  end.

(** The callback of the [forEach] over the jobs: an event for a job that
    has run. *)
Fixpoint cron_events (l : list job) : exn (list FeedEvent) :=
  match l with
  | [] => Return []
  | t :: r =>
      match nonzero (job_lastRunAtMs t) with
      | None => cron_events r
      | Some ms =>
          match Date_toISOString ms with
          | Throw e => Throw e
          | Return stamp =>
              match cron_events r with
              | Throw e => Throw e
              | Return evs =>
                  Return ({| id := job_id t;
                             ts := Some stamp;
                             kind := cron;
                             summary := or_else (job_name t) (u16 "Scheduled task");
                             level := None;
                             details := Some (OfTask t) |} :: evs)
              end
          end
      end
  end.

Definition activity_event (a : ActivityBackend.ActivityEvent) : FeedEvent :=
  {| id := Some (ActivityBackend.id a);
     ts := Some (ActivityBackend.ts a);
     kind := timeline_kind (ActivityBackend.kind a);
     summary := ActivityBackend.summary a;
     level := None;
     details := Some (OfActivity a) |}.

(** [events.slice(0, limit)] with [limit] possibly [NaN]. *)
Definition slice_limit {A : Type} (limit : option Z) (l : list A) : list A :=
  match limit with
  | Some n => ActivityBackend.slice_to n l
  | None => []
  end.

(** The events collected from the three sources, in the order they are
    pushed. *)
Definition collect (rq : request) : exn (list FeedEvent) :=
  let since := or_else (since_param rq) (default_since rq) in
  match session_events rq 0 (session_entries (sessions_json rq)) with
  | Throw e => Throw e
  | Return from_sessions =>
      match cron_events (task_entries (jobs_json rq)) with
      | Throw e => Throw e
      | Return from_cron =>
          let activity :=
            ActivityBackend.listActivity (backend_events rq)
              (Some {| ActivityBackend.since := Some since;
                       ActivityBackend.limit := Some 100 |}) in
          Return (from_sessions ++ from_cron ++ map activity_event activity)
      end
  end.

(** The handler: collect, then [filter], [sort], [slice]; any throw is
    answered with the empty list. *)
Definition timeline_data_handler (rq : request) : response (list FeedEvent) :=
  let since := or_else (since_param rq) (default_since rq) in
  match collect rq with
  | Throw _ => Response 200 (Payload [])
  | Return events =>
      let filtered :=
        slice_limit (limit rq) (sort newest_first (filter (not_before since) events)) in
      Response 200 (Payload filtered)
  end.

(** *** The merge in [loadTimeline] of the timeline page (frontend.ts) *)

(** [eventMap.set(k, ev)] on a [Map], which keeps its keys in the order
    of their first insertion. *)
Fixpoint map_set {V : Type} (k : jsstring) (v : V) (m : list (jsstring * V))
  : list (jsstring * V) :=
  match m with
  | [] => [(k, v)]
  | (k', v') :: r =>
      if JsString.eqb k k' then (k, v) :: r else (k', v') :: map_set k v r
  end.

(** The callback [ev => { if (ev && ev.id) eventMap.set(ev.id, ev) }]; an
    entry of the array may be [null]. *)
Definition remember (m : list (jsstring * TimelineEvent)) (ev : option TimelineEvent)
  : list (jsstring * TimelineEvent) :=
  match ev with
  | Some e =>
      match id e with
      | Some (c :: r) => map_set (c :: r) e m
      | _ => m
      end
  | None => m
  end.

(** [eventMap] after the [forEach] over the cached events followed by the
    new ones. *)
Definition eventMap (cached fresh : list (option TimelineEvent))
  : list (jsstring * TimelineEvent) :=
  fold_left remember (cached ++ fresh) [].

(** [allEvents]: the values of the map, newest first. *)
Definition allEvents (cached fresh : list (option TimelineEvent)) : list TimelineEvent :=
  sort newest_first (map snd (eventMap cached fresh)).

Definition maxEvents : nat := 500.

(** [trimmed]: what the page caches and renders. *)
Definition trimmed (cached fresh : list (option TimelineEvent)) : list TimelineEvent :=
  firstn maxEvents (allEvents cached fresh).

End WithRuntime.

End Timeline.

(** ** Escaping in the page scripts (frontend.ts, frontend-v2.ts) *)

Module Page.

(** [s.replace(/c/g, rep)] for a pattern of one literal character. *)
Fixpoint replace_all (c : N) (rep s : jsstring) : jsstring :=
  match s with
  | [] => []
  | x :: r =>
      if N.eqb x c then rep ++ replace_all c rep r
      else x :: replace_all c rep r
  end.

Definition amp : N := 38%N.
Definition lt : N := 60%N.
Definition gt : N := 62%N.
Definition quot : N := 34%N.
Definition apos : N := 39%N.

(** [escapeHtml] of the search page of frontend.ts: five replacements, the
    ampersand first. *)
Definition escapeHtml (str : jsstring) : jsstring :=
  replace_all apos (u16 "&#39;")
    (replace_all quot (u16 "&quot;")
       (replace_all gt (u16 "&gt;")
          (replace_all lt (u16 "&lt;")
             (replace_all amp (u16 "&amp;") str)))).

(** [esc] of the search page of frontend-v2.ts: the same five, the
    apostrophe before the quotation mark. *)
Definition esc (s : jsstring) : jsstring :=
  replace_all quot (u16 "&quot;")
    (replace_all apos (u16 "&#39;")
       (replace_all gt (u16 "&gt;")
          (replace_all lt (u16 "&lt;")
             (replace_all amp (u16 "&amp;") s)))).

(** [escapeHtml] of the timeline page of frontend.ts, and [esc] of the
    timeline, graph, db and settings pages of frontend-v2.ts: three
    replacements. *)
Definition escapeHtml_timeline (str : jsstring) : jsstring :=
  replace_all gt (u16 "&gt;")
    (replace_all lt (u16 "&lt;")
       (replace_all amp (u16 "&amp;") str)).

(** The value written between the apostrophes of [data-event='...'] in
    [renderTimeline]: [escapeHtml(json.replace(/'/g, "&#39;"))], where
    [json] is [JSON.stringify(ev)]. *)
Definition data_event_attribute (json : jsstring) : jsstring :=
  escapeHtml_timeline (replace_all apos (u16 "&#39;") json).

(** [s.split('\n\n')]: the pieces between the matches of two line
    feeds, found from left to right; [cur] is the piece being read, in
    reverse. *)
Fixpoint split_paragraphs_aux (cur s : jsstring) : list jsstring :=
  match s with
  | [] => [rev cur]
  | c :: r =>
      match r with
      | d :: r' =>
          if (N.eqb c 10 && N.eqb d 10)%bool
          then rev cur :: split_paragraphs_aux [] r'
          else split_paragraphs_aux (c :: cur) r
      | [] => [rev (c :: cur)]
      end
  end.

Definition split_paragraphs (s : jsstring) : list jsstring :=
  split_paragraphs_aux [] s.

(** [p.replace('\n', rep)]: a pattern that is a string replaces its
    first occurrence only. *)
Fixpoint replace_first (c : N) (rep s : jsstring) : jsstring :=
  match s with
  | [] => []
  | x :: r => if N.eqb x c then rep ++ r else x :: replace_first c rep r
  end.

(** The markup of a paragraph whose text is [p]. *)
Definition paragraph_markup (p : jsstring) : jsstring :=
  u16 "<p>" ++ replace_first 10 (u16 "<br/>") p ++ u16 "</p>".

(** The body of the loop of [renderMarkdown]: what is pushed for one
    part. *)
Definition paragraph (part : jsstring) : list jsstring :=
  match trim part with
  | [] => []
  | p => [paragraph_markup p]
  end.

(** [renderMarkdown(src)] of the search page of frontend.ts, for a
    string. *)
Definition renderMarkdown (src : jsstring) : jsstring :=
  List.concat (flat_map paragraph (split_paragraphs (escapeHtml src))).

End Page.

(** ** The placeholder backend (search.ts) and the search route *)

Module InMemorySearch.

Import Search.

(** [(item.title ?? '') + ' ' + item.snippet] *)
Definition haystack (item : SearchItem) : jsstring :=
  nullish (title item) [] ++ 32%N :: snippet item.

(** [(h.match(new RegExp(escaped, 'g')) || []).length] where [escaped] is
    [q] with every regular-expression metacharacter escaped: the number of
    matches of the literal [q] in [h], found from left to right, each
    search resuming where the previous match ended ([skip] code units are
    still covered by it); the empty pattern matches once at every position,
    the end included. *)
Fixpoint occurrences (q : jsstring) (skip : nat) (h : jsstring) : Z :=
  match h with
  | [] =>
      match skip, q with
      | O, [] => 1
      | _, _ => 0
      end
  | _ :: r =>
      match skip with
      | S k => occurrences q k r
      | O =>
          if startsWith q h
          then 1 + occurrences q (List.length q - 1) r
          else occurrences q 0 r
      end
  end.

(** [x || 1] on a count. *)
Definition or_one (n : Z) : Z := if n =? 0 then 1 else n.

Definition with_score (item : SearchItem) (s : Q) : SearchItem :=
  {| id := id item; kind := kind item; source := source item;
     title := title item; snippet := snippet item; score := s;
     score_fts := score_fts item; score_embed := score_embed item;
     created_at := created_at item; item_payload := item_payload item |}.

(** The comparator [(a, b) => b.score - a.score], by its sign. *)
Definition by_score (a b : SearchItem) : Z := Qnum (score b - score a).

Section WithLowerCase.

(** [String.prototype.toLowerCase] of the runtime. *)
Variable toLowerCase : jsstring -> jsstring.

(** [InMemorySearchBackend.search]; [items] is the list the backend
    holds. *)
Definition search (items : list SearchItem) (query : jsstring) (limit : option Z)
  : list SearchItem :=
  let limit := nullish limit 20 in
  let q := toLowerCase query in
  let filtered :=
    filter (fun item => includes q (toLowerCase (haystack item))) items in
  let scored :=
    map (fun item =>
           let occ := occurrences q 0 (toLowerCase (haystack item)) in
           with_score item (inject_Z (or_one occ)))
        filtered in
  ActivityBackend.slice_to limit (Timeline.sort by_score scored).

End WithLowerCase.

End InMemorySearch.

Module SearchRoute.

Import Search.

(** [url.searchParams.get('mode') || 'hybrid'], cast to [SearchMode]: any
    text other than [lexical] takes the hybrid path. *)
Definition mode_of_param (m : option jsstring) : SearchMode :=
  if is_lit m "lexical" then lexical
  else if is_lit m "semantic" then semantic
  else hybrid.

(** The handler of [GET /memory/search] of frontend.ts (and of server.ts):
    [q] and [mode] are the query parameters, [limit] the value of
    [parseInt(limit || '20', 10)] when it is a number. *)
Definition memory_search_handler (E : Engine) (cfg : config)
    (q mode : option jsstring) (limit : Z)
  : list call * response (list SearchItem) :=
  let req := {| query := or_else q [];
                Search.mode := Some (mode_of_param mode);
                Search.limit := Some limit;
                k := None |} in
  match search E cfg req with
  | (trace, Return items) => (trace, Response 200 (Payload items))
  | (trace, Throw err) =>
      (trace, Response 500 (ErrorObject (message_or err "search failed")))
  end.

End SearchRoute.

(** ** The activity tool of the MCP server (mcp-server.ts) *)

Module Mcp.

Import Classifier.

(** What a tool returns: a text content that is the JSON of a value, or
    of [{error: message}]. *)
Inductive tool_result (A : Type) : Type :=
| Content (a : A)
| ErrorText (message : jsstring).

Arguments Content {A} a.
Arguments ErrorText {A} message.

(** [runOpenclaw(args)]: the output of the command without its colour
    codes; a rejection of [exec] is passed on. *)
Definition runOpenclaw (cli : exec_result) : exn jsstring :=
  match cli with
  | ExecOk stdout => Return (strip_ansi stdout)
  | ExecFail e _ => Throw e
  end.

Definition logs_command (limit : Z) : jsstring :=
  u16 "openclaw logs --json --limit " ++ of_Z limit.

Section WithRuntime.

Context `{JsRuntime}.

(** The tool [clawscope_get_activity], for an integer [limit]; [cli] is
    the outcome of the command. *)
Definition get_activity (limit : option Z) (cli : exec_result)
  : list effect * tool_result (list TimelineEvent) :=
  let limit := nullish limit 50 in
  ([Exec (logs_command limit)],
   match runOpenclaw cli with
   | Throw e => ErrorText e
   | Return output =>
       let events := flat_map classify_mcp (split_lines output) in
       Content (ActivityBackend.slice_to limit events)
   end).

End WithRuntime.

End Mcp.

(** ** [GET /timeline-data] of frontend.ts *)

Module LogTimeline.

Import Classifier Frontend Timeline.

(** ['openclaw logs --json --limit ' + limit], where [limit] is [NaN]
    when the parameter is not a number. *)
Definition logs_command (limit : option Z) : jsstring :=
  u16 "openclaw logs --json --limit "
  ++ match limit with
     | Some n => of_Z n
     | None => u16 "NaN"
     end.

Section WithRuntime.

Context `{JsRuntime}.

(** The handler: [since_param] and [limit] are the query parameters
    ([limit] after [parseInt]), [default_since] is seven days before now
    in ISO form, [cli] the outcome of the command. *)
Definition timeline_data_handler
    (since_param : option jsstring) (default_since : jsstring)
    (limit : option Z) (cli : exec_result)
  : list effect * response (list TimelineEvent) :=
  let since := or_else since_param default_since in
  let stdout := cli_stdout cli in
  let cleanStdout := strip_ansi stdout in
  let lines := split_lines cleanStdout in
  let sinceTs := Date_getTime since in
  let events := flat_map (classify_timeline sinceTs) lines in
  ([Exec (logs_command limit)],
   Response 200 (Payload (sort newest_first events))).

End WithRuntime.

End LogTimeline.

(** ** [GET /graph-data] of frontend-v2.ts *)

Module Graph.

(** A fact of the knowledge graph, and an edge of an entity's graph. *)
Record fact : Type := {
  subject : jsstring;
  predicate : jsstring;
  object : jsstring;
  confidence : Q
}.

Record node : Type := {
  node_id : jsstring;
  label : jsstring
}.

Record edge : Type := {
  from : jsstring;
  to : jsstring;
  edge_label : jsstring;
  edge_confidence : Q
}.

(** The calls to the memory engine, by their outcome: [openDb],
    [runMigrations] and [initSchema] taken together, then the queries. *)
Record GraphDb : Type := {
  open : exn unit;
  getEntityGraph : jsstring -> exn (list fact);
  getAllFacts : option Z -> exn (list fact);
  getGraphStats : exn json
}.

(** The body of the answer: [{nodes, edges, stats}], with [error] when
    something threw. *)
Record graph_answer : Type := {
  nodes : list node;
  edges : list edge;
  stats : json;
  error : option jsstring
}.

(** [if (!nodeMap.has(k)) nodeMap.set(k, {id: k, label: k})]; the map is
    kept as the list of its values in the order of insertion. *)
Definition add_node (k : jsstring) (m : list node) : list node :=
  if existsb (fun n => JsString.eqb (node_id n) k) m then m
  else m ++ [{| node_id := k; label := k |}].

Definition edge_of (f : fact) : edge :=
  {| from := subject f; to := object f;
     edge_label := predicate f; edge_confidence := confidence f |}.

(** [fact.confidence < minConf], false when [minConf] is [NaN]. *)
Definition below (minConf : option Q) (f : fact) : bool :=
  match minConf with
  | Some m => negb (Qle_bool m (confidence f))
  | None => false
  end.

(** The body of the loop over the edges or the facts; [skip] is the test
    that makes the loop continue with the next one. *)
Definition visit (skip : fact -> bool) (acc : list node * list edge) (f : fact)
  : list node * list edge :=
  if skip f then acc
  else (add_node (object f) (add_node (subject f) (fst acc)),
        snd acc ++ [edge_of f]).

Definition build (skip : fact -> bool) (facts : list fact) : list node * list edge :=
  fold_left (visit skip) facts ([], []).

(** The handler: [limit] is the parameter after [parseInt], [minConf]
    after [parseFloat], [None] for [NaN]; [entity] is the parameter, if
    given.  Both its ways out answer with status 200. *)
Definition graph_data_handler (db : GraphDb)
    (limit : option Z) (minConf : option Q) (entity : option jsstring)
  : response graph_answer :=
  let failed (message : jsstring) :=
    Response 200 (Payload {| nodes := []; edges := []; stats := JObj [];
                             error := Some message |}) in
  match open db with
  | Throw e => failed e
  | Return _ =>
      let graphData :=
        match entity with
        | Some (c :: r) =>
            match getEntityGraph db (c :: r) with
            | Throw e => Throw e
            | Return entityGraph => Return (build (fun _ => false) entityGraph)
            end
        | _ =>
            match getAllFacts db limit with
            | Throw e => Throw e
            | Return facts => Return (build (below minConf) facts)
            end
        end in
      match graphData with
      | Throw e => failed e
      | Return (ns, es) =>
          match getGraphStats db with
          | Throw e => failed e
          | Return st =>
              Response 200 (Payload {| nodes := ns; edges := es; stats := st;
                                       error := None |})
          end
      end
  end.

End Graph.

(** ** The settings file (frontend.ts) *)

Module Settings.

Import Frontend.

Section WithRuntime.

Context `{JsRuntime}.

(** [loadLocalSettings()]; [file] is the content of the settings file,
    [None] while it does not exist. *)
Definition loadLocalSettings (file : option jsstring) : json :=
  match file with
  | None => JObj []
  | Some raw =>
      match JSON_parse (or_else (Some raw) (u16 "{}")) with
      | Return data => data
      | Throw _ => JObj []
      end
  end.

(** The handler of [GET /settings/config]. *)
Definition settings_config_handler (file : option jsstring) : response json :=
  Response 200 (Payload (loadLocalSettings file)).

End WithRuntime.

End Settings.

(** ** The groups of the timeline page (frontend.ts) *)

Module Grouping.

Import Classifier Timeline.

Section WithFormat.

Context `{JsRuntime}.

(** [formatDate(ts)]: the day of a time stamp in the locale of the page,
    a text such as [Mon, Jan 5] or [Invalid Date].  Such a text is not an
    array index and is no property of an empty object, so the object
    [groups] lists its keys in the order of their insertion. *)
Variable formatDate : option jsstring -> jsstring.

(** [if (!groups[day]) groups[day] = []; groups[day].push(ev)] *)
Fixpoint push_to (day : jsstring) (ev : TimelineEvent)
    (groups : list (jsstring * list TimelineEvent))
  : list (jsstring * list TimelineEvent) :=
  match groups with
  | [] => [(day, [ev])]
  | (d, evs) :: r =>
      if JsString.eqb d day then (d, evs ++ [ev]) :: r
      else (d, evs) :: push_to day ev r
  end.

(** [groupByDay(events)]: the pairs [{day, events}]. *)
Definition groupByDay (events : list TimelineEvent)
  : list (jsstring * list TimelineEvent) :=
  let groups :=
    fold_left (fun g ev => push_to (formatDate (ts ev)) ev g) events [] in
  map (fun g => (fst g, sort newest_first (snd g))) groups.

End WithFormat.

End Grouping.

(** ** An executable runtime *)

(** [Mini] implements [JsRuntime] on the part of JSON and of the date
    formats that the examples below use: JSON texts whose numbers are
    integers and whose strings carry no [\u] escape, and time stamps in the
    form [toISOString] prints.  A text outside this part is reported as a
    syntax error, a time stamp outside it as [NaN]. *)

Module Mini.

(** *** JSON.parse *)

Definition json_ws (c : N) : bool :=
  ((c =? 32) || (c =? 9) || (c =? 10) || (c =? 13))%N.

Definition skip_ws (s : jsstring) : jsstring := dropWhile json_ws s.

Definition is_digit (c : N) : bool := ((48 <=? c) && (c <=? 57))%N.

(** The characters of a string literal after its opening quote. *)
Fixpoint parse_string (s acc : jsstring) : option (jsstring * jsstring) :=
  match s with
  | [] => None
  | 34%N :: r => Some (rev acc, r)
  | 92%N :: e :: r =>
      match e with
      | 34%N => parse_string r (34%N :: acc)
      | 92%N => parse_string r (92%N :: acc)
      | 47%N => parse_string r (47%N :: acc)
      | 98%N => parse_string r (8%N :: acc)
      | 102%N => parse_string r (12%N :: acc)
      | 110%N => parse_string r (10%N :: acc)
      | 114%N => parse_string r (13%N :: acc)
      | 116%N => parse_string r (9%N :: acc)
      | _ => None
      end
  | c :: r => if (c <? 32)%N then None else parse_string r (c :: acc)
  end.

Definition digits_value (ds : jsstring) : Z :=
  fold_left (fun a d => 10 * a + (Z.of_N d - 48)) ds 0.

(** An integer literal: no leading zero, no fraction, no exponent. *)
Definition parse_int (s : jsstring) : option (Z * jsstring) :=
  let '(neg, body) :=
    match s with
    | 45%N :: r => (true, r)
    | _ => (false, s)
    end in
  let ds := takeWhile is_digit body in
  let rest := skipn (List.length ds) body in
  let plain :=
    match rest with
    | 46%N :: _ | 101%N :: _ | 69%N :: _ => false
    | _ => true
    end in
  match ds with
  | [] => None
  | 48%N :: _ :: _ => None
  | _ =>
      if plain then Some (if neg then - digits_value ds else digits_value ds, rest)
      else None
  end.

(** [o[k] = v] on the properties of an object under construction. *)
Fixpoint obj_set (k : jsstring) (v : json) (fields : list (jsstring * json))
  : list (jsstring * json) :=
  match fields with
  | [] => [(k, v)]
  | (k', v') :: r =>
      if JsString.eqb k k' then (k, v) :: r else (k', v') :: obj_set k v r
  end.

Fixpoint parse_value (fuel : nat) (s : jsstring) : option (json * jsstring) :=
  match fuel with
  | O => None
  | S fuel' =>
      match skip_ws s with
      | 123%N :: r =>
          match skip_ws r with
          | 125%N :: r' => Some (JObj [], r')
          | _ => parse_members fuel' r []
          end
      | 91%N :: r =>
          match skip_ws r with
          | 93%N :: r' => Some (JArr [], r')
          | _ => parse_elements fuel' r []
          end
      | 34%N :: r =>
          match parse_string r [] with
          | Some (str, r') => Some (JStr str, r')
          | None => None
          end
      | 116%N :: 114%N :: 117%N :: 101%N :: r => Some (JBool true, r)
      | 102%N :: 97%N :: 108%N :: 115%N :: 101%N :: r => Some (JBool false, r)
      | 110%N :: 117%N :: 108%N :: 108%N :: r => Some (JNull, r)
      | other =>
          match parse_int other with
          | Some (n, r) => Some (JNum n, r)
          | None => None
          end
      end
  end
with parse_members (fuel : nat) (s : jsstring) (acc : list (jsstring * json))
  : option (json * jsstring) :=
  match fuel with
  | O => None
  | S fuel' =>
      match skip_ws s with
      | 34%N :: r =>
          match parse_string r [] with
          | Some (k, r1) =>
              match skip_ws r1 with
              | 58%N :: r2 =>
                  match parse_value fuel' r2 with
                  | Some (v, r3) =>
                      match skip_ws r3 with
                      | 44%N :: r4 => parse_members fuel' r4 (obj_set k v acc)
                      | 125%N :: r4 => Some (JObj (obj_set k v acc), r4)
                      | _ => None
                      end
                  | None => None
                  end
              | _ => None
              end
          | None => None
          end
      | _ => None
      end
  end
with parse_elements (fuel : nat) (s : jsstring) (acc : list json)
  : option (json * jsstring) :=
  match fuel with
  | O => None
  | S fuel' =>
      match parse_value fuel' s with
      | Some (v, r) =>
          match skip_ws r with
          | 44%N :: r' => parse_elements fuel' r' (v :: acc)
          | 93%N :: r' => Some (JArr (rev (v :: acc)), r')
          | _ => None
          end
      | None => None
      end
  end.

Definition syntax_error : jsstring := u16 "Unexpected token in JSON".

Definition parse (s : jsstring) : exn json :=
  match parse_value (2 * List.length s + 2) s with
  | Some (v, rest) =>
      match skip_ws rest with
      | [] => Return v
      | _ => Throw syntax_error
      end
  | None => Throw syntax_error
  end.

(** *** Reading a parsed value at a record type *)

Definition ill_typed : jsstring := u16 "field outside the typed fragment".

Definition str_field (k : string) (v : json) : exn (option jsstring) :=
  match get k v with
  | None => Return None
  | Some (JStr s) => Return (Some s)
  | Some _ => Throw ill_typed
  end.

Definition num_field (k : string) (v : json) : exn (option Z) :=
  match get k v with
  | None => Return None
  | Some (JNum n) => Return (Some n)
  | Some _ => Throw ill_typed
  end.

Definition bool_field (k : string) (v : json) : exn (option bool) :=
  match get k v with
  | None => Return None
  | Some (JBool b) => Return (Some b)
  | Some _ => Throw ill_typed
  end.

Definition bind {A B : Type} (m : exn A) (f : A -> exn B) : exn B :=
  match m with
  | Return a => f a
  | Throw e => Throw e
  end.

Local Notation "x <- m ;; f" := (bind m (fun x => f))
  (at level 61, m at next level, right associativity).

Definition log_of_json (v : json) : exn log_record :=
  match v with
  | JNull => Throw (u16 "Cannot read properties of null (reading 'type')")
  | _ =>
      ty <- str_field "type" v ;;
      time <- str_field "time" v ;;
      subsystem <- str_field "subsystem" v ;;
      message <- str_field "message" v ;;
      level <- str_field "level" v ;;
      Return {| log_type := ty; log_time := time; log_subsystem := subsystem;
                log_message := message; log_level := level |}
  end.

Definition schedule_of_json (v : json) : exn schedule :=
  kind <- str_field "kind" v ;;
  expr <- str_field "expr" v ;;
  everyMs <- num_field "everyMs" v ;;
  at_ <- str_field "at" v ;;
  Return {| sched_kind := kind; sched_expr := expr;
            sched_everyMs := everyMs; sched_at := at_ |}.

Definition job_of_json (v : json) : exn job :=
  id <- str_field "id" v ;;
  name <- str_field "name" v ;;
  enabled <- bool_field "enabled" v ;;
  sched <- match get "schedule" v with
           | None => Return None
           | Some s => s' <- schedule_of_json s ;; Return (Some s')
           end ;;
  nextRunAt <- str_field "nextRunAt" v ;;
  agentId <- str_field "agentId" v ;;
  owner <- str_field "owner" v ;;
  kind <- str_field "kind" v ;;
  description <- str_field "description" v ;;
  payloadSummary <- str_field "payloadSummary" v ;;
  lastRun <- match get "state" v with
             | None => Return None
             | Some st => num_field "lastRunAtMs" st
             end ;;
  Return {| job_id := id; job_name := name; job_enabled := enabled;
            job_schedule := sched; job_nextRunAt := nextRunAt;
            job_agentId := agentId; job_owner := owner; job_kind := kind;
            job_description := description;
            job_payloadSummary := payloadSummary;
            job_lastRunAtMs := lastRun |}.

Fixpoint jobs_of_json (l : list json) : exn (list job) :=
  match l with
  | [] => Return []
  | v :: r => j <- job_of_json v ;; js <- jobs_of_json r ;; Return (j :: js)
  end.

Definition cron_of_json (v : json) : exn cron_payload :=
  match v with
  | JArr items => js <- jobs_of_json items ;; Return (CronArray js)
  | JObj _ =>
      match get "jobs" v with
      | None => Return (CronObject None)
      | Some (JArr items) => js <- jobs_of_json items ;; Return (CronObject (Some js))
      | Some _ => Throw ill_typed
      end
  | _ => Throw ill_typed
  end.

(** *** JSON.stringify *)

Definition hex_digit (n : N) : N :=
  (if n <? 10 then 48 + n else 87 + n)%N.

Definition escape_unit (c : N) : jsstring :=
  match c with
  | 34%N => [92; 34]%N
  | 92%N => [92; 92]%N
  | 8%N => [92; 98]%N
  | 12%N => [92; 102]%N
  | 10%N => [92; 110]%N
  | 13%N => [92; 114]%N
  | 9%N => [92; 116]%N
  | _ =>
      if (c <? 32)%N
      then [92; 117; 48; 48; hex_digit (c / 16); hex_digit (c mod 16)]%N
      else [c]
  end.

Definition quote (s : jsstring) : jsstring :=
  34%N :: flat_map escape_unit s ++ [34%N].

Fixpoint join (sep : jsstring) (parts : list jsstring) : jsstring :=
  match parts with
  | [] => []
  | [p] => p
  | p :: r => p ++ sep ++ join sep r
  end.

Definition spaces (n : nat) : jsstring := repeat 32%N n.

(** [JSON.stringify(v, null, step)] at nesting depth [depth]; [step = 0]
    is the compact form. *)
Fixpoint stringify_at (step depth : nat) (v : json) : jsstring :=
  let break_ (d : nat) : jsstring :=
    match step with
    | O => []
    | _ => 10%N :: spaces (step * d)
    end in
  let colon : jsstring :=
    match step with
    | O => [58%N]
    | _ => [58%N; 32%N]
    end in
  match v with
  | JNull => u16 "null"
  | JBool true => u16 "true"
  | JBool false => u16 "false"
  | JNum n => of_Z n
  | JStr s => quote s
  | JArr [] => u16 "[]"
  | JArr items =>
      91%N :: break_ (S depth)
      ++ join (44%N :: break_ (S depth)) (map (stringify_at step (S depth)) items)
      ++ break_ depth ++ [93%N]
  | JObj [] => u16 "{}"
  | JObj fields =>
      123%N :: break_ (S depth)
      ++ join (44%N :: break_ (S depth))
           (map (fun kv => quote (fst kv) ++ colon ++ stringify_at step (S depth) (snd kv))
                fields)
      ++ break_ depth ++ [125%N]
  end.

Definition stringify (v : json) : jsstring := stringify_at 0 0 v.
Definition stringify_indent (v : json) : jsstring := stringify_at 2 0 v.

(** *** Dates *)

Definition ms_per_day : Z := 86400000.

(** The civil date of a day number counted from 1970-01-01. *)
Definition civil_of_days (days : Z) : Z * Z * Z :=
  let z := days + 719468 in
  let era := z / 146097 in
  let doe := z - era * 146097 in
  let yoe := (doe - doe / 1460 + doe / 36524 - doe / 146096) / 365 in
  let doy := doe - (365 * yoe + yoe / 4 - yoe / 100) in
  let mp := (5 * doy + 2) / 153 in
  let d := doy - (153 * mp + 2) / 5 + 1 in
  let m := if mp <? 10 then mp + 3 else mp - 9 in
  let y := yoe + era * 400 in
  (if m <=? 2 then y + 1 else y, m, d).

(** The day number of a civil date. *)
Definition days_of_civil (y m d : Z) : Z :=
  let y' := if m <=? 2 then y - 1 else y in
  let era := y' / 400 in
  let yoe := y' - era * 400 in
  let doy := (153 * (if 2 <? m then m - 3 else m + 9) + 2) / 5 + d - 1 in
  let doe := yoe * 365 + yoe / 4 - yoe / 100 + doy in
  era * 146097 + doe - 719468.

(** [n] in decimal, padded with zeros to [width] digits. *)
Definition pad (width : nat) (n : Z) : jsstring :=
  let ds := of_Z n in
  repeat 48%N (width - List.length ds) ++ ds.

Definition toISOString (ms : Z) : exn jsstring :=
  if (8640000000000000 <? Z.abs ms) then Throw (u16 "Invalid time value")
  else
    let days := ms / ms_per_day in
    let rest := ms mod ms_per_day in
    let '(y, m, d) := civil_of_days days in
    let year :=
      if (0 <=? y) && (y <=? 9999) then pad 4 y
      else (if y <? 0 then 45%N else 43%N) :: pad 6 (Z.abs y) in
    Return (year ++ u16 "-" ++ pad 2 m ++ u16 "-" ++ pad 2 d ++ u16 "T"
            ++ pad 2 (rest / 3600000) ++ u16 ":"
            ++ pad 2 (rest / 60000 mod 60) ++ u16 ":"
            ++ pad 2 (rest / 1000 mod 60) ++ u16 "."
            ++ pad 3 (rest mod 1000) ++ u16 "Z").

Definition all_digits (s : jsstring) : bool := forallb is_digit s.

(** The time value of [YYYY-MM-DDTHH:mm:ss.sssZ]; the result is kept only
    when [toISOString] prints it back as the same string. *)
Definition time_of_iso (s : jsstring) : option Z :=
  match s with
  | [y1; y2; y3; y4; 45; m1; m2; 45; d1; d2; 84; h1; h2; 58; n1; n2; 58;
     s1; s2; 46; f1; f2; f3; 90]%N =>
      if all_digits [y1; y2; y3; y4; m1; m2; d1; d2; h1; h2; n1; n2; s1; s2; f1; f2; f3]
      then
        let ms :=
          days_of_civil (digits_value [y1; y2; y3; y4]) (digits_value [m1; m2])
                        (digits_value [d1; d2]) * ms_per_day
          + digits_value [h1; h2] * 3600000 + digits_value [n1; n2] * 60000
          + digits_value [s1; s2] * 1000 + digits_value [f1; f2; f3] in
        match toISOString ms with
        | Return s' => if JsString.eqb s s' then Some ms else None
        | Throw _ => None
        end
      else None
  | _ => None
  end.

(** A JSON text written with ['] for the quotation mark. *)
Definition json_text (s : string) : jsstring :=
  map (fun c => if (c =? 39)%N then 34%N else c) (u16 s).

#[global] Instance runtime : JsRuntime :=
  {| JSON_parse := parse;
     JSON_parse_log := fun s => bind (parse s) log_of_json;
     JSON_parse_cron := fun s => bind (parse s) cron_of_json;
     JSON_stringify := stringify;
     JSON_stringify_indent := stringify_indent;
     Date_getTime := time_of_iso;
     Date_toISOString := toISOString |}.

End Mini.

(** ** A test double for the engine *)

Module MiniEngine.

Import Search.

(** An engine over a fixed list of results: every search returns the first
    [limit] of them.  It stands in for the external engine where a handler
    is run on a concrete request. *)
Definition engine (store : list engine_result) : Engine :=
  {| db := unit;
     openDb := fun _ => Return tt;
     initSchema := fun _ => Return tt;
     searchItems := fun _ q lim =>
       Return {| results := Some (firstn (Z.to_nat lim) store); escapedQuery := q |};
     hybridSearch := fun _ _ _ opts => Return (firstn (Z.to_nat (topK opts)) store) |}.

Definition row (i : Z) (t : string) : engine_result :=
  let it := {| item_id := Some (IdNum i);
               item_text := Some (u16 t);
               item_source := None;
               item_title := None;
               item_created_at := None;
               item_tags := None;
               item_source_id := None |} in
  {| r_item := Some it; r_self := it;
     r_score := Some (1 # 2); r_lexicalScore := None; r_semanticScore := None |}.

Definition cfg : config :=
  constructor (u16 "/home/u/.openclaw/memory/offline.sqlite")
    {| opt_dbPath := None; opt_defaultMode := None; opt_defaultTopK := None;
       opt_defaultCandidates := None; opt_semanticWeight := None;
       opt_ollamaBaseUrl := None; opt_embeddingModel := None;
       opt_ollamaTimeoutMs := None |}.

Definition request (q : string) (m : option SearchMode) : SearchRequest :=
  {| query := u16 q; mode := m; limit := None; k := None |}.

End MiniEngine.

(* ================================================================== *)
(** * Part II.  Vocabulary of the properties, and example data         *)
(* ================================================================== *)

Module JsStringSpec.

Definition nonspace (c : N) : bool := negb (is_space c).

(** Every white-space code unit left by the collapsing is U+0020. *)
Definition only_plain_spaces (s : jsstring) : Prop :=
  Forall (fun c => is_space c = true -> c = 32%N) s.

(** No two white-space code units stand next to each other. *)
Fixpoint single_spaced (s : jsstring) : Prop :=
  match s with
  | [] => True
  | x :: r =>
      match r with
      | [] => True
      | y :: _ => is_space x && is_space y = false
      end /\ single_spaced r
  end.

(** The first code unit, if any, is not white space. *)
Definition starts_visible (s : jsstring) : Prop :=
  match s with
  | [] => True
  | x :: _ => is_space x = false
  end.

(** The lines put together again, a line feed between two lines. *)
Fixpoint join_lines (lines : list jsstring) : jsstring :=
  match lines with
  | [] => []
  | [l] => l
  | l :: r => l ++ 10%N :: join_lines r
  end.

(** No code unit of the string satisfies [p]. *)
Definition free_of (p : N -> bool) (s : jsstring) : Prop :=
  forallb (fun c => negb (p c)) s = true.

Definition is_bracket (c : N) : bool := (N.eqb c 91 || N.eqb c 123)%bool.

(** A complete colour sequence: [ESC \[], parameters, [m]. *)
Definition sgr (params : jsstring) : jsstring :=
  27%N :: 91%N :: params ++ [109%N].

(** The single pass that the five replacements of [escapeHtml] amount
    to. *)
Definition escape_unit (c : N) : jsstring :=
  if N.eqb c 38 then u16 "&amp;"
  else if N.eqb c 60 then u16 "&lt;"
  else if N.eqb c 62 then u16 "&gt;"
  else if N.eqb c 34 then u16 "&quot;"
  else if N.eqb c 39 then u16 "&#39;"
  else [c].

(** Reading the five entities back, as the browser does when it parses
    the markup; [fuel] bounds the number of characters produced. *)
Fixpoint unescape_fuel (fuel : nat) (s : jsstring) : jsstring :=
  match fuel with
  | O => s
  | S fuel' =>
      match s with
      | [] => []
      | c :: r =>
          if startsWith (u16 "&amp;") s then 38%N :: unescape_fuel fuel' (skipn 4 r)
          else if startsWith (u16 "&lt;") s then 60%N :: unescape_fuel fuel' (skipn 3 r)
          else if startsWith (u16 "&gt;") s then 62%N :: unescape_fuel fuel' (skipn 3 r)
          else if startsWith (u16 "&quot;") s then 34%N :: unescape_fuel fuel' (skipn 5 r)
          else if startsWith (u16 "&#39;") s then 39%N :: unescape_fuel fuel' (skipn 4 r)
          else c :: unescape_fuel fuel' r
      end
  end.

Definition unescape (s : jsstring) : jsstring :=
  unescape_fuel (List.length s) s.

(** What the three replacements of the timeline page amount to. *)
Definition escape_unit3 (c : N) : jsstring :=
  if N.eqb c 38 then u16 "&amp;"
  else if N.eqb c 60 then u16 "&lt;"
  else if N.eqb c 62 then u16 "&gt;"
  else [c].

Definition is_angle (c : N) : bool := (N.eqb c 60 || N.eqb c 62)%bool.
Definition is_quote (c : N) : bool := (N.eqb c 34 || N.eqb c 39)%bool.

Definition is_markup (c : N) : bool :=
  (N.eqb c 60 || N.eqb c 62 || N.eqb c 34 || N.eqb c 39)%bool.

(** What [data_event_attribute] does to one code unit: the apostrophe is
    escaped twice. *)
Definition attribute_unit (c : N) : jsstring :=
  if N.eqb c 39 then u16 "&amp;#39;"
  else if N.eqb c 38 then u16 "&amp;"
  else if N.eqb c 60 then u16 "&lt;"
  else if N.eqb c 62 then u16 "&gt;"
  else [c].

End JsStringSpec.

Module SearchSpec.

Import Search.

(** The identifiers the engine's results carry, as the adapter prints
    them. *)
Definition engine_ids (rs : list engine_result) : list jsstring :=
  map (fun r => String_id (item_id (row_of r))) rs.

(** The engine never returns two results with the same printed id. *)
Definition engine_ids_distinct (E : Engine) : Prop :=
  (forall d q lim res,
     searchItems E d q lim = Return res ->
     NoDup (engine_ids (nullish (results res) []))) /\
  (forall d c q o rs,
     hybridSearch E d c q o = Return rs -> NoDup (engine_ids rs)).

(** The results the engine gave to one call of [search]: none for a
    blank query, for which the engine is not asked; those of
    [searchItems] in lexical mode; those of [hybridSearch] otherwise. *)
Definition engine_rows (E : Engine) (cfg : config) (req : SearchRequest)
    (rows : list engine_result) : Prop :=
  match trim (query req) with
  | [] => rows = []
  | q =>
      exists d,
        openDb E (dbPath cfg) = Return d /\
        match nullish (mode req) (defaultMode cfg) with
        | lexical =>
            exists res,
              searchItems E d q (nullish (limit req) (defaultTopK cfg))
              = Return res /\
              rows = nullish (results res) []
        | _ =>
            exists esc,
              searchItems E d q 1 = Return esc /\
              hybridSearch E d
                {| mc_dbPath := dbPath cfg;
                   mc_ollamaBaseUrl := ollamaBaseUrl cfg;
                   mc_embeddingModel := embeddingModel cfg;
                   mc_ollamaTimeoutMs := ollamaTimeoutMs cfg |}
                (escapedQuery esc)
                {| topK := nullish (limit req) (defaultTopK cfg);
                   candidates := nullish (k req) (defaultCandidates cfg);
                   o_semanticWeight := semanticWeight cfg |}
              = Return rows
        end
  end.

(** The item is made of this result: it has the result's id, printed,
    and carries the result's id and text in its payload. *)
Definition made_from (it : SearchItem) (r : engine_result) : Prop :=
  id it = String_id (item_id (row_of r)) /\
  memory_id (item_payload it) = item_id (row_of r) /\
  text (item_payload it) = nullish (item_text (row_of r)) [].

Definition two_rows : list engine_result :=
  [MiniEngine.row 1 "offline memory"; MiniEngine.row 2 "session notes"].

Definition two_items : list SearchItem :=
  map hybrid_item two_rows.

End SearchSpec.

Module TasksSpec.

Import Tasks.

(** The kinds [formatSchedule] knows. *)
Definition known_kind (k : option jsstring) : bool :=
  is_lit k "cron" || is_lit k "every" || is_lit k "at".

Definition every_10min : schedule :=
  {| sched_kind := Some (u16 "every"); sched_expr := None;
     sched_everyMs := Some 600000; sched_at := None |}.

Definition cron_half_hour : schedule :=
  {| sched_kind := Some (u16 "cron"); sched_expr := Some (u16 "*/30 * * * *");
     sched_everyMs := None; sched_at := None |}.

Definition at_new_year : schedule :=
  {| sched_kind := Some (u16 "at"); sched_expr := None;
     sched_everyMs := None; sched_at := Some (u16 "2026-01-01T08:00:00Z") |}.

(** [m] is the number of minutes nearest to [ms] milliseconds, a half
    counting upwards. *)
Definition nearest_minute (ms m : Z) : Prop :=
  60000 * m - 30000 <= ms < 60000 * m + 30000.

(** The integers a JavaScript number holds exactly. *)
Definition safe_integer (n : Z) : Prop := Z.abs n <= 2 ^ 53 - 1.

Definition every_ms (ms : Z) : schedule :=
  {| sched_kind := Some (u16 "every"); sched_expr := None;
     sched_everyMs := Some ms; sched_at := None |}.

End TasksSpec.

Module ClassifierSpec.

Import Classifier.

Section Rules.

Context `{JsRuntime}.

(** The line starts with a brace, parses to a log record of type [log],
    and its time is not before the lower bound. *)
Definition passes_gate (sinceTs : option Z) (line : jsstring) (parsed : log_record) : Prop :=
  startsWith (u16 "{") line = true /\
  JSON_parse_log line = Return parsed /\
  log_type parsed = Some (u16 "log") /\
  num_lt (getTime (log_time parsed)) sinceTs = false.

Definition cron_job_line (parsed : log_record) : Prop :=
  log_subsystem parsed = Some (u16 "cron") /\
  log_message parsed = Some (u16 "cron job X ran") /\
  log_level parsed = Some (u16 "info").

(** The guards of the branches tried before the alert branch. *)
Definition earlier_branch (parsed : log_record) : bool :=
  let subsystem := or_else (log_subsystem parsed) [] in
  let message := or_else (log_message parsed) [] in
  (JsString.eqb subsystem (u16 "agent/embedded") && includes (u16 "tool ") message)
  || (JsString.eqb subsystem (u16 "diagnostic") && includes (u16 "session state") message)
  || (JsString.eqb subsystem (u16 "memory") || includes (u16 "memory") message
      || includes (u16 "Memory") message)
  || (JsString.eqb subsystem (u16 "cron") || includes (u16 "cron") message).

Definition warning_line (parsed : log_record) : Prop :=
  log_level parsed = Some (u16 "warn") /\
  includes benign (or_else (log_message parsed) []) = false /\
  earlier_branch parsed = false.

End Rules.

Definition cron_text : jsstring :=
  Mini.json_text
    "{'type':'log','time':'2026-01-01T08:00:00.000Z','subsystem':'cron','message':'cron job X ran','level':'info'}".

Definition cron_rec : log_record :=
  {| log_type := Some (u16 "log");
     log_time := Some (u16 "2026-01-01T08:00:00.000Z");
     log_subsystem := Some (u16 "cron");
     log_message := Some (u16 "cron job X ran");
     log_level := Some (u16 "info") |}.

Definition warn_text : jsstring :=
  Mini.json_text
    "{'type':'log','time':'2026-01-01T08:05:00.000Z','subsystem':'gateway','message':'disk almost full','level':'warn'}".

Definition warn_rec : log_record :=
  {| log_type := Some (u16 "log");
     log_time := Some (u16 "2026-01-01T08:05:00.000Z");
     log_subsystem := Some (u16 "gateway");
     log_message := Some (u16 "disk almost full");
     log_level := Some (u16 "warn") |}.

(** 2026-01-01T00:00:00.000Z *)
Definition new_year_ms : Z := 1767225600000.

End ClassifierSpec.

Module FrontendSpec.

Import Classifier Frontend.

Section Sessions.

Context `{JsRuntime}.


(** The data a fetch of this request produced, if one succeeded. *)
Definition fetched (plugin : exn json) (cli : exec_result) : option json :=
  match plugin with
  | Return data => Some data
  | Throw _ =>
      match cli with
      | ExecFail _ _ => None
      | ExecOk stdout =>
          match JSON_parse (from_first_bracket (strip_ansi stdout)) with
          | Return data => Some data
          | Throw _ => None
          end
      end
  end.

End Sessions.

Definition one_session : json :=
  JArr [JObj [(u16 "key", JStr (u16 "agent:main:main"))]].

(** The [i]-th line of a log of cron ticks. *)
Definition numbered_line (i : nat) : jsstring :=
  Mini.json_text "{'type':'log','time':'t" ++ of_Z (Z.of_nat i)
  ++ Mini.json_text "','subsystem':'cron','message':'tick','level':'info'}".

Definition thirty_one_lines : jsstring :=
  flat_map (fun i => numbered_line i ++ [10%N]) (seq 0 31).

End FrontendSpec.

Module TimelineSpec.

Import Classifier Timeline.

(** *** The map of the merge *)

Definition has_id {D : Type} (k : jsstring) (e : event D) : bool :=
  match id e with
  | Some i => JsString.eqb i k
  | None => false
  end.

(** [eventMap.get(k)] *)
Fixpoint map_get {V : Type} (k : jsstring) (m : list (jsstring * V)) : option V :=
  match m with
  | [] => None
  | (k', v) :: r => if JsString.eqb k' k then Some v else map_get k r
  end.

(** The entry of an array that is merged under the key [k]. *)
Definition merged_as (k : jsstring) (ev : option TimelineEvent) : bool :=
  match ev with
  | Some e => has_id k e
  | None => false
  end.

(** The last entry merged under [k], if any: later entries replace
    earlier ones. *)
Definition last_with_id (k : jsstring) (evs : list (option TimelineEvent))
  : option TimelineEvent :=
  fold_left (fun acc ev => if merged_as k ev then ev else acc) evs None.

(** The keys are distinct and every value sits under its own id. *)
Definition well_keyed (m : list (jsstring * TimelineEvent)) : Prop :=
  NoDup (map fst m) /\ forall k e, In (k, e) m -> id e = Some k.

Definition ev (time summary_text : string) : option TimelineEvent :=
  Some (mk (Some (u16 "2026-01-01T08:00:00.000Z-cron")) (Some (u16 time)) cron
           (u16 summary_text) (u16 "info")).

Definition unwrap (e : option TimelineEvent) : list TimelineEvent :=
  match e with
  | Some x => [x]
  | None => []
  end.

Definition nightly_session : session_entry :=
  {| sessionId := Some (u16 "nightly"); key := None;
     updatedAt := Some 1767254400000;
     displayName := Some (u16 "Nightly session") |}.

Definition nightly_job : job :=
  {| job_id := Some (u16 "nightly"); job_name := Some (u16 "Nightly backup");
     job_enabled := Some true; job_schedule := None; job_nextRunAt := None;
     job_agentId := None; job_owner := None; job_kind := None;
     job_description := None; job_payloadSummary := None;
     job_lastRunAtMs := Some 1767258000000 |}.

Definition nightly_request : request :=
  {| since_param := Some (u16 "2026-01-01T00:00:00.000Z");
     Timeline.limit := Some 100;
     default_since := u16 "2025-12-25T00:00:00.000Z";
     now_iso := fun _ => u16 "2026-01-02T00:00:00.000Z";
     random := fun _ => u16 "0.5";
     sessions_json := Some (SessionsArray [nightly_session]);
     jobs_json := Some (CronObject (Some [nightly_job]));
     backend_events := [] |}.

End TimelineSpec.

Module SnippetSpec.

(** The normal form of a text in the words of the specification: its
    white-space runs collapsed to single spaces, and trimmed.  The words
    of a text are its maximal runs of code units that are not white
    space; the normal form is the words joined by one U+0020 each. *)

(** The text is empty or starts with white space: a word ends before
    it. *)
Definition word_ends (s : jsstring) : bool :=
  match s with
  | [] => true
  | d :: _ => is_space d
  end.

Fixpoint words (s : jsstring) : list jsstring :=
  match s with
  | [] => []
  | c :: r =>
      if is_space c then words r
      else if word_ends r then [c] :: words r
      else match words r with
           | w :: ws => (c :: w) :: ws
           | [] => [[c]]
           end
  end.

Fixpoint join_words (ws : list jsstring) : jsstring :=
  match ws with
  | [] => []
  | [w] => w
  | w :: rest => w ++ 32%N :: join_words rest
  end.

Definition normal_form (text : jsstring) : jsstring := join_words (words text).

(** The last code unit, if any, is not white space. *)
Definition ends_visible (s : jsstring) : Prop := is_space (last s 0%N) = false.

End SnippetSpec.

Module OrderSpec.

(** Every element is followed only by elements whose key is not
    larger. *)
Fixpoint descending {A : Type} (key : A -> Z) (l : list A) : Prop :=
  match l with
  | [] => True
  | x :: r => Forall (fun y => key y <= key x) r /\ descending key r
  end.

End OrderSpec.

Module SearchMoreSpec.

Import Search.

(** An engine whose store cannot be opened. *)
Definition locked_engine : Engine :=
  {| db := unit;
     openDb := fun _ => Throw (u16 "unable to open database file");
     initSchema := fun _ => Return tt;
     searchItems := fun _ q _ => Return {| results := None; escapedQuery := q |};
     hybridSearch := fun _ _ _ _ => Return [] |}.

(** What every item of a response satisfies. *)
Definition well_formed_item (it : SearchItem) : Prop :=
  kind it = u16 "memory" /\
  id it = String_id (memory_id (item_payload it)) /\
  snippet it = buildSnippet (text (item_payload it)) /\
  (List.length (snippet it) <= 221)%nat /\
  source it <> None.

(** Lower case of the unaccented Latin letters, used where an example
    needs a [toLowerCase]. *)
Definition ascii_lower (s : jsstring) : jsstring :=
  map (fun c => if ((65 <=? c) && (c <=? 90))%N then (c + 32)%N else c) s.

Definition note (i t s : string) : SearchItem :=
  {| id := u16 i; kind := u16 "memory"; source := None; title := Some (u16 t);
     snippet := u16 s; score := 0%Q; score_fts := None; score_embed := None;
     created_at := None;
     item_payload := {| memory_id := None; text := u16 s; tags := None;
                        p_source := None; source_id := None |} |}.

Definition notes : list SearchItem :=
  [note "a" "Cron" "nightly backup";
   note "b" "Backup" "backup of the backup store";
   note "c" "Mail" "inbox zero"].

(** The integer value of a score. *)
Definition score_key (it : SearchItem) : Z := Qnum (score it).

End SearchMoreSpec.

Module ActivitySpec.

Import ActivityBackend Classifier Timeline.

(** The lower bound and the limit a call of [listActivity] works with. *)
Definition since_of (p : option params) : jsstring :=
  match p with
  | Some q => or_else (ActivityBackend.since q) []
  | None => []
  end.

Definition limit_of (p : option params) : Z :=
  nullish (match p with Some q => ActivityBackend.limit q | None => None end) 20.

(** Where an event of the feed comes from. *)
Definition from_session (e : FeedEvent) : bool :=
  match details e with Some (OfSession _) => true | _ => false end.

Definition from_task (e : FeedEvent) : bool :=
  match details e with Some (OfTask _) => true | _ => false end.

Definition from_activity (e : FeedEvent) : bool :=
  match details e with Some (OfActivity _) => true | _ => false end.

(** The job has run. *)
Definition has_run (t : job) : bool :=
  match nonzero (job_lastRunAtMs t) with Some _ => true | None => false end.

(** The time an event sorts by, when its [ts] is a date. *)
Definition time_key `{JsRuntime} {D : Type} (e : event D) : Z :=
  match getTime (ts e) with
  | Some t => t
  | None => 0
  end.

Definition dated `{JsRuntime} {D : Type} (e : event D) : Prop :=
  getTime (ts e) <> None.

Definition dated_entry `{JsRuntime} (ev : option TimelineEvent) : Prop :=
  match ev with
  | Some e => dated e
  | None => True
  end.

(** A request over two sessions, one of them never updated, two jobs,
    one of them never run, and two events of the activity backend, the
    older one before [since]. *)
Definition idle_session : session_entry :=
  {| sessionId := None; key := Some (u16 "agent:main:idle");
     updatedAt := None; displayName := None |}.

Definition idle_job : job :=
  {| job_id := Some (u16 "weekly"); job_name := None;
     job_enabled := Some true; job_schedule := None; job_nextRunAt := None;
     job_agentId := None; job_owner := None; job_kind := None;
     job_description := None; job_payloadSummary := None;
     job_lastRunAtMs := None |}.

Definition recall (i time : string) : ActivityBackend.ActivityEvent :=
  {| ActivityBackend.id := u16 i; ActivityBackend.ts := u16 time;
     ActivityBackend.kind := ActivityBackend.tool;
     ActivityBackend.sessionKey := None; ActivityBackend.agentId := None;
     ActivityBackend.channel := None;
     ActivityBackend.summary := u16 "Tool memory_recall used" |}.

Definition busy_request : request :=
  {| since_param := None;
     Timeline.limit := Some 100;
     default_since := u16 "2026-01-01T00:00:00.000Z";
     now_iso := fun _ => u16 "2026-01-02T00:00:00.000Z";
     random := fun _ => u16 "0.5";
     sessions_json :=
       Some (SessionsObject (Some [TimelineSpec.nightly_session; idle_session]));
     jobs_json := Some (CronObject (Some [TimelineSpec.nightly_job; idle_job]));
     backend_events := [recall "e2" "2026-01-01T12:00:00.000Z";
                        recall "e1" "2025-12-31T12:00:00.000Z"] |}.

(** What is collected for that request. *)
Definition busy_events : list FeedEvent :=
  Eval vm_compute in
    match collect busy_request with
    | Return events => events
    | Throw _ => []
    end.

(** An entry of the page's cache. *)
Definition stamped (i time : string) : option TimelineEvent :=
  Some (mk (Some (u16 i)) (Some (u16 time)) cron (u16 "Cron job ran") (u16 "info")).

End ActivitySpec.

Module HandlersSpec.

Import Tasks Frontend.

(** The schedules on which the two formatters of frontend.ts can be
    compared: a [cron] schedule with an expression, an [every] schedule
    that does not round to zero minutes, an [at] schedule with a time, and
    every schedule of another kind or none. *)
Definition regular (s : option schedule) : bool :=
  match s with
  | None => true
  | Some sc =>
      if is_lit (sched_kind sc) "cron" then JsString.truthy (sched_expr sc)
      else if is_lit (sched_kind sc) "every" then
        negb (round_minutes (nullish (sched_everyMs sc) 0) =? 0)
      else if is_lit (sched_kind sc) "at" then JsString.truthy (sched_at sc)
      else true
  end.

(** What the handler of [/activity] takes from the companion service. *)
Definition data_of (plugin : exn json) : json :=
  match plugin with
  | Return d => d
  | Throw _ => JNull
  end.

Definition is_string (x : json) : bool :=
  match x with
  | JStr _ => true
  | _ => false
  end.

(** A request to [/sessions]: what the companion service and the CLI
    would answer, and the time. *)
Record sessions_request : Type := {
  rq_plugin : exn json;
  rq_cli : exec_result;
  rq_now : Z
}.

(** The requests served one after the other, each with the cache the
    previous one left. *)
Fixpoint serve `{JsRuntime} (reqs : list sessions_request) (c : session_cache)
  : list sessions_result :=
  match reqs with
  | [] => []
  | rq :: rest =>
      let r := sessions_handler (rq_plugin rq) (rq_cli rq) (rq_now rq) c in
      r :: serve rest (sessions_cache r)
  end.

(** Three requests within a quarter of an hour of the first day of 2026,
    while the companion service is down. *)
Definition at_minute (m : Z) : sessions_request :=
  {| rq_plugin := Throw (u16 "plugin 503");
     rq_cli := ExecFail (u16 "spawn openclaw ENOENT") None;
     rq_now := 1767225600000 + m * 60000 |}.

Definition quarter_hour : list sessions_request :=
  [at_minute 1; at_minute 7; at_minute 14].

End HandlersSpec.

Module ClassifierMoreSpec.

Import Classifier.

(** What the classifiers put into an event: a level, a kind of the
    timeline, a summary cut at [cron_cap] code units for a cron event and
    at [text_cap] for a memory event or an alert; an alert has level
    [warn] or [error]; the summary of a tool event is a start or an end
    mark, a space and the name of the tool, a word. *)
Definition shaped (cron_cap text_cap : nat) (e : TimelineEvent) : Prop :=
  level e <> None /\
  kind e <> message /\
  (kind e = cron -> (List.length (summary e) <= cron_cap)%nat) /\
  (kind e = memory \/ kind e = alert -> (List.length (summary e) <= text_cap)%nat) /\
  (kind e = alert ->
   level e = Some (u16 "warn") \/ level e = Some (u16 "error")) /\
  (kind e = tool ->
   exists name,
     name <> [] /\ forallb is_word name = true /\
     (summary e = 9654%N :: 32%N :: name \/ summary e = 10003%N :: 32%N :: name)).

(** The id is the time of the line, a hyphen and a non-empty suffix. *)
Definition identified (e : TimelineEvent) : Prop :=
  exists suffix,
    suffix <> [] /\ id e = Some (Tasks.interpolate (ts e) ++ 45%N :: suffix).

(** A warning with the message of a version mismatch. *)
Definition benign_text : jsstring :=
  Mini.json_text
    "{'type':'log','time':'2026-01-01T08:05:00.000Z','subsystem':'gateway','message':'Config was last written by a newer OpenClaw (2.1.0)','level':'warn'}".

Definition benign_rec : log_record :=
  {| log_type := Some (u16 "log");
     log_time := Some (u16 "2026-01-01T08:05:00.000Z");
     log_subsystem := Some (u16 "gateway");
     log_message := Some (u16 "Config was last written by a newer OpenClaw (2.1.0)");
     log_level := Some (u16 "warn") |}.

(** The output of the CLI for a cron tick and a later warning. *)
Definition two_log_lines : jsstring :=
  ClassifierSpec.cron_text ++ 10%N :: ClassifierSpec.warn_text.

End ClassifierMoreSpec.

Module GraphSpec.

Import Graph.

Definition ids (ns : list node) : list jsstring := map node_id ns.

(** A graph the page can draw: the nodes have distinct ids and their id
    as label, every node is an end of some edge and both ends of every
    edge are nodes. *)
Definition closed (ns : list node) (es : list edge) : Prop :=
  NoDup (ids ns) /\
  Forall (fun n => label n = node_id n /\
                   exists e, In e es /\ (from e = node_id n \/ to e = node_id n))
         ns /\
  Forall (fun e => In (from e) (ids ns) /\ In (to e) (ids ns)) es.

(** What an answer of [/graph-data] satisfies: its graph is closed; when
    it carries an error the graph is empty; when it carries none, its
    edges are, with an entity, all the edges of the entity's graph, and
    without one, the facts whose confidence is not below [minConf]. *)
Definition sound_answer (db : GraphDb) (limit : option Z) (minConf : option Q)
    (entity : option jsstring) (a : graph_answer) : Prop :=
  closed (nodes a) (edges a) /\
  (forall e, error a = Some e -> nodes a = [] /\ edges a = [] /\ stats a = JObj []) /\
  (error a = None ->
   match entity with
   | Some (c :: r) =>
       exists facts,
         getEntityGraph db (c :: r) = Return facts /\
         edges a = map edge_of facts
   | _ =>
       exists facts,
         getAllFacts db limit = Return facts /\
         edges a = map edge_of (filter (fun f => negb (below minConf f)) facts) /\
         forall m, minConf = Some m ->
                   Forall (fun e => (m <= edge_confidence e)%Q) (edges a)
   end).

(** The query the handler makes once the store is open: the graph of
    the entity when one is given, all the facts otherwise. *)
Definition facts_query (db : GraphDb) (limit : option Z)
    (entity : option jsstring) : exn (list fact) :=
  match entity with
  | Some (c :: r) => getEntityGraph db (c :: r)
  | _ => getAllFacts db limit
  end.

(** The answer given when a call throws. *)
Definition failed_answer (message : jsstring) : graph_answer :=
  {| nodes := []; edges := []; stats := JObj []; error := Some message |}.

(** A store of three facts about two people and a town. *)
Definition said (s p o : string) (c : Q) : fact :=
  {| subject := u16 s; predicate := u16 p; object := u16 o; confidence := c |}.

Definition three_facts : list fact :=
  [said "Ada" "knows" "Bob" (9 # 10);
   said "Bob" "lives in" "Lyon" (3 # 10);
   said "Ada" "lives in" "Lyon" (8 # 10)].

Definition small_db : GraphDb :=
  {| open := Return tt;
     getEntityGraph := fun name =>
       Return (filter (fun f => JsString.eqb (subject f) name
                                || JsString.eqb (object f) name) three_facts);
     getAllFacts := fun limit =>
       Return (match limit with
               | Some n => firstn (Z.to_nat n) three_facts
               | None => three_facts
               end);
     getGraphStats := Return (JObj [(u16 "totalFacts", JNum 3)]) |}.

End GraphSpec.

(* ================================================================== *)
(** * Part III.  Lemmas and theorems                                   *)
(* ================================================================== *)

(** ** Strings *)

Module JsStringFacts.

Import JsStringSpec.

Lemma dropWhile_length (p : N -> bool) (s : jsstring) :
  (List.length (dropWhile p s) <= List.length s)%nat.
Proof.
  induction s as [|c r IH]; simpl; [lia|].
  destruct (p c); simpl; lia.
Qed.

Lemma trim_length (s : jsstring) : (List.length (trim s) <= List.length s)%nat.
Proof.
  unfold trim, trimEnd, trimStart.
  rewrite length_rev.
  etransitivity; [apply dropWhile_length|].
  rewrite length_rev. apply dropWhile_length.
Qed.

Lemma replace_ws_length (b : bool) (s : jsstring) :
  (List.length (replace_ws b s) <= List.length s)%nat.
Proof.
  revert b. induction s as [|c r IH]; intro b; simpl; [lia|].
  destruct (is_space c).
  - destruct b; simpl; specialize (IH true); lia.
  - simpl. specialize (IH false). lia.
Qed.

Lemma dropWhile_space_filter (s : jsstring) :
  filter nonspace (dropWhile is_space s) = filter nonspace s.
Proof.
  induction s as [|c r IH]; simpl; [reflexivity|].
  unfold nonspace at 2. destruct (is_space c) eqn:Hc; simpl; [exact IH|].
  unfold nonspace at 1. rewrite Hc. reflexivity.
Qed.

Lemma filter_rev {A : Type} (p : A -> bool) (l : list A) :
  filter p (rev l) = rev (filter p l).
Proof.
  induction l as [|a l IH]; simpl; [reflexivity|].
  rewrite filter_app, IH. simpl.
  destruct (p a); simpl; [reflexivity|]. now rewrite app_nil_r.
Qed.

Lemma trim_filter (s : jsstring) : filter nonspace (trim s) = filter nonspace s.
Proof.
  unfold trim, trimEnd, trimStart.
  rewrite filter_rev, dropWhile_space_filter, filter_rev, rev_involutive.
  apply dropWhile_space_filter.
Qed.

Lemma replace_ws_filter (b : bool) (s : jsstring) :
  filter nonspace (replace_ws b s) = filter nonspace s.
Proof.
  revert b. induction s as [|c r IH]; intro b; simpl; [reflexivity|].
  unfold nonspace at 2. destruct (is_space c) eqn:Hc; simpl.
  - destruct b; simpl; apply IH.
  - unfold nonspace at 1. rewrite Hc. simpl. now rewrite IH.
Qed.

Lemma replace_ws_plain (b : bool) (s : jsstring) :
  only_plain_spaces (replace_ws b s).
Proof.
  revert b. induction s as [|c r IH]; intro b; simpl; [constructor|].
  destruct (is_space c) eqn:Hc.
  - destruct b; [apply IH|]. constructor; [reflexivity | apply IH].
  - constructor; [congruence | apply IH].
Qed.

Lemma dropWhile_Forall (P : N -> Prop) (p : N -> bool) (s : jsstring) :
  Forall P s -> Forall P (dropWhile p s).
Proof.
  induction 1 as [|c r Hc Hr IH]; simpl; [constructor|].
  destruct (p c); [exact IH | now constructor].
Qed.

Lemma trim_plain (s : jsstring) : only_plain_spaces s -> only_plain_spaces (trim s).
Proof.
  unfold only_plain_spaces, trim, trimEnd, trimStart. intro H.
  apply Forall_rev, dropWhile_Forall, Forall_rev, dropWhile_Forall, H.
Qed.

Lemma dropWhile_all (p : N -> bool) (s : jsstring) :
  forallb p s = true -> dropWhile p s = [].
Proof.
  induction s as [|c r IH]; simpl; [reflexivity|].
  destruct (p c); simpl; [exact IH | discriminate].
Qed.

Lemma trim_blank (s : jsstring) : forallb is_space s = true -> trim s = [].
Proof.
  intro H. unfold trim, trimStart. now rewrite (dropWhile_all _ _ H).
Qed.

(** The helpers on concrete strings. *)
Example strip_ansi_value :
  strip_ansi ([27; 91; 51; 50; 109] ++ u16 "ok" ++ [27; 91; 48; 109] ++ u16 " [1;2")%N
  = u16 "ok [1;2".
Proof. reflexivity. Qed.

Example split_lines_value :
  split_lines (u16 "a" ++ [10; 10] ++ u16 "b")%N = [u16 "a"; []; u16 "b"] /\
  split_lines [] = [[]].
Proof. split; reflexivity. Qed.

Example from_first_bracket_value :
  from_first_bracket (u16 "warn: x [1]") = u16 "[1]" /\
  from_first_bracket (u16 "no json") = u16 "no json".
Proof. split; reflexivity. Qed.

Example geb_value :
  geb (u16 "2026-01-02") (u16 "2026-01-01") = true /\
  geb (u16 "2026-01") (u16 "2026-01-01") = false /\
  geb (u16 "2026-01-01") (u16 "2026-01-01") = true.
Proof. repeat split. Qed.

End JsStringFacts.

(** ** The search backend adapter *)

Module SearchFacts.

Import Search JsStringSpec SearchSpec JsStringFacts.

Lemma buildSnippet_short (text : jsstring) :
  (List.length (trim (replace_ws false text)) <= 220)%nat ->
  buildSnippet text = trim (replace_ws false text).
Proof.
  intro H. unfold buildSnippet, buildSnippet_len.
  apply Nat.leb_le in H. now rewrite H.
Qed.

Lemma buildSnippet_long (text : jsstring) :
  (220 < List.length (trim (replace_ws false text)))%nat ->
  buildSnippet text = firstn 220 (trim (replace_ws false text)) ++ [ellipsis].
Proof.
  intro H. unfold buildSnippet, buildSnippet_len, slice0.
  apply Nat.leb_gt in H. now rewrite H.
Qed.

(** White-space runs collapse and the ends are trimmed; a long text is
    cut at 220 code units and marked. *)
Example buildSnippet_values :
  buildSnippet ([32; 9] ++ u16 "offline" ++ [10; 13; 32] ++ u16 "memory" ++ [160])%N
  = u16 "offline memory" /\
  buildSnippet (repeat 97%N 300) = repeat 97%N 220 ++ [ellipsis] /\
  buildSnippet (repeat 97%N 220) = repeat 97%N 220.
Proof. vm_compute. repeat split. Qed.

Lemma bind_Return {A B : Type} (m : M A) (f : A -> M B) (t : list call) (b : B) :
  bind m f = (t, Return b) ->
  exists t1 a t2, m = (t1, Return a) /\ f a = (t2, Return b) /\ t = t1 ++ t2.
Proof.
  destruct m as [t1 [a|e]]; simpl; [|discriminate].
  destruct (f a) as [t2 r] eqn:Hf. intro H. inversion H; subst.
  now exists t1, a, t2.
Qed.

(** C3.  A query that is empty or consists of white space only is answered
    with the empty list, and no call to the engine is recorded: [openDb],
    [initSchema], [searchItems] and [hybridSearch] are never reached. *)
Theorem search_blank_query_short_circuits
    (E : Engine) (cfg : config) (req : SearchRequest) :
  forallb is_space (query req) = true ->
  search E cfg req = ([], Return []).
Proof.
  intro H. unfold search. now rewrite (trim_blank _ H).
Qed.

Lemma search_blank_query_short_circuits_witness :
  forallb is_space (query (MiniEngine.request "  " (Some lexical))) = true /\
  search (MiniEngine.engine [MiniEngine.row 1 "offline memory"]) MiniEngine.cfg
         (MiniEngine.request "  " (Some lexical)) = ([], Return []).
Proof.
  split; [reflexivity|].
  apply (search_blank_query_short_circuits
           (MiniEngine.engine [MiniEngine.row 1 "offline memory"]) MiniEngine.cfg
           (MiniEngine.request "  " (Some lexical))).
  reflexivity.
Defined.

(** A query with a visible character does reach the engine. *)
Example search_nonblank_query_calls_engine :
  fst (search (MiniEngine.engine [MiniEngine.row 1 "offline memory"]) MiniEngine.cfg
              (MiniEngine.request " memory " (Some lexical)))
  = [CallOpenDb (dbPath MiniEngine.cfg); CallInitSchema;
     CallSearchItems (u16 "memory") 20].
Proof. reflexivity. Qed.

Lemma lexical_ids (rs : list engine_result) :
  map id (map lexical_item rs) = engine_ids rs.
Proof. unfold engine_ids. rewrite map_map. reflexivity. Qed.

Lemma hybrid_ids (rs : list engine_result) :
  map id (map hybrid_item rs) = engine_ids rs.
Proof. unfold engine_ids. rewrite map_map. reflexivity. Qed.

Lemma invoke_Return {A : Type} (c : call) (r : exn A) (t : list call) (a : A) :
  invoke c r = (t, Return a) -> r = Return a.
Proof. unfold invoke. intro H. now inversion H. Qed.

Lemma ret_Return {A : Type} (a b : A) (t : list call) :
  ret a = (t, Return b) -> a = b.
Proof. unfold ret. intro H. now inversion H. Qed.

Lemma made_from_rows (f : engine_result -> SearchItem) (rows : list engine_result) :
  (forall r, made_from (f r) r) -> Forall2 made_from (map f rows) rows.
Proof.
  intro Hf. induction rows as [|r t IH]; simpl; constructor; [apply Hf | exact IH].
Qed.

Lemma made_from_ids (items : list SearchItem) (rows : list engine_result) :
  Forall2 made_from items rows ->
  map id items = engine_ids rows /\ List.length items = List.length rows.
Proof.
  induction 1 as [|it r items rows [Hid _] _ [IH1 IH2]]; [now split|].
  simpl. now rewrite Hid, IH1, IH2.
Qed.

(** C6 (as amended).  The adapter neither adds, drops nor merges results:
    the items of a response stand one for one, in order, for the results
    the engine gave to this call, each item with the printed id and the
    payload of its result; so the response has as many items as the engine
    gave results, and its ids are the printed ids of these results.  The
    ids of a response are therefore pairwise distinct exactly when the
    printed ids of the engine's results are, in the lexical and in the
    hybrid mode alike. *)
Theorem search_ids_distinct_if_engine_ids_distinct
    (E : Engine) (cfg : config) (req : SearchRequest)
    (trace : list call) (items : list SearchItem) :
  search E cfg req = (trace, Return items) ->
  (exists rows,
     engine_rows E cfg req rows /\
     Forall2 made_from items rows /\
     List.length items = List.length rows /\
     map id items = engine_ids rows /\
     (NoDup (map id items) <-> NoDup (engine_ids rows))) /\
  (engine_ids_distinct E -> NoDup (map id items)).
Proof.
  intro H.
  assert (Hrows : exists rows,
            engine_rows E cfg req rows /\ Forall2 made_from items rows).
  { unfold search in H. unfold engine_rows.
    destruct (trim (query req)) as [|c q] eqn:Hq.
    - apply ret_Return in H. subst. exists []. split; [reflexivity | constructor].
    - apply bind_Return in H. destruct H as (t1 & d & t2 & Ho & H & _).
      apply invoke_Return in Ho.
      apply bind_Return in H. destruct H as (t3 & u & t4 & _ & H & _).
      assert (Hh : forall t,
                searchHybrid E cfg d (c :: q) (nullish (limit req) (defaultTopK cfg))
                  (nullish (k req) (defaultCandidates cfg)) = (t, Return items) ->
                exists rows,
                  (exists d0,
                     openDb E (dbPath cfg) = Return d0 /\
                     exists esc,
                       searchItems E d0 (c :: q) 1 = Return esc /\
                       hybridSearch E d0
                         {| mc_dbPath := dbPath cfg;
                            mc_ollamaBaseUrl := ollamaBaseUrl cfg;
                            mc_embeddingModel := embeddingModel cfg;
                            mc_ollamaTimeoutMs := ollamaTimeoutMs cfg |}
                         (escapedQuery esc)
                         {| topK := nullish (limit req) (defaultTopK cfg);
                            candidates := nullish (k req) (defaultCandidates cfg);
                            o_semanticWeight := semanticWeight cfg |}
                       = Return rows) /\
                  Forall2 made_from items rows).
      { intros t Hs. unfold searchHybrid in Hs.
        apply bind_Return in Hs. destruct Hs as (ta & esc & tb & He & Hs & _).
        apply invoke_Return in He.
        apply bind_Return in Hs. destruct Hs as (tc & rs & td & Hi & Hr & _).
        apply invoke_Return in Hi. apply ret_Return in Hr. subst items.
        exists rs. split.
        - exists d. split; [exact Ho|]. exists esc. split; [exact He | exact Hi].
        - apply made_from_rows. intro r. now repeat split. }
      destruct (nullish (mode req) (defaultMode cfg));
        [|exact (Hh _ H)|exact (Hh _ H)].
      unfold searchLexical in H.
      apply bind_Return in H. destruct H as (ta & res & tb & Hi & Hr & _).
      apply invoke_Return in Hi. apply ret_Return in Hr. subst items.
      exists (nullish (results res) []). split.
      + exists d. split; [exact Ho|]. exists res. split; [exact Hi | reflexivity].
      + apply made_from_rows. intro r. now repeat split. }
  destruct Hrows as (rows & Hr & Hm).
  destruct (made_from_ids Hm) as [Hids Hlen].
  split.
  - exists rows. repeat split; try assumption; now rewrite Hids.
  - intros [Hlex Hhyb]. rewrite Hids. unfold engine_rows in Hr.
    destruct (trim (query req)) as [|c q]; [subst rows; constructor|].
    destruct Hr as (d & _ & Hr).
    destruct (nullish (mode req) (defaultMode cfg)).
    + destruct Hr as (res & Hs & ->). eapply Hlex, Hs.
    + destruct Hr as (esc & _ & Hs). eapply Hhyb, Hs.
    + destruct Hr as (esc & _ & Hs). eapply Hhyb, Hs.
Qed.

Lemma NoDup_firstn {A : Type} (n : nat) (l : list A) :
  NoDup l -> NoDup (firstn n l).
Proof.
  intro H. rewrite <- (firstn_skipn n l) in H.
  eapply NoDup_app_remove_r, H.
Qed.

Lemma mini_engine_ids_distinct (store : list engine_result) :
  NoDup (engine_ids store) -> engine_ids_distinct (MiniEngine.engine store).
Proof.
  intro H. split; simpl.
  - intros _ q lim res E. inversion E; subst; simpl.
    unfold engine_ids. rewrite <- firstn_map. now apply NoDup_firstn.
  - intros _ _ _ o rs E. inversion E; subst.
    unfold engine_ids. rewrite <- firstn_map. now apply NoDup_firstn.
Qed.

Lemma search_ids_distinct_if_engine_ids_distinct_witness :
  search (MiniEngine.engine two_rows) MiniEngine.cfg (MiniEngine.request "memory" None)
  = ([CallOpenDb (dbPath MiniEngine.cfg); CallInitSchema;
      CallSearchItems (u16 "memory") 1;
      CallHybridSearch (u16 "memory")
        {| topK := 20; candidates := 80; o_semanticWeight := 7 # 10 |}],
     Return two_items) /\
  engine_ids_distinct (MiniEngine.engine two_rows) /\
  NoDup (map id two_items) /\
  exists rows,
    engine_rows (MiniEngine.engine two_rows) MiniEngine.cfg
      (MiniEngine.request "memory" None) rows /\
    List.length two_items = List.length rows.
Proof.
  assert (D : engine_ids_distinct (MiniEngine.engine two_rows)).
  { apply mini_engine_ids_distinct.
    repeat constructor; simpl; intuition discriminate. }
  destruct (@search_ids_distinct_if_engine_ids_distinct
              (MiniEngine.engine two_rows) MiniEngine.cfg
              (MiniEngine.request "memory" None) _ two_items eq_refl)
    as [(rows & Hr & _ & Hl & _) Hn].
  split; [reflexivity|]. split; [exact D|]. split; [exact (Hn D)|].
  exists rows. split; [exact Hr | exact Hl].
Defined.

(** C6 (as stated) fails: an engine that returns the same row twice makes
    the adapter return two items with the same id, in either mode. *)
Lemma search_ids_not_distinct_counterexample :
  let twice := [MiniEngine.row 7 "offline memory"; MiniEngine.row 7 "offline memory"] in
  map id (map lexical_item twice) = [u16 "7"; u16 "7"] /\
  snd (search (MiniEngine.engine twice) MiniEngine.cfg
              (MiniEngine.request "memory" (Some lexical)))
  = Return (map lexical_item twice) /\
  snd (search (MiniEngine.engine twice) MiniEngine.cfg
              (MiniEngine.request "memory" (Some hybrid)))
  = Return (map hybrid_item twice) /\
  map id (map hybrid_item twice) = [u16 "7"; u16 "7"].
Proof. repeat split. Qed.

End SearchFacts.

(** ** Schedule formatting *)

Module TasksFacts.

Import Tasks TasksSpec.

Lemma round_minutes_nearest (ms m : Z) :
  nearest_minute ms m -> round_minutes ms = m.
Proof.
  unfold nearest_minute, round_minutes. intro H.
  symmetry. apply Z.div_unique with (r := 2 * ms + 60000 - 120000 * m);
    [left; lia | lia].
Qed.

(** C8.  [formatSchedule] prints a schedule of kind [every] as [every]
    followed by the number of minutes nearest to its milliseconds (a half
    counting upwards) and [min]: [every 10min] for 600000, [every 2min]
    for 90000, [every 1min] for 89999; when that number is zero it prints
    [every].  It prints a schedule of kind [cron] as its raw expression,
    [*/30 * * * *] for the one of the claim, a schedule of kind [at] as
    [once at] and its time, and a missing schedule or a schedule whose
    kind is missing or is none of the three as [unknown].  The schedule
    expression of the CLI fallback of [/tasks] gives the same texts in
    these cases, except that it prints zero minutes as [every 0min].  The
    milliseconds are an integer that a number holds exactly. *)
Theorem formatSchedule_examples (s : schedule) (ms m : Z) :
  safe_integer ms ->
  nearest_minute ms m ->
  (sched_kind s = Some (u16 "every") -> sched_everyMs s = Some ms ->
   formatSchedule (Some s)
   = (if m =? 0 then u16 "every" else u16 "every " ++ of_Z m ++ u16 "min") /\
   cli_schedule (Some s) = Some (u16 "every " ++ of_Z m ++ u16 "min")) /\
  (forall expr,
     sched_kind s = Some (u16 "cron") -> sched_expr s = Some expr -> expr <> [] ->
     formatSchedule (Some s) = expr /\ cli_schedule (Some s) = Some expr) /\
  (forall time,
     sched_kind s = Some (u16 "at") -> sched_at s = Some time -> time <> [] ->
     formatSchedule (Some s) = u16 "once at " ++ time /\
     cli_schedule (Some s) = Some (u16 "once at " ++ time)) /\
  (known_kind (sched_kind s) = false ->
   formatSchedule (Some s) = u16 "unknown" /\
   cli_schedule (Some s) = Some (u16 "unknown")) /\
  formatSchedule None = u16 "unknown" /\
  cli_schedule None = Some (u16 "unknown") /\
  formatSchedule (Some every_10min) = u16 "every 10min" /\
  formatSchedule (Some cron_half_hour) = u16 "*/30 * * * *" /\
  formatSchedule (Some at_new_year) = u16 "once at 2026-01-01T08:00:00Z" /\
  cli_schedule (Some every_10min) = Some (u16 "every 10min") /\
  cli_schedule (Some cron_half_hour) = Some (u16 "*/30 * * * *") /\
  cli_schedule (Some at_new_year) = Some (u16 "once at 2026-01-01T08:00:00Z").
Proof.
  intros _ Hm.
  repeat match goal with |- _ /\ _ => split end; try reflexivity.
  - intros Hk He. unfold formatSchedule, cli_schedule.
    rewrite Hk, He. cbn [is_lit nullish].
    change (JsString.eqb (u16 "every") (u16 "cron")) with false.
    change (JsString.eqb (u16 "every") (u16 "every")) with true.
    cbn iota. rewrite (round_minutes_nearest Hm). now split.
  - intros expr Hk He Hne. unfold formatSchedule, cli_schedule.
    rewrite Hk, He. cbn [is_lit].
    change (JsString.eqb (u16 "cron") (u16 "cron")) with true. cbn iota.
    destruct expr; [contradiction | now split].
  - intros time Hk He Hne. unfold formatSchedule, cli_schedule.
    rewrite Hk, He. cbn [is_lit].
    change (JsString.eqb (u16 "at") (u16 "cron")) with false.
    change (JsString.eqb (u16 "at") (u16 "every")) with false.
    change (JsString.eqb (u16 "at") (u16 "at")) with true. cbn iota.
    destruct time; [contradiction | now split].
  - intro Hk. unfold known_kind in Hk.
    apply orb_false_elim in Hk. destruct Hk as [Hk Hat].
    apply orb_false_elim in Hk. destruct Hk as [Hcron Hevery].
    unfold formatSchedule, cli_schedule. rewrite Hcron, Hevery, Hat. now split.
Qed.

(** A minute and a half counts as two minutes, a millisecond less as
    one; half a minute less one millisecond counts as none. *)
Lemma formatSchedule_examples_witness :
  safe_integer 90000 /\ nearest_minute 90000 2 /\
  formatSchedule (Some (every_ms 90000)) = u16 "every 2min" /\
  cli_schedule (Some (every_ms 90000)) = Some (u16 "every 2min").
Proof.
  assert (Hs : safe_integer 90000) by (unfold safe_integer; simpl; lia).
  assert (Hm : nearest_minute 90000 2) by (unfold nearest_minute; lia).
  split; [exact Hs|]. split; [exact Hm|].
  exact (proj1 (@formatSchedule_examples (every_ms 90000) 90000 2 Hs Hm)
           eq_refl eq_refl).
Defined.

Example formatSchedule_rounding :
  formatSchedule (Some (every_ms 89999)) = u16 "every 1min" /\
  formatSchedule (Some (every_ms 29999)) = u16 "every" /\
  cli_schedule (Some (every_ms 29999)) = Some (u16 "every 0min") /\
  formatSchedule (Some (every_ms 30000)) = u16 "every 1min".
Proof. repeat split. Qed.

(** Minutes are rounded to the nearest, halves upwards. *)
Example round_minutes_values :
  round_minutes 600000 = 10 /\ round_minutes 89999 = 1 /\
  round_minutes 90000 = 2 /\ round_minutes 29999 = 0.
Proof. repeat split. Qed.

End TasksFacts.

(** ** The log-line classifiers *)

Module ClassifierFacts.

Import Classifier ClassifierSpec.

Lemma eqb_refl (s : jsstring) : JsString.eqb s s = true.
Proof.
  induction s as [|c r IH]; simpl; [reflexivity|].
  now rewrite N.eqb_refl, IH.
Qed.

Lemma eqb_eq (a b : jsstring) : JsString.eqb a b = true <-> a = b.
Proof.
  split.
  - revert b. induction a as [|x a IH]; intros [|y b]; simpl; try discriminate.
    + reflexivity.
    + intro E. apply andb_prop in E. destruct E as [E1 E2].
      apply N.eqb_eq in E1. apply IH in E2. now subst.
  - intros ->. apply eqb_refl.
Qed.

Lemma dropWhile_snoc (p : N -> bool) (l : jsstring) (x : N) :
  p x = false -> exists l', dropWhile p (l ++ [x]) = l' ++ [x].
Proof.
  intro Hx. induction l as [|c r IH]; simpl.
  - rewrite Hx. now exists [].
  - destruct (p c); [exact IH|]. now exists (c :: r).
Qed.

(** Trimming keeps a first code unit that is not white space. *)
Lemma trim_head (x : N) (r : jsstring) :
  is_space x = false -> exists r', trim (x :: r) = x :: r'.
Proof.
  intro Hx. unfold trim, trimEnd, trimStart. simpl dropWhile at 2. rewrite Hx.
  simpl rev at 2.
  destruct (dropWhile_snoc is_space (rev r) x Hx) as [l' E].
  rewrite E, rev_app_distr. simpl. now exists (rev l').
Qed.

Lemma brace_line (line : jsstring) :
  startsWith (u16 "{") line = true ->
  is_blank line = false /\ startsWith (u16 "{") (trim line) = true.
Proof.
  destruct line as [|c r]; [discriminate|].
  intro E. change (N.eqb 123 c && true = true) in E.
  rewrite andb_true_r in E. apply N.eqb_eq in E. subst c.
  destruct (trim_head 123%N r eq_refl) as [r' T].
  unfold is_blank. rewrite T. split; reflexivity.
Qed.

(** The regular expressions on concrete messages. *)
Example match_word_after_value :
  match_word_after (u16 "tool=") (u16 "run tool= tool=exec-1 tool=read")
  = Some (u16 "exec") /\
  match_word_after (u16 "new=") (u16 "session state prev=idle new=processing")
  = Some (u16 "processing") /\
  match_word_after (u16 "tool=") (u16 "tool =exec") = None.
Proof. repeat split. Qed.

Example match_tool_action_value :
  match_tool_action (u16 "embedded run tool end: tool=exec") = Some (u16 "end") /\
  match_tool_action (u16 "tool started, tool end") = Some (u16 "start") /\
  match_tool_action (u16 "tool failed") = None.
Proof. repeat split. Qed.

Section Rules.

Context `{JsRuntime}.

Lemma classify_timeline_le_1 (sinceTs : option Z) (line : jsstring) :
  (List.length (classify_timeline sinceTs line) <= 1)%nat.
Proof.
  unfold classify_timeline.
  repeat match goal with
         | |- context [if ?b then _ else _] => destruct b
         | |- context [match ?x with _ => _ end] => destruct x
         end; simpl; lia.
Qed.

Lemma classify_activity_le_1 (line : jsstring) :
  (List.length (classify_activity line) <= 1)%nat.
Proof.
  unfold classify_activity.
  repeat match goal with
         | |- context [if ?b then _ else _] => destruct b
         | |- context [match ?x with _ => _ end] => destruct x
         end; simpl; lia.
Qed.

Lemma classify_mcp_le_1 (line : jsstring) :
  (List.length (classify_mcp line) <= 1)%nat.
Proof.
  unfold classify_mcp.
  repeat match goal with
         | |- context [if ?b then _ else _] => destruct b
         | |- context [match ?x with _ => _ end] => destruct x
         end; simpl; lia.
Qed.

Lemma unparseable_line (sinceTs : option Z) (line e : jsstring) :
  JSON_parse_log line = Throw e ->
  classify_timeline sinceTs line = [] /\
  classify_activity line = [] /\
  classify_mcp line = [].
Proof.
  intro E. unfold classify_timeline, classify_activity, classify_mcp.
  rewrite E.
  repeat split;
    match goal with |- context [if ?b then _ else _] => now destruct b end.
Qed.

Lemma cron_rule (sinceTs : option Z) (line : jsstring) (parsed : log_record) :
  passes_gate sinceTs line parsed ->
  cron_job_line parsed ->
  classify_timeline sinceTs line
  = [mk (time_id (log_time parsed) (u16 "-cron")) (log_time parsed) cron
        (u16 "cron job X ran") (u16 "info")] /\
  classify_activity line
  = [mk (time_id (log_time parsed) (u16 "-cron")) (log_time parsed) cron
        (u16 "cron job X ran") (u16 "info")] /\
  classify_mcp line
  = [mk None (log_time parsed) cron (u16 "cron job X ran") (u16 "info")].
Proof.
  intros (Hb & Hp & Ht & Hs) (Hsub & Hmsg & Hlvl).
  destruct (brace_line line Hb) as [Hblank Htrim].
  unfold classify_timeline, classify_activity, classify_mcp.
  rewrite Hblank, Hb, Htrim, Hp, Ht, Hs, Hsub, Hmsg, Hlvl.
  repeat split.
Qed.

Lemma alert_rule (sinceTs : option Z) (line : jsstring) (parsed : log_record) :
  passes_gate sinceTs line parsed ->
  warning_line parsed ->
  let message := or_else (log_message parsed) [] in
  classify_timeline sinceTs line
  = [mk (time_id (log_time parsed) (u16 "-alert")) (log_time parsed) alert
        (slice0 80 message) (u16 "warn")] /\
  classify_activity line
  = [mk (time_id (log_time parsed) (u16 "-warn")) (log_time parsed) alert
        (slice0 80 message) (u16 "warn")] /\
  classify_mcp line
  = [mk None (log_time parsed) alert (slice0 150 message) (u16 "warn")].
Proof.
  intros (Hb & Hp & Ht & Hs) (Hlvl & Hben & Hearly) message.
  destruct (brace_line line Hb) as [Hblank Htrim].
  unfold earlier_branch in Hearly.
  apply orb_false_elim in Hearly. destruct Hearly as [Hearly Hcron].
  apply orb_false_elim in Hearly. destruct Hearly as [Hearly Hmem].
  apply orb_false_elim in Hearly. destruct Hearly as [Htool Hsess].
  unfold classify_timeline, classify_activity, classify_mcp.
  rewrite Hblank, Hb, Htrim, Hp, Ht, Hs, Htool, Hsess, Hmem, Hcron, Hlvl, Hben.
  repeat split.
Qed.

End Rules.

(** C7 (as amended).  Each classifier is a function of the line that
    yields at most one event and lets no exception out.  A line that starts
    with a brace and parses to a log record of type [log] whose time is not
    before the lower bound, with subsystem [cron], message [cron job X ran]
    and level [info], yields exactly one event of kind [cron].  Such a
    record with level [warn], whose message does not contain the benign
    version-mismatch text and which enters none of the earlier branches
    (agent/embedded with [tool ], diagnostic with [session state], memory,
    cron), yields exactly one event of kind [alert].  A line that does not
    parse yields no event. *)
Theorem classifier_total_and_first_match
    `{JsRuntime} (sinceTs : option Z)
    (cron_text : jsstring) (cron_rec : log_record)
    (warn_text : jsstring) (warn_rec : log_record)
    (bad_text error : jsstring) :
  passes_gate sinceTs cron_text cron_rec -> cron_job_line cron_rec ->
  passes_gate sinceTs warn_text warn_rec -> warning_line warn_rec ->
  JSON_parse_log bad_text = Throw error ->
  (forall since line,
     (List.length (classify_timeline since line) <= 1)%nat /\
     (List.length (classify_activity line) <= 1)%nat /\
     (List.length (classify_mcp line) <= 1)%nat) /\
  (exists e1 e2 e3,
     classify_timeline sinceTs cron_text = [e1] /\ kind e1 = cron /\
     classify_activity cron_text = [e2] /\ kind e2 = cron /\
     classify_mcp cron_text = [e3] /\ kind e3 = cron /\
     summary e1 = u16 "cron job X ran" /\ summary e2 = summary e1 /\
     summary e3 = summary e1) /\
  (exists a1 a2 a3,
     classify_timeline sinceTs warn_text = [a1] /\ kind a1 = alert /\
     classify_activity warn_text = [a2] /\ kind a2 = alert /\
     classify_mcp warn_text = [a3] /\ kind a3 = alert /\
     summary a1 = slice0 80 (or_else (log_message warn_rec) []) /\
     summary a2 = summary a1 /\
     summary a3 = slice0 150 (or_else (log_message warn_rec) [])) /\
  (classify_timeline sinceTs bad_text = [] /\
   classify_activity bad_text = [] /\
   classify_mcp bad_text = []).
Proof.
  intros Gc Lc Gw Lw Hbad.
  split; [|split; [|split]].
  - intros since line.
    pose proof (classify_timeline_le_1 since line).
    pose proof (classify_activity_le_1 line).
    pose proof (classify_mcp_le_1 line). auto.
  - destruct (cron_rule Gc Lc) as (E1 & E2 & E3).
    do 3 eexists. rewrite E1, E2, E3. repeat split.
  - destruct (alert_rule Gw Lw) as (E1 & E2 & E3).
    do 3 eexists. rewrite E1, E2, E3. repeat split.
  - exact (unparseable_line sinceTs bad_text Hbad).
Qed.

Lemma classifier_total_and_first_match_witness :
  passes_gate (Some new_year_ms) cron_text cron_rec /\
  cron_job_line cron_rec /\
  passes_gate (Some new_year_ms) warn_text warn_rec /\
  warning_line warn_rec /\
  JSON_parse_log (u16 "not json") = Throw Mini.syntax_error /\
  map kind (classify_timeline (Some new_year_ms) cron_text) = [cron] /\
  map kind (classify_timeline (Some new_year_ms) warn_text) = [alert] /\
  classify_timeline (Some new_year_ms) (u16 "not json") = [].
Proof.
  assert (Gc : passes_gate (Some new_year_ms) cron_text cron_rec)
    by (repeat split; vm_compute; reflexivity).
  assert (Lc : cron_job_line cron_rec) by (repeat split).
  assert (Gw : passes_gate (Some new_year_ms) warn_text warn_rec)
    by (repeat split; vm_compute; reflexivity).
  assert (Lw : warning_line warn_rec) by (repeat split).
  assert (Hbad : JSON_parse_log (u16 "not json") = Throw Mini.syntax_error)
    by (vm_compute; reflexivity).
  destruct (@classifier_total_and_first_match Mini.runtime (Some new_year_ms)
              cron_text cron_rec warn_text warn_rec (u16 "not json")
              Mini.syntax_error Gc Lc Gw Lw Hbad)
    as (_ & (e1 & _ & _ & E1 & K1 & _) & (a1 & _ & _ & A1 & KA & _) & B & _).
  do 5 (split; [assumption|]).
  split; [|split].
  - rewrite E1. simpl. now rewrite K1.
  - rewrite A1. simpl. now rewrite KA.
  - exact B.
Defined.

(** C7 (as stated) fails.  The line of the claim, with the three fields
    and nothing else, yields no event from the classifier of
    [/timeline-data] and from that of the MCP tool, which skip a record
    whose type is not [log]; it yields its cron event from the classifier
    of [/activity] only.  And a warning from agent/embedded whose message
    has [tool ] but no [tool=] token matches no rule, yet yields no alert:
    the first branch is entered and pushes nothing. *)
Lemma classifier_claim_counterexample :
  let bare := Mini.json_text
    "{'subsystem':'cron','message':'cron job X ran','level':'info'}" in
  let tool_warning := Mini.json_text
    "{'type':'log','time':'2026-01-01T08:00:00.000Z','subsystem':'agent/embedded','message':'tool failed','level':'warn'}" in
  classify_timeline None bare = [] /\
  classify_mcp bare = [] /\
  map kind (classify_activity bare) = [cron] /\
  classify_timeline None tool_warning = [] /\
  classify_activity tool_warning = [] /\
  classify_mcp tool_warning = [].
Proof. vm_compute. repeat split. Qed.

End ClassifierFacts.

(** ** The provider endpoints *)

Module FrontendFacts.

Import Classifier Frontend FrontendSpec.


Section Handlers.

Context `{JsRuntime}.

Lemma classify_lines_strings (l : list jsstring) :
  classify_lines (map JStr l) = Return (flat_map classify_activity l).
Proof.
  induction l as [|s r IH]; simpl; [reflexivity|]. now rewrite IH.
Qed.

Lemma plugin_lines_null : plugin_lines JNull = [].
Proof. reflexivity. Qed.




End Handlers.

(** Thirty-one cron lines from the CLI: the answer carries thirty events,
    the last line's first. *)
Example activity_handler_31_lines :
  match snd (activity_handler (Throw (u16 "plugin 503")) (ExecOk thirty_one_lines)) with
  | Response st (Payload evs) =>
      st = 200 /\ List.length evs = 30%nat /\
      map id (firstn 1 evs) = [Some (u16 "t30-cron")] /\
      map id (skipn 29 evs) = [Some (u16 "t1-cron")]
  | _ => False
  end.
Proof. vm_compute. repeat split. Qed.

(** A line of the companion service that is not a string is answered with
    status 500. *)
Example activity_handler_non_string_line :
  snd (activity_handler
         (Return (JObj [(u16 "lines", JArr [JNum 1])]))
         (ExecOk []))
  = Response 500 (ErrorObject (u16 "line.trim is not a function")).
Proof. reflexivity. Qed.

Section Sessions.

Context `{JsRuntime}.



End Sessions.

(** C9 (as amended).  When the cache holds a truthy value (as every
    session list, an array or an object, is) stored less than 15 minutes
    before the request, the handler of [GET /sessions] answers with that
    value, makes no request to the companion service and runs no CLI
    command, and leaves the cache as it is.  In every other state, so
    also when the value held is falsy, the handler asks the companion
    service first.  In any request the cache either stays as it is or
    becomes the data of a fetch that succeeded in this request, stamped
    with the time of the request. *)
Theorem sessions_cache_hit_within_ttl
    `{JsRuntime} (plugin : exn json) (cli : exec_result)
    (now : Z) (c : session_cache) :
  Js.truthy (lastSessionsJson c) = true ->
  now - lastSessionsAt c < 15 * 60 * 1000 ->
  sessions_handler plugin cli now c
  = {| sessions_effects := [];
       sessions_response := Response 200 (Payload (lastSessionsJson c));
       sessions_cache := c |} /\
  (forall plugin' cli' now' c',
     Js.truthy (lastSessionsJson c') = false \/
     15 * 60 * 1000 <= now' - lastSessionsAt c' ->
     exists rest,
       sessions_effects (sessions_handler plugin' cli' now' c')
       = FetchPlugin "/clawscope/sessions" :: rest) /\
  (forall plugin' cli' now' c',
     let r := sessions_handler plugin' cli' now' c' in
     sessions_cache r = c' \/
     exists data,
       fetched plugin' cli' = Some data /\
       sessions_effects r <> [] /\
       sessions_cache r = {| lastSessionsJson := data; lastSessionsAt := now' |} /\
       sessions_response r = Response 200 (Payload data)).
Proof.
  intros Hv Hage. split; [|split].
  - unfold sessions_handler, cache_fresh. rewrite Hv.
    replace (now - lastSessionsAt c <? SESSIONS_TTL_MS) with true; [reflexivity|].
    symmetry. apply Z.ltb_lt. unfold SESSIONS_TTL_MS. lia.
  - intros plugin' cli' now' c' Hmiss.
    assert (Hc : cache_fresh now' c' = false).
    { unfold cache_fresh. destruct Hmiss as [Hf|Hold].
      - now rewrite Hf.
      - apply andb_false_iff. right. apply Z.ltb_ge.
        unfold SESSIONS_TTL_MS. lia. }
    unfold sessions_handler. rewrite Hc.
    destruct plugin' as [data|e]; [now exists []|].
    destruct cli' as [stdout|e' so]; simpl;
      [destruct (JSON_parse _)|]; eexists; reflexivity.
  - intros plugin' cli' now' c' r. subst r. unfold sessions_handler, fetched.
    destruct (cache_fresh now' c'); [now left|].
    destruct plugin' as [data|e].
    + right. exists data. repeat split; simpl; congruence.
    + destruct cli' as [stdout|e' so]; simpl; [|now left].
      destruct (JSON_parse _) as [data|e'']; [|now left].
      right. exists data. repeat split; simpl; congruence.
Qed.

Lemma sessions_cache_hit_within_ttl_witness :
  let c := {| lastSessionsJson := one_session; lastSessionsAt := 1767225600000 |} in
  let now := 1767225600000 + 14 * 60 * 1000 in
  Js.truthy (lastSessionsJson c) = true /\
  now - lastSessionsAt c < 15 * 60 * 1000 /\
  sessions_handler (Return (JArr [])) (ExecOk (u16 "[]")) now c
  = {| sessions_effects := [];
       sessions_response := Response 200 (Payload one_session);
       sessions_cache := c |}.
Proof.
  split; [reflexivity|]. split; [reflexivity|].
  apply (@sessions_cache_hit_within_ttl Mini.runtime
           (Return (JArr [])) (ExecOk (u16 "[]"))
           (1767225600000 + 14 * 60 * 1000)
           {| lastSessionsJson := one_session; lastSessionsAt := 1767225600000 |}).
  - reflexivity.
  - reflexivity.
Defined.

(** C9 (as stated) fails for a falsy value.  The companion service
    answers [null]; the fetch succeeds and the handler stores [null] with
    the time of the request.  A request one minute later is not served
    from the cache: the handler asks the companion service again and
    answers with what it gets now. *)
Lemma sessions_falsy_value_counterexample :
  let first := sessions_handler (Return JNull) (ExecFail [] None)
                 1767225600000 initial_cache in
  let second := sessions_handler (Return one_session) (ExecFail [] None)
                  (1767225600000 + 60 * 1000) (sessions_cache first) in
  sessions_response first = Response 200 (Payload JNull) /\
  sessions_cache first
  = {| lastSessionsJson := JNull; lastSessionsAt := 1767225600000 |} /\
  sessions_effects second = [FetchPlugin "/clawscope/sessions"] /\
  sessions_response second = Response 200 (Payload one_session).
Proof. repeat split. Qed.

(** Two requests in a row: the first fetches and stores, the second,
    fourteen minutes later, answers from the cache without any request. *)
Example sessions_second_call_is_cached :
  let first := sessions_handler (Return one_session) (ExecFail [] None)
                 1767225600000 initial_cache in
  let second := sessions_handler (Throw (u16 "plugin 503")) (ExecFail [] None)
                  (1767225600000 + 14 * 60 * 1000) (sessions_cache first) in
  sessions_effects first = [FetchPlugin "/clawscope/sessions"] /\
  sessions_effects second = [] /\
  sessions_response second = Response 200 (Payload one_session).
Proof. repeat split. Qed.

(** After fifteen minutes the cache has expired and the handler fetches
    again. *)
Example sessions_call_after_ttl_fetches :
  let c := {| lastSessionsJson := one_session; lastSessionsAt := 1767225600000 |} in
  sessions_effects
    (sessions_handler (Return one_session) (ExecFail [] None)
       (1767225600000 + 15 * 60 * 1000) c)
  = [FetchPlugin "/clawscope/sessions"].
Proof. reflexivity. Qed.




(** A body that is not JSON makes [JSON.parse] throw inside the [end]
    listener, outside the handler's [try]: no response is written, neither
    the 500 of the [catch] nor any other, and the settings file keeps its
    content. *)
Lemma settings_save_invalid_body
    `{JsRuntime} (chunks : list jsstring) (file : option jsstring) (e : jsstring) :
  List.concat chunks <> [] ->
  JSON_parse (List.concat chunks) = Throw e ->
  settings_save_handler chunks file = (Uncaught e, file).
Proof.
  intros Hne Hp. unfold settings_save_handler, register_listeners, on_end.
  destruct (List.concat chunks) as [|c r]; [contradiction|]. now rewrite Hp.
Qed.

(** No request is answered with status 500. *)
Lemma settings_save_never_500
    `{JsRuntime} (chunks : list jsstring) (file : option jsstring) :
  match fst (settings_save_handler chunks file) with
  | Responded r => statusCode r = 200
  | Uncaught _ => True
  end.
Proof.
  unfold settings_save_handler, register_listeners, on_end.
  destruct (List.concat chunks) as [|c r]; [reflexivity|].
  now destruct (JSON_parse (c :: r)).
Qed.

(** C5.  The claim is that a body that is not valid JSON is answered with
    status 500 and an error object, the settings file left unchanged.  On
    the body [{], sent in one chunk with a settings file in place, the
    handler writes no response at all: [JSON.parse] throws inside the [end]
    listener, outside the [try] whose [catch] would answer 500, and the
    exception is left uncaught.  The file is unchanged. *)
Theorem settings_save_invalid_json_uncaught :
  settings_save_handler [u16 "{"] (Some (u16 "{}"))
  = (Uncaught Mini.syntax_error, Some (u16 "{}")).
Proof. reflexivity. Qed.

(** A valid body is saved and answered with [{ok: true}]. *)
Example settings_save_valid_json :
  settings_save_handler [Mini.json_text "{'mode':"; Mini.json_text "'lexical'}"] None
  = (Responded (Response 200 (Payload ok_true)),
     Some (Mini.json_text "{" ++ [10%N] ++ Mini.json_text "  'mode': 'lexical'"
           ++ [10%N] ++ u16 "}")).
Proof. reflexivity. Qed.

End FrontendFacts.

(** ** The timeline *)

Module TimelineFacts.

Import Classifier Timeline TimelineSpec ClassifierFacts.

Lemma eqb_neq (a b : jsstring) : JsString.eqb a b = false <-> a <> b.
Proof.
  split.
  - intros E Heq. apply eqb_eq in Heq. congruence.
  - intro Hne. destruct (JsString.eqb a b) eqn:E; [|reflexivity].
    apply eqb_eq in E. contradiction.
Qed.

(** *** Sorting permutes *)

Lemma insert_sorted_perm {A : Type} (cmp : A -> A -> Z) (x : A) (l : list A) :
  Permutation (insert_sorted cmp x l) (x :: l).
Proof.
  induction l as [|y r IH]; simpl; [reflexivity|].
  destruct (0 <? cmp x y); [|reflexivity].
  rewrite IH. apply perm_swap.
Qed.

Lemma sort_perm {A : Type} (cmp : A -> A -> Z) (l : list A) :
  Permutation (sort cmp l) l.
Proof.
  induction l as [|x r IH]; simpl; [reflexivity|].
  rewrite insert_sorted_perm. now constructor.
Qed.

Lemma filter_perm {A : Type} (p : A -> bool) (l l' : list A) :
  Permutation l l' -> Permutation (filter p l) (filter p l').
Proof.
  induction 1 as [|x l l' _ IH|x y l|l l' l'' _ IH1 _ IH2]; simpl.
  - reflexivity.
  - destruct (p x); [now constructor | exact IH].
  - destruct (p x), (p y); try reflexivity. apply perm_swap.
  - now transitivity (filter p l').
Qed.

(** A filter of a prefix is a prefix of the filter. *)
Lemma filter_firstn_prefix {A : Type} (p : A -> bool) (n : nat) (l : list A) :
  exists m, filter p (firstn n l) = firstn m (filter p l).
Proof.
  revert n. induction l as [|x r IH]; intro n.
  - exists O. now rewrite firstn_nil.
  - destruct n as [|n]; [now exists O|]. simpl.
    destruct (IH n) as [m E]. destruct (p x).
    + exists (S m). simpl. now rewrite E.
    + now exists m.
Qed.

Lemma map_get_set {V : Type} (k k' : jsstring) (v : V) (m : list (jsstring * V)) :
  map_get k (map_set k' v m) = if JsString.eqb k' k then Some v else map_get k m.
Proof.
  induction m as [|[k0 v0] r IH]; simpl.
  - reflexivity.
  - destruct (JsString.eqb k' k0) eqn:E0; simpl.
    + apply eqb_eq in E0. subst k0.
      destruct (JsString.eqb k' k); reflexivity.
    + rewrite IH. destruct (JsString.eqb k0 k) eqn:E1; [|reflexivity].
      apply eqb_eq in E1. subst k0. now rewrite E0.
Qed.

Lemma map_set_keys {V : Type} (k : jsstring) (v : V) (m : list (jsstring * V)) :
  map fst (map_set k v m) = map fst m \/ 
  (~ In k (map fst m) /\ map fst (map_set k v m) = map fst m ++ [k]).
Proof.
  induction m as [|[k0 v0] r IH]; simpl.
  - right. now split.
  - destruct (JsString.eqb k k0) eqn:E0; simpl.
    + apply eqb_eq in E0. subst k0. now left.
    + apply eqb_neq in E0. destruct IH as [IH|[Hn IH]].
      * left. now rewrite IH.
      * right. split; [|now rewrite IH].
        intros [Heq|Hin]; [congruence | contradiction].
Qed.

Lemma map_set_In {V : Type} (k : jsstring) (v : V) (m : list (jsstring * V))
    (kv : jsstring * V) :
  In kv (map_set k v m) -> kv = (k, v) \/ In kv m.
Proof.
  induction m as [|[k0 v0] r IH]; simpl.
  - intros [E|[]]. now left.
  - destruct (JsString.eqb k k0); simpl.
    + intros [E|Hin]; [now left | right; now right].
    + intros [E|Hin]; [right; now left|].
      destruct (IH Hin) as [E|Hin']; [now left | right; now right].
Qed.

Lemma remember_well_keyed (m : list (jsstring * TimelineEvent))
    (ev : option TimelineEvent) :
  well_keyed m -> well_keyed (remember m ev).
Proof.
  intros [Hnd Hid]. unfold remember.
  destruct ev as [e|]; [|now split].
  destruct (id e) as [[|c r]|] eqn:Hi; try now split.
  split.
  - destruct (map_set_keys (c :: r) e m) as [E|[Hn E]]; rewrite E; [exact Hnd|].
    apply NoDup_app; [exact Hnd | repeat constructor; intros [] |].
    intros x Hx [Hx'|[]]. subst. contradiction.
  - intros k e' Hin. apply map_set_In in Hin. destruct Hin as [E|Hin].
    + inversion E; subst. exact Hi.
    + eapply Hid, Hin.
Qed.

Lemma fold_remember_well_keyed (evs : list (option TimelineEvent))
    (m : list (jsstring * TimelineEvent)) :
  well_keyed m -> well_keyed (fold_left remember evs m).
Proof.
  revert m. induction evs as [|ev r IH]; intros m Hm; simpl; [exact Hm|].
  apply IH, remember_well_keyed, Hm.
Qed.

Lemma map_get_remember (k : jsstring) (m : list (jsstring * TimelineEvent))
    (ev : option TimelineEvent) :
  k <> [] ->
  map_get k (remember m ev) = if merged_as k ev then ev else map_get k m.
Proof.
  intro Hk. unfold remember, merged_as, has_id.
  destruct ev as [e|]; [|reflexivity].
  destruct (id e) as [[|c r]|] eqn:Hi.
  - replace (JsString.eqb [] k) with false; [reflexivity|].
    symmetry. apply eqb_neq. congruence.
  - apply map_get_set.
  - reflexivity.
Qed.

Lemma map_get_fold (k : jsstring) (evs : list (option TimelineEvent))
    (m : list (jsstring * TimelineEvent)) :
  k <> [] ->
  map_get k (fold_left remember evs m)
  = fold_left (fun acc ev => if merged_as k ev then ev else acc) evs (map_get k m).
Proof.
  intro Hk. revert m. induction evs as [|ev r IH]; intro m; simpl; [reflexivity|].
  now rewrite IH, map_get_remember.
Qed.

Lemma filter_absent_key (k : jsstring) (m : list (jsstring * TimelineEvent)) :
  (forall k' e, In (k', e) m -> id e = Some k') ->
  ~ In k (map fst m) ->
  filter (has_id k) (map snd m) = [].
Proof.
  induction m as [|[k0 e0] r IH]; intros Hid Hn; simpl; [reflexivity|].
  unfold has_id at 1. rewrite (Hid k0 e0 (or_introl eq_refl)).
  replace (JsString.eqb k0 k) with false.
  - apply IH; [intros; apply Hid; now right | intro; apply Hn; now right].
  - symmetry. apply eqb_neq. intro E. apply Hn. now left.
Qed.

Lemma filter_well_keyed (k : jsstring) (m : list (jsstring * TimelineEvent)) :
  well_keyed m ->
  filter (has_id k) (map snd m)
  = match map_get k m with
    | Some e => [e]
    | None => []
    end.
Proof.
  intros [Hnd Hid]. induction m as [|[k0 e0] r IH]; simpl; [reflexivity|].
  inversion Hnd as [|? ? Hn Hnd']; subst.
  unfold has_id at 1. rewrite (Hid k0 e0 (or_introl eq_refl)).
  destruct (JsString.eqb k0 k) eqn:E.
  - apply eqb_eq in E. subst k0.
    rewrite filter_absent_key;
      [reflexivity | intros; apply Hid; now right | exact Hn].
  - apply IH; [exact Hnd' | intros; apply Hid; now right].
Qed.

Section Merge.

Context `{JsRuntime}.

Lemma eventMap_values (k : jsstring) (cached fresh : list (option TimelineEvent)) :
  k <> [] ->
  filter (has_id k) (map snd (eventMap cached fresh))
  = match last_with_id k (cached ++ fresh) with
    | Some e => [e]
    | None => []
    end.
Proof.
  intro Hk. unfold eventMap.
  rewrite filter_well_keyed.
  - now rewrite map_get_fold.
  - apply fold_remember_well_keyed. split; [constructor | intros ? ? []].
Qed.

Lemma allEvents_one_per_id (k : jsstring) (cached fresh : list (option TimelineEvent)) :
  k <> [] ->
  filter (has_id k) (allEvents cached fresh)
  = match last_with_id k (cached ++ fresh) with
    | Some e => [e]
    | None => []
    end.
Proof.
  intro Hk. unfold allEvents.
  pose proof (filter_perm (has_id k)
                (sort_perm newest_first (map snd (eventMap cached fresh)))) as P.
  rewrite (eventMap_values cached fresh Hk) in P.
  destruct (last_with_id k (cached ++ fresh)) as [e|].
  - symmetry in P. now apply Permutation_length_1_inv in P.
  - symmetry in P. now apply Permutation_nil in P.
Qed.

Lemma last_with_id_later (k : jsstring) (before after : list (option TimelineEvent))
    (e : TimelineEvent) :
  id e = Some k ->
  (forall ev, In ev after -> merged_as k ev = false) ->
  last_with_id k (before ++ Some e :: after) = Some e.
Proof.
  intros Hi Hafter.
  assert (Hm : merged_as k (Some e) = true)
    by (unfold merged_as, has_id; rewrite Hi; apply eqb_refl).
  unfold last_with_id. rewrite fold_left_app. cbn [fold_left]. rewrite Hm.
  clear Hi Hm. induction after as [|ev r IH]; cbn [fold_left]; [reflexivity|].
  rewrite (Hafter ev (or_introl eq_refl)).
  apply IH. intros ev' Hin. apply Hafter. now right.
Qed.

Lemma slice_to_all {A : Type} (n : Z) (l : list A) :
  Z.of_nat (List.length l) <= n -> ActivityBackend.slice_to n l = l.
Proof.
  intro Hn. unfold ActivityBackend.slice_to.
  replace (n <? 0) with false by (symmetry; apply Z.ltb_ge; lia).
  apply firstn_all2. lia.
Qed.

Lemma timeline_data_keeps_all (rq : request) (events : list FeedEvent) (n : Z) :
  collect rq = Return events ->
  limit rq = Some n ->
  Z.of_nat (List.length events) <= n ->
  exists out,
    timeline_data_handler rq = Response 200 (Payload out) /\
    Permutation out
      (filter (not_before (or_else (since_param rq) (default_since rq))) events).
Proof.
  intros Hc Hl Hn. unfold timeline_data_handler. rewrite Hc, Hl. simpl.
  eexists. split; [reflexivity|].
  rewrite slice_to_all; [apply sort_perm|].
  pose proof (Permutation_length
                (sort_perm newest_first
                   (filter (not_before (or_else (since_param rq) (default_since rq)))
                           events))) as L.
  pose proof (filter_length_le
                (not_before (or_else (since_param rq) (default_since rq))) events).
  rewrite L. etransitivity; [|exact Hn]. apply Nat2Z.inj_le. assumption.
Qed.

End Merge.

End TimelineFacts.

(** ** String helpers: colour codes, lines, brackets, escaping *)

Module StringHelperFacts.

Import JsStringSpec JsStringFacts Page.

(** *** Colour codes *)

Lemma dropWhile_suffix_length (p : N -> bool) (s : jsstring) :
  (List.length (dropWhile p s) <= List.length s)%nat.
Proof. apply dropWhile_length. Qed.

Lemma sgr_tail_shorter (s r : jsstring) :
  sgr_tail s = Some r -> (List.length r < List.length s)%nat.
Proof.
  unfold sgr_tail. pose proof (dropWhile_length is_sgr_param s) as L.
  destruct (dropWhile is_sgr_param s) as [|c t]; [discriminate|].
  destruct (N.eqb_spec c 109) as [->|Hc].
  - intro E. inversion E; subst. simpl in L. lia.
  - destruct c as [|p]; [discriminate|].
    repeat (destruct p as [p|p|]; try discriminate); congruence.
Qed.

Lemma strip_step_plain (f : nat) (c : N) (r : jsstring) :
  c <> 27%N ->
  strip_ansi_fuel (S f) (c :: r) = c :: strip_ansi_fuel f r.
Proof.
  intro Hc. cbn [strip_ansi_fuel].
  destruct c as [|p]; [reflexivity|].
  repeat (destruct p as [p|p|]; try reflexivity); congruence.
Qed.

Lemma strip_step_esc_end (f : nat) :
  strip_ansi_fuel (S f) [27%N] = 27%N :: strip_ansi_fuel f [].
Proof. reflexivity. Qed.

Lemma strip_step_esc_plain (f : nat) (d : N) (r : jsstring) :
  d <> 91%N ->
  strip_ansi_fuel (S f) (27%N :: d :: r) = 27%N :: strip_ansi_fuel f (d :: r).
Proof.
  intro Hd. cbn [strip_ansi_fuel].
  destruct d as [|p]; [reflexivity|].
  repeat (destruct p as [p|p|]; try reflexivity); congruence.
Qed.

Lemma strip_step_sgr (f : nat) (r t : jsstring) :
  sgr_tail r = Some t ->
  strip_ansi_fuel (S f) (27%N :: 91%N :: r) = strip_ansi_fuel f t.
Proof. intro E. cbn [strip_ansi_fuel]. now rewrite E. Qed.

Lemma strip_step_broken (f : nat) (r : jsstring) :
  sgr_tail r = None ->
  strip_ansi_fuel (S f) (27%N :: 91%N :: r)
  = 27%N :: strip_ansi_fuel f (91%N :: r).
Proof. intro E. cbn [strip_ansi_fuel]. now rewrite E. Qed.

(** More fuel than the length changes nothing. *)
Lemma strip_ansi_fuel_enough (f1 f2 : nat) (s : jsstring) :
  (List.length s < f1)%nat -> (List.length s < f2)%nat ->
  strip_ansi_fuel f1 s = strip_ansi_fuel f2 s.
Proof.
  revert f2 s. induction f1 as [|f1 IH]; intros f2 s H1 H2; [lia|].
  destruct f2 as [|f2]; [lia|].
  destruct s as [|c r]; [reflexivity|]. simpl in H1, H2.
  destruct (N.eq_dec c 27) as [->|Hc].
  - destruct r as [|d r'].
    + rewrite !strip_step_esc_end. destruct f1, f2; reflexivity.
    + destruct (N.eq_dec d 91) as [->|Hd].
      * destruct (sgr_tail r') as [t|] eqn:Et.
        -- rewrite !(strip_step_sgr _ _ Et).
           apply sgr_tail_shorter in Et. apply IH; simpl in *; lia.
        -- rewrite !(strip_step_broken _ _ Et).
           f_equal. apply IH; simpl in *; lia.
      * rewrite !(strip_step_esc_plain _ _ Hd).
        f_equal. apply IH; simpl in *; lia.
  - rewrite !(strip_step_plain _ _ Hc). f_equal. apply IH; lia.
Qed.

Lemma strip_ansi_fuel_length (f : nat) (s : jsstring) :
  (List.length (strip_ansi_fuel f s) <= List.length s)%nat.
Proof.
  revert s. induction f as [|f IH]; intro s; [simpl; lia|].
  destruct s as [|c r]; [simpl; lia|].
  destruct (N.eq_dec c 27) as [->|Hc].
  - destruct r as [|d r'].
    + rewrite strip_step_esc_end. specialize (IH []). simpl in *. lia.
    + destruct (N.eq_dec d 91) as [->|Hd].
      * destruct (sgr_tail r') as [t|] eqn:Et.
        -- rewrite (strip_step_sgr _ _ Et).
           apply sgr_tail_shorter in Et. specialize (IH t). simpl. lia.
        -- rewrite (strip_step_broken _ _ Et).
           specialize (IH (91%N :: r')). simpl in *. lia.
      * rewrite (strip_step_esc_plain _ _ Hd).
        specialize (IH (d :: r')). simpl in *. lia.
  - rewrite (strip_step_plain _ _ Hc). specialize (IH r). simpl. lia.
Qed.

Lemma strip_ansi_fuel_no_esc (f : nat) (s : jsstring) :
  free_of (N.eqb 27) s -> strip_ansi_fuel f s = s.
Proof.
  unfold free_of. revert s. induction f as [|f IH]; intros s H; [reflexivity|].
  destruct s as [|c r]; [reflexivity|].
  simpl in H. apply andb_prop in H. destruct H as [Hc Hr].
  rewrite strip_step_plain.
  - now rewrite IH.
  - intro E. subst c. discriminate.
Qed.

Lemma sgr_tail_params (params rest : jsstring) :
  forallb is_sgr_param params = true ->
  sgr_tail (params ++ 109%N :: rest) = Some rest.
Proof.
  intro H. unfold sgr_tail.
  induction params as [|c r IH]; [reflexivity|].
  simpl in H. apply andb_prop in H. destruct H as [Hc Hr].
  simpl. rewrite Hc. now apply IH.
Qed.

(** X1.  Stripping colour codes ([replace(/\x1b\[[0-9;]*m/g, '')]): a
    text without an escape character is returned unchanged; the result is
    never longer than the input; and a complete colour sequence in front
    of a text is removed, leaving the text to be stripped in turn. *)
Theorem strip_ansi_removes_only_colour_codes (s params : jsstring) :
  (free_of (N.eqb 27) s -> strip_ansi s = s) /\
  (List.length (strip_ansi s) <= List.length s)%nat /\
  (forallb is_sgr_param params = true ->
   strip_ansi (sgr params ++ s) = strip_ansi s).
Proof.
  split; [|split].
  - apply strip_ansi_fuel_no_esc.
  - apply strip_ansi_fuel_length.
  - intro Hp. unfold strip_ansi, sgr.
    change ((27%N :: 91%N :: params ++ [109%N]) ++ s)
      with (27%N :: 91%N :: (params ++ [109%N]) ++ s).
    rewrite <- app_assoc. cbn [app].
    rewrite (strip_step_sgr _ _ (sgr_tail_params params s Hp)).
    apply strip_ansi_fuel_enough; simpl; rewrite ?length_app; simpl; lia.
Qed.

(** *** Lines *)

Lemma split_lines_aux_nonempty (cur s : jsstring) : split_lines_aux cur s <> [].
Proof.
  revert cur. induction s as [|c r IH]; intro cur; simpl; [discriminate|].
  destruct (N.eqb c 10); [discriminate | apply IH].
Qed.

Lemma split_lines_aux_join (cur s : jsstring) :
  join_lines (split_lines_aux cur s) = rev cur ++ s.
Proof.
  revert cur. induction s as [|c r IH]; intro cur; simpl.
  - now rewrite app_nil_r.
  - destruct (N.eqb_spec c 10) as [->|Hc].
    + pose proof (split_lines_aux_nonempty [] r) as Hne.
      specialize (IH []). simpl in IH.
      destruct (split_lines_aux [] r) as [|l ls]; [contradiction|].
      change (join_lines (rev cur :: l :: ls))
        with (rev cur ++ 10%N :: join_lines (l :: ls)).
      now rewrite IH.
    + rewrite IH. simpl. now rewrite <- app_assoc.
Qed.

Lemma forallb_rev {A : Type} (p : A -> bool) (l : list A) :
  forallb p (rev l) = forallb p l.
Proof.
  induction l as [|x r IH]; simpl; [reflexivity|].
  rewrite forallb_app, IH. simpl. rewrite andb_true_r. apply andb_comm.
Qed.

Lemma split_lines_aux_no_newline (cur s : jsstring) :
  free_of (N.eqb 10) cur ->
  Forall (free_of (N.eqb 10)) (split_lines_aux cur s).
Proof.
  unfold free_of. revert cur. induction s as [|c r IH]; intros cur Hcur; simpl.
  - constructor; [|constructor]. now rewrite forallb_rev.
  - destruct (N.eqb c 10) eqn:Ec.
    + constructor; [now rewrite forallb_rev | now apply IH].
    + apply IH.
      change (negb (N.eqb 10 c) && forallb (fun x => negb (N.eqb 10 x)) cur = true).
      rewrite N.eqb_sym, Ec. exact Hcur.
Qed.

Lemma split_lines_aux_count (cur s : jsstring) :
  List.length (split_lines_aux cur s)
  = S (List.length (filter (N.eqb 10) s)).
Proof.
  revert cur. induction s as [|c r IH]; intro cur; [reflexivity|].
  cbn [split_lines_aux filter]. rewrite (N.eqb_sym 10 c).
  destruct (N.eqb c 10); cbn [List.length]; now rewrite IH.
Qed.

(** X2.  Splitting at line feeds ([split('\n')]) loses nothing: the lines
    joined with line feeds are the input again; no line contains a line
    feed; there is one line more than there are line feeds, so the empty
    text gives one empty line.  The lines the CLI fallback of [/activity]
    keeps ([filter(Boolean)]) are the non-empty ones among them. *)
Theorem split_lines_round_trip (s : jsstring) (cli : exec_result) :
  join_lines (split_lines s) = s /\
  Forall (free_of (N.eqb 10)) (split_lines s) /\
  List.length (split_lines s) = S (List.length (filter (N.eqb 10) s)) /\
  Forall (fun l => l <> [] /\ free_of (N.eqb 10) l) (Frontend.cli_lines cli).
Proof.
  split; [|split; [|split]].
  - apply (split_lines_aux_join [] s).
  - now apply (@split_lines_aux_no_newline [] s).
  - apply split_lines_aux_count.
  - unfold Frontend.cli_lines. apply Forall_forall. intros l Hin.
    apply filter_In in Hin. destruct Hin as [Hin Hne]. split.
    + destruct l; [discriminate | discriminate].
    + pose proof (@split_lines_aux_no_newline []
                    (strip_ansi (Frontend.cli_stdout cli)) eq_refl) as F.
      rewrite Forall_forall in F. now apply F.
Qed.

(** *** The first bracket *)

Lemma from_first_bracket_aux_split (s r : jsstring) :
  from_first_bracket_aux s = Some r ->
  exists p c t, s = p ++ r /\ r = c :: t /\ is_bracket c = true /\
                free_of is_bracket p.
Proof.
  unfold free_of. revert r. induction s as [|c t IH]; intros r; simpl; [discriminate|].
  destruct (N.eqb c 91 || N.eqb c 123)%bool eqn:Ec.
  - intro E. inversion E; subst. exists [], c, t. repeat split. exact Ec.
  - intro E. destruct (IH r E) as (p & c' & t' & -> & -> & Hc & Hp).
    exists (c :: p), c', t'. repeat split; [exact Hc|].
    simpl. unfold is_bracket at 1. now rewrite Ec.
Qed.

Lemma from_first_bracket_aux_none (s : jsstring) :
  from_first_bracket_aux s = None -> free_of is_bracket s.
Proof.
  unfold free_of. induction s as [|c t IH]; simpl; [reflexivity|].
  destruct (N.eqb c 91 || N.eqb c 123)%bool eqn:Ec; [discriminate|].
  intro E. unfold is_bracket at 1. rewrite Ec. now apply IH.
Qed.

(** X3.  Isolating the JSON payload of the CLI output
    ([search(/[\[{]/)] and [slice]): the result is the input from its
    first opening bracket or brace on, so it is a suffix of the input that
    starts with that character, and what is cut off contains neither; an
    input without any is returned whole. *)
Theorem from_first_bracket_is_suffix (s : jsstring) :
  (exists p, s = p ++ from_first_bracket s /\ free_of is_bracket p) /\
  (free_of is_bracket s -> from_first_bracket s = s) /\
  (~ free_of is_bracket s ->
   exists c t, from_first_bracket s = c :: t /\ is_bracket c = true).
Proof.
  unfold from_first_bracket.
  destruct (from_first_bracket_aux s) as [r|] eqn:E.
  - destruct (from_first_bracket_aux_split s E) as (p & c & t & Hs & Hr & Hc & Hp).
    split; [|split].
    + now exists p.
    + intro Hfree. subst s r. unfold free_of in Hfree.
      rewrite forallb_app in Hfree. apply andb_prop in Hfree.
      destruct Hfree as [_ Hfree]. simpl in Hfree. rewrite Hc in Hfree.
      discriminate.
    + intros _. now exists c, t.
  - pose proof (from_first_bracket_aux_none s E) as Hfree.
    split; [|split].
    + exists []. now split.
    + reflexivity.
    + intro Hn. contradiction.
Qed.

(** *** Escaping *)

Lemma replace_all_flat_map (c : N) (rep s : jsstring) :
  replace_all c rep s = flat_map (fun x => if N.eqb x c then rep else [x]) s.
Proof.
  induction s as [|x r IH]; simpl; [reflexivity|].
  rewrite IH. now destruct (N.eqb x c).
Qed.

Lemma flat_map_flat_map {A B C : Type} (f : A -> list B) (g : B -> list C)
    (l : list A) :
  flat_map g (flat_map f l) = flat_map (fun x => flat_map g (f x)) l.
Proof.
  induction l as [|x r IH]; simpl; [reflexivity|].
  now rewrite flat_map_app, IH.
Qed.

(** Case analysis on a code unit: one of the five characters, or none. *)
Ltac by_unit c :=
  destruct (N.eq_dec c 38) as [->|?]; [reflexivity|];
  destruct (N.eq_dec c 60) as [->|?]; [reflexivity|];
  destruct (N.eq_dec c 62) as [->|?]; [reflexivity|];
  destruct (N.eq_dec c 34) as [->|?]; [reflexivity|];
  destruct (N.eq_dec c 39) as [->|?]; [reflexivity|];
  repeat match goal with
         | H : _ <> _ |- _ => apply N.eqb_neq in H
         end.

Lemma escapeHtml_one_pass (s : jsstring) :
  escapeHtml s = flat_map escape_unit s /\ esc s = flat_map escape_unit s.
Proof.
  unfold escapeHtml, esc. rewrite !replace_all_flat_map, !flat_map_flat_map.
  split; apply flat_map_ext; intro c; unfold escape_unit, amp, lt, gt, quot, apos;
    by_unit c;
    repeat (cbn [flat_map app];
            match goal with H : N.eqb _ _ = false |- _ => rewrite H end);
    reflexivity.
Qed.

Lemma escape_unit_length (c : N) : (1 <= List.length (escape_unit c))%nat.
Proof.
  unfold escape_unit.
  repeat match goal with |- context [if ?b then _ else _] => destruct b end;
    simpl; lia.
Qed.

Lemma flat_map_escape_length (s : jsstring) :
  (List.length s <= List.length (flat_map escape_unit s))%nat.
Proof.
  induction s as [|c r IH]; simpl; [lia|].
  rewrite length_app. pose proof (escape_unit_length c). lia.
Qed.

Lemma escape_unit_free (c : N) : free_of is_markup (escape_unit c).
Proof.
  unfold free_of, escape_unit, is_markup.
  destruct (N.eqb c 38) eqn:E1; [reflexivity|].
  destruct (N.eqb c 60) eqn:E2; [reflexivity|].
  destruct (N.eqb c 62) eqn:E3; [reflexivity|].
  destruct (N.eqb c 34) eqn:E4; [reflexivity|].
  destruct (N.eqb c 39) eqn:E5; [reflexivity|].
  cbn [forallb]. now rewrite E2, E3, E4, E5.
Qed.

Lemma free_of_flat_map (p : N -> bool) (f : N -> jsstring) (s : jsstring) :
  (forall c, free_of p (f c)) -> free_of p (flat_map f s).
Proof.
  unfold free_of. intro Hf. induction s as [|c r IH]; simpl; [reflexivity|].
  now rewrite forallb_app, Hf, IH.
Qed.

Lemma escape_unit_plain (c : N) :
  N.eqb c 38 = false -> is_markup c = false -> escape_unit c = [c].
Proof.
  unfold is_markup, escape_unit. intros E1 E.
  apply orb_false_elim in E. destruct E as [E E5].
  apply orb_false_elim in E. destruct E as [E E4].
  apply orb_false_elim in E. destruct E as [E2 E3].
  now rewrite E1, E2, E3, E4, E5.
Qed.

Lemma unescape_fuel_escape (s : jsstring) (fuel : nat) :
  (List.length s <= fuel)%nat ->
  unescape_fuel fuel (flat_map escape_unit s) = s.
Proof.
  revert fuel. induction s as [|c r IH]; intros fuel Hf.
  - destruct fuel; reflexivity.
  - destruct fuel as [|fuel]; [simpl in Hf; lia|].
    simpl in Hf. assert (Hr : (List.length r <= fuel)%nat) by lia.
    specialize (IH fuel Hr). cbn [flat_map]. unfold escape_unit at 1.
    destruct (N.eq_dec c 38) as [->|H1]; [cbn; now rewrite IH|].
    destruct (N.eq_dec c 60) as [->|H2]; [cbn; now rewrite IH|].
    destruct (N.eq_dec c 62) as [->|H3]; [cbn; now rewrite IH|].
    destruct (N.eq_dec c 34) as [->|H4]; [cbn; now rewrite IH|].
    destruct (N.eq_dec c 39) as [->|H5]; [cbn; now rewrite IH|].
    apply N.eqb_neq in H1, H2, H3, H4, H5.
    rewrite H1, H2, H3, H4, H5. cbn [app unescape_fuel].
    assert (S : forall lit : string,
               match u16 lit with
               | x :: _ => x = 38%N
               | [] => False
               end ->
               startsWith (u16 lit) (c :: flat_map escape_unit r) = false).
    { intros lit Hl. destruct (u16 lit) as [|x t]; [contradiction|]. subst x.
      cbn [startsWith]. rewrite N.eqb_sym, H1. reflexivity. }
    rewrite !S by reflexivity. now rewrite IH.
Qed.

(** X4.  [escapeHtml] of frontend.ts and [esc] of frontend-v2.ts, although
    they make their five replacements in different orders, both amount to
    one pass that writes each of the five characters as its entity.  The
    result contains no angle bracket, quotation mark or apostrophe; a text
    with none of the five characters is unchanged; reading the entities
    back gives the text again, so different texts are escaped
    differently. *)
Theorem escapeHtml_is_safe_and_lossless (s t : jsstring) :
  escapeHtml s = flat_map escape_unit s /\
  esc s = escapeHtml s /\
  free_of is_markup (escapeHtml s) /\
  (free_of (fun c => N.eqb c 38 || is_markup c) s -> escapeHtml s = s) /\
  unescape_fuel (List.length (escapeHtml s)) (escapeHtml s) = s /\
  (escapeHtml s = escapeHtml t -> s = t).
Proof.
  destruct (escapeHtml_one_pass s) as [E1 E2].
  destruct (escapeHtml_one_pass t) as [E1' _].
  assert (U : forall x, unescape_fuel (List.length (escapeHtml x)) (escapeHtml x) = x).
  { intro x. destruct (escapeHtml_one_pass x) as [Ex _]. rewrite Ex.
    apply unescape_fuel_escape, flat_map_escape_length. }
  repeat split.
  - exact E1.
  - congruence.
  - rewrite E1. apply free_of_flat_map, escape_unit_free.
  - rewrite E1. unfold free_of. clear. induction s as [|c r IH]; [reflexivity|].
    cbn [forallb flat_map]. intro H. apply andb_prop in H. destruct H as [Hc Hr].
    apply negb_true_iff, orb_false_elim in Hc. destruct Hc as [H1 Hm].
    rewrite (escape_unit_plain c H1 Hm). cbn [app]. now rewrite IH.
  - apply U.
  - intro E. rewrite <- (U s), <- (U t). now rewrite E.
Qed.

Lemma escapeHtml_timeline_one_pass (s : jsstring) :
  escapeHtml_timeline s = flat_map escape_unit3 s.
Proof.
  unfold escapeHtml_timeline. rewrite !replace_all_flat_map, !flat_map_flat_map.
  apply flat_map_ext; intro c; unfold escape_unit3, amp, lt, gt.
  destruct (N.eq_dec c 38) as [->|H1]; [reflexivity|].
  destruct (N.eq_dec c 60) as [->|H2]; [reflexivity|].
  destruct (N.eq_dec c 62) as [->|H3]; [reflexivity|].
  apply N.eqb_neq in H1, H2, H3.
  rewrite H1. cbn [flat_map app]. rewrite H2. cbn [flat_map app]. now rewrite H3.
Qed.

Lemma data_event_attribute_one_pass (json : jsstring) :
  data_event_attribute json = flat_map attribute_unit json.
Proof.
  unfold data_event_attribute. rewrite escapeHtml_timeline_one_pass.
  rewrite replace_all_flat_map, flat_map_flat_map.
  apply flat_map_ext; intro c; unfold attribute_unit, escape_unit3, apos.
  destruct (N.eq_dec c 39) as [->|H0]; [reflexivity|].
  apply N.eqb_neq in H0. rewrite H0. cbn [flat_map]. now rewrite app_nil_r.
Qed.

(** X5.  The three-replacement [escapeHtml] of the timeline page removes
    the angle brackets but passes quotation marks and apostrophes through
    as they are.  The value of [data-event='...'] therefore has its
    apostrophes replaced beforehand; the result contains no apostrophe and
    no angle bracket, and every apostrophe of the JSON text is written as
    [&amp;#39;], the ampersand of its entity escaped in turn. *)
Theorem timeline_escaping_keeps_quotes (s json : jsstring) :
  free_of is_angle (escapeHtml_timeline s) /\
  filter is_quote (escapeHtml_timeline s) = filter is_quote s /\
  data_event_attribute json = flat_map attribute_unit json /\
  free_of (fun c => N.eqb c 39 || is_angle c) (data_event_attribute json).
Proof.
  repeat split.
  - rewrite escapeHtml_timeline_one_pass. apply free_of_flat_map. intro c.
    unfold free_of, escape_unit3, is_angle.
    destruct (N.eqb c 38) eqn:E1; [reflexivity|].
    destruct (N.eqb c 60) eqn:E2; [reflexivity|].
    destruct (N.eqb c 62) eqn:E3; [reflexivity|].
    cbn [forallb]. now rewrite E2, E3.
  - rewrite escapeHtml_timeline_one_pass.
    induction s as [|c r IH]; [reflexivity|].
    cbn [flat_map]. rewrite filter_app, IH. unfold escape_unit3.
    destruct (N.eq_dec c 38) as [->|H1]; [reflexivity|].
    destruct (N.eq_dec c 60) as [->|H2]; [reflexivity|].
    destruct (N.eq_dec c 62) as [->|H3]; [reflexivity|].
    apply N.eqb_neq in H1, H2, H3. rewrite H1, H2, H3.
    cbn [filter]. now destruct (is_quote c).
  - apply data_event_attribute_one_pass.
  - rewrite data_event_attribute_one_pass. apply free_of_flat_map. intro c.
    unfold free_of, attribute_unit, is_angle.
    destruct (N.eqb c 39) eqn:E0; [reflexivity|].
    destruct (N.eqb c 38) eqn:E1; [reflexivity|].
    destruct (N.eqb c 60) eqn:E2; [reflexivity|].
    destruct (N.eqb c 62) eqn:E3; [reflexivity|].
    cbn [forallb]. now rewrite E0, E2, E3.
Qed.

(** An apostrophe inside a summary, as the attribute carries it. *)
Example data_event_attribute_value :
  data_event_attribute (u16 "{summary:" ++ [34%N] ++ u16 "it's" ++ [34%N] ++ u16 "}")
  = u16 "{summary:" ++ [34%N] ++ u16 "it&amp;#39;s" ++ [34%N] ++ u16 "}".
Proof. reflexivity. Qed.

(** *** Normalising twice *)

Lemma replace_ws_single_spaced (b : bool) (s : jsstring) :
  single_spaced (replace_ws b s) /\
  (b = true -> starts_visible (replace_ws b s)).
Proof.
  revert b. induction s as [|c r IH]; intro b; [now split|].
  cbn [replace_ws]. destruct (is_space c) eqn:Ec.
  - destruct (IH true) as [Hs Hv]. specialize (Hv eq_refl).
    destruct b; [now split|]. split; [|discriminate].
    cbn [single_spaced]. split; [|exact Hs].
    destruct (replace_ws true r) as [|y t]; [exact I|].
    simpl in Hv. rewrite Hv. apply andb_false_r.
  - destruct (IH false) as [Hs _]. split; [|intros _; exact Ec].
    cbn [single_spaced]. split; [|exact Hs].
    destruct (replace_ws false r); [exact I | now rewrite Ec].
Qed.

Lemma replace_ws_fixed (s : jsstring) :
  only_plain_spaces s -> single_spaced s ->
  replace_ws false s = s /\ (starts_visible s -> replace_ws true s = s).
Proof.
  induction s as [|x r IH]; intros Hp Hs; [now split|].
  inversion Hp as [|? ? Hx Hr]; subst.
  cbn [single_spaced] in Hs. destruct Hs as [Hxy Hs].
  destruct (IH Hr Hs) as [IH1 IH2].
  cbn [replace_ws]. destruct (is_space x) eqn:Ex.
  - split; [|simpl; congruence].
    rewrite (Hx eq_refl). f_equal. apply IH2.
    destruct r as [|y t]; [exact I|]. simpl. now rewrite andb_true_l in Hxy.
  - split; [|intros _]; now rewrite IH1.
Qed.

Lemma single_spaced_app (a b : jsstring) :
  single_spaced (a ++ b) -> single_spaced a /\ single_spaced b.
Proof.
  induction a as [|x r IH]; [now split|].
  cbn [app single_spaced]. intros [Hxy Hs]. destruct (IH Hs) as [Ha Hb].
  repeat split; try assumption.
  destruct r as [|y t]; [exact I | exact Hxy].
Qed.

Lemma single_spaced_snoc (a : jsstring) (x : N) :
  single_spaced a -> is_space x = false -> single_spaced (a ++ [x]).
Proof.
  intros Ha Hx. induction a as [|y r IH]; [now split|].
  cbn [single_spaced] in Ha. destruct Ha as [Hy Hr].
  cbn [app single_spaced]. split; [|now apply IH].
  destruct r as [|z t]; [cbn; rewrite Hx; apply andb_false_r | exact Hy].
Qed.

Lemma single_spaced_rev (s : jsstring) : single_spaced s -> single_spaced (rev s).
Proof.
  induction s as [|x r IH]; [trivial|].
  cbn [single_spaced]. intros [Hxy Hs]. specialize (IH Hs). cbn [rev].
  destruct r as [|y t]; [now split|].
  cbn [rev] in *. clear Hs.
  revert IH. generalize (rev t). intros l IH.
  induction l as [|z l IHl].
  - cbn. split; [|now split]. now rewrite andb_comm.
  - cbn [app single_spaced] in *. destruct IH as [Hz IH]. split.
    + destruct l; exact Hz.
    + now apply IHl.
Qed.

Lemma dropWhile_split (p : N -> bool) (s : jsstring) :
  exists pre, s = pre ++ dropWhile p s.
Proof.
  induction s as [|c r [pre IH]]; [now exists []|].
  simpl. destruct (p c); [|now exists []].
  exists (c :: pre). simpl. now rewrite <- IH.
Qed.

Lemma single_spaced_dropWhile (p : N -> bool) (s : jsstring) :
  single_spaced s -> single_spaced (dropWhile p s).
Proof.
  intro H. destruct (dropWhile_split p s) as [pre E]. rewrite E in H.
  now apply single_spaced_app in H.
Qed.

Lemma single_spaced_trim (s : jsstring) : single_spaced s -> single_spaced (trim s).
Proof.
  intro H. unfold trim, trimEnd, trimStart.
  now apply single_spaced_rev, single_spaced_dropWhile, single_spaced_rev,
    single_spaced_dropWhile.
Qed.

Lemma dropWhile_visible (p : N -> bool) (s : jsstring) :
  match s with
  | [] => True
  | x :: _ => p x = false
  end -> dropWhile p s = s.
Proof. destruct s as [|x r]; [reflexivity|]. simpl. now intros ->. Qed.

Lemma dropWhile_idem (p : N -> bool) (s : jsstring) :
  dropWhile p (dropWhile p s) = dropWhile p s.
Proof.
  induction s as [|c r IH]; [reflexivity|]. simpl.
  destruct (p c) eqn:E; [exact IH|]. simpl. now rewrite E.
Qed.

(** A trimmed text is empty or starts and ends with a visible character. *)
Lemma trim_shape (s : jsstring) :
  trim s = [] \/
  exists x r, trim s = x :: r /\ is_space x = false /\ trimStart s = x :: skipn 1 (trimStart s).
Proof.
  unfold trim. destruct (trimStart s) as [|x d] eqn:Ed; [now left|].
  right. assert (Hx : is_space x = false).
  { unfold trimStart in Ed. clear -Ed. induction s as [|c r IH]; [discriminate|].
    simpl in Ed. destruct (is_space c) eqn:Ec; [now apply IH|].
    inversion Ed; now subst. }
  destruct (ClassifierFacts.trim_head x d Hx) as [r' E].
  unfold trim, trimStart in E. simpl dropWhile in E. rewrite Hx in E.
  exists x, r'. now repeat split.
Qed.

Lemma trim_idem (s : jsstring) : trim (trim s) = trim s.
Proof.
  destruct (trim_shape s) as [E|(x & r & E & Hx & _)]; [now rewrite E|].
  unfold trim at 1. unfold trimStart. rewrite E. simpl dropWhile. rewrite Hx.
  rewrite <- E. unfold trim, trimEnd.
  now rewrite rev_involutive, dropWhile_idem.
Qed.

Lemma normalize_fixed (text : jsstring) :
  let singleLine := trim (replace_ws false text) in
  trim (replace_ws false singleLine) = singleLine.
Proof.
  intro singleLine.
  assert (P : only_plain_spaces singleLine)
    by apply trim_plain, replace_ws_plain.
  assert (S : single_spaced singleLine)
    by apply single_spaced_trim, replace_ws_single_spaced.
  destruct (replace_ws_fixed P S) as [E _]. rewrite E. apply trim_idem.
Qed.

Lemma trimEnd_visible_end (s : jsstring) (x : N) :
  is_space x = false -> trimEnd (s ++ [x]) = s ++ [x].
Proof.
  intro Hx. unfold trimEnd. rewrite rev_app_distr. simpl. rewrite Hx.
  simpl. now rewrite rev_involutive.
Qed.

(** X6.  [buildSnippet] is idempotent: building the snippet of a snippet
    gives the snippet back, whether or not the first pass truncated; and a
    snippet never starts with white space. *)
Theorem buildSnippet_idempotent (text : jsstring) :
  Search.buildSnippet (Search.buildSnippet text) = Search.buildSnippet text /\
  starts_visible (Search.buildSnippet text).
Proof.
  set (singleLine := trim (replace_ws false text)).
  assert (P : only_plain_spaces singleLine)
    by apply trim_plain, replace_ws_plain.
  assert (S : single_spaced singleLine)
    by apply single_spaced_trim, replace_ws_single_spaced.
  assert (V : starts_visible singleLine).
  { unfold singleLine.
    destruct (trim_shape (replace_ws false text)) as [E|(x & r & E & Hx & _)];
      rewrite E; [exact I | exact Hx]. }
  destruct (Nat.le_gt_cases (List.length singleLine) 220) as [Hlen|Hlen].
  - rewrite (SearchFacts.buildSnippet_short text Hlen). fold singleLine.
    split; [|exact V].
    assert (F : trim (replace_ws false singleLine) = singleLine)
      by apply normalize_fixed.
    rewrite SearchFacts.buildSnippet_short; rewrite F;
      [reflexivity | exact Hlen].
  - rewrite (SearchFacts.buildSnippet_long text Hlen). fold singleLine.
    set (cut := firstn 220 singleLine ++ [Search.ellipsis]).
    assert (Lc : List.length (firstn 220 singleLine) = 220%nat)
      by (rewrite length_firstn; lia).
    assert (Hcut : trim (replace_ws false cut) = cut).
    { assert (Pc : only_plain_spaces cut).
      { unfold cut, only_plain_spaces. apply Forall_app. split.
        - rewrite <- (firstn_skipn 220 singleLine) in P.
          unfold only_plain_spaces in P. apply Forall_app in P. tauto.
        - constructor; [discriminate | constructor]. }
      assert (Sc : single_spaced cut).
      { unfold cut. apply single_spaced_snoc; [|reflexivity].
        rewrite <- (firstn_skipn 220 singleLine) in S.
        now apply single_spaced_app in S. }
      destruct (replace_ws_fixed Pc Sc) as [E _]. rewrite E.
      unfold trim, trimStart. rewrite dropWhile_visible.
      - unfold cut. now apply trimEnd_visible_end.
      - unfold cut. destruct singleLine as [|x r]; [simpl in Hlen; lia|].
        exact V. }
    assert (Vc : starts_visible cut).
    { unfold cut. destruct singleLine as [|x r]; [simpl in Hlen; lia|]. exact V. }
    split; [|exact Vc].
    rewrite SearchFacts.buildSnippet_long; rewrite Hcut.
    + unfold cut. rewrite firstn_app.
      rewrite (@firstn_all2 _ 220 (firstn 220 singleLine)) by lia.
      rewrite Lc, Nat.sub_diag. cbn [firstn]. now rewrite app_nil_r.
    + unfold cut. rewrite length_app, Lc. simpl. lia.
Qed.

End StringHelperFacts.

(** ** The normal form of a snippet *)

Module SnippetFacts.

Import Search JsStringSpec SnippetSpec SearchSpec JsStringFacts SearchFacts
       StringHelperFacts.

Lemma words_space (c : N) (r : jsstring) :
  is_space c = true -> words (c :: r) = words r.
Proof. intro Hc. cbn [words]. now rewrite Hc. Qed.

Lemma words_visible (c : N) (r : jsstring) :
  is_space c = false ->
  words (c :: r)
  = if word_ends r then [c] :: words r
    else match words r with
         | w :: ws => (c :: w) :: ws
         | [] => [[c]]
         end.
Proof. intro Hc. cbn [words]. now rewrite Hc. Qed.

Lemma words_blank (s : jsstring) : forallb is_space s = true -> words s = [].
Proof.
  induction s as [|c r IH]; [reflexivity|]. cbn [forallb]. intro H.
  apply andb_prop in H. destruct H as [Hc Hr]. rewrite (@words_space c r Hc). auto.
Qed.

Lemma words_starts_visible (c : N) (r : jsstring) :
  is_space c = false -> words (c :: r) <> [].
Proof.
  intro Hc. rewrite (@words_visible c r Hc).
  destruct (word_ends r); [discriminate|]. destruct (words r); discriminate.
Qed.

Lemma word_ends_replace_ws (r : jsstring) :
  word_ends (replace_ws false r) = word_ends r.
Proof.
  destruct r as [|d r]; [reflexivity|]. cbn [replace_ws word_ends].
  destruct (is_space d) eqn:Ed; [reflexivity | exact Ed].
Qed.

(** Collapsing the white space keeps the words. *)
Lemma words_replace_ws (s : jsstring) :
  forall b, words (replace_ws b s) = words s.
Proof.
  induction s as [|c r IH]; intro b; [reflexivity|].
  cbn [replace_ws]. destruct (is_space c) eqn:Ec.
  - rewrite (@words_space c r Ec). destruct b; [apply IH|].
    rewrite (@words_space 32%N (replace_ws true r) eq_refl). apply IH.
  - rewrite (@words_visible c r Ec), (@words_visible c (replace_ws false r) Ec),
      word_ends_replace_ws, (IH false). reflexivity.
Qed.

Lemma words_dropWhile (s : jsstring) : words (dropWhile is_space s) = words s.
Proof.
  induction s as [|c r IH]; [reflexivity|]. cbn [dropWhile].
  destruct (is_space c) eqn:Ec; [|reflexivity]. now rewrite (@words_space c r Ec).
Qed.

Lemma words_app_blank (s sp : jsstring) :
  forallb is_space sp = true -> words (s ++ sp) = words s.
Proof.
  intro Hsp. induction s as [|c r IH]; [now apply words_blank|].
  cbn [app]. destruct (is_space c) eqn:Ec.
  - now rewrite (@words_space c r Ec), (@words_space c (r ++ sp) Ec).
  - rewrite (@words_visible c r Ec), (@words_visible c (r ++ sp) Ec), IH.
    replace (word_ends (r ++ sp)) with (word_ends r); [reflexivity|].
    destruct r as [|d r']; [|reflexivity]. cbn [app word_ends].
    destruct sp as [|x t]; [reflexivity|]. cbn [forallb] in Hsp.
    apply andb_prop in Hsp. symmetry. apply Hsp.
Qed.

Lemma takeWhile_dropWhile (p : N -> bool) (s : jsstring) :
  s = takeWhile p s ++ dropWhile p s /\ forallb p (takeWhile p s) = true.
Proof.
  induction s as [|c r [IH1 IH2]]; [now split|]. cbn [takeWhile dropWhile].
  destruct (p c) eqn:Ec; [|now split]. cbn [app forallb].
  rewrite Ec, IH2. split; [now rewrite <- IH1 | reflexivity].
Qed.

Lemma words_trimEnd (s : jsstring) : words (trimEnd s) = words s.
Proof.
  unfold trimEnd.
  destruct (takeWhile_dropWhile is_space (rev s)) as [E Hall].
  assert (Es : s = rev (dropWhile is_space (rev s))
                   ++ rev (takeWhile is_space (rev s))).
  { rewrite <- rev_app_distr, <- E. now rewrite rev_involutive. }
  rewrite Es at 2. symmetry. apply words_app_blank.
  now rewrite forallb_rev.
Qed.

Lemma words_trim (s : jsstring) : words (trim s) = words s.
Proof.
  unfold trim, trimStart. rewrite words_trimEnd. apply words_dropWhile.
Qed.

Lemma join_words_cons (c : N) (w : jsstring) (ws : list jsstring) :
  join_words ((c :: w) :: ws) = c :: join_words (w :: ws).
Proof. destruct ws; reflexivity. Qed.

Lemma last_cons {A : Type} (x : A) (r : list A) (d : A) :
  r <> [] -> last (x :: r) d = last r d.
Proof. destruct r; [contradiction | reflexivity]. Qed.

(** On a text whose white space is single plain spaces and which does not
    end with white space, the words joined again are the text without its
    leading space. *)
Lemma join_words_tidy (s : jsstring) :
  only_plain_spaces s -> single_spaced s -> ends_visible s ->
  join_words (words s) = dropWhile is_space s.
Proof.
  unfold ends_visible.
  induction s as [|c r IH]; intros Hp Hs He; [reflexivity|].
  inversion Hp as [|? ? Hc Hr]; subst.
  cbn [single_spaced] in Hs. destruct Hs as [Hcd Hs].
  assert (Her : r <> [] -> is_space (last r 0%N) = false).
  { intro Hne. now rewrite <- (@last_cons _ c r 0%N Hne). }
  cbn [dropWhile]. destruct (is_space c) eqn:Ec.
  - rewrite (@words_space c r Ec).
    destruct r as [|d r']; [simpl in He; congruence|].
    apply IH; [exact Hr | exact Hs | apply Her; discriminate].
  - rewrite (@words_visible c r Ec).
    destruct r as [|d r']; [reflexivity|].
    specialize (IH Hr Hs (Her ltac:(discriminate))).
    cbn [word_ends]. destruct (is_space d) eqn:Ed.
    + inversion Hr as [|? ? Hd Hr']; subst. pose proof (Hd Ed) as D32. subst d.
      rewrite (@words_space 32%N r' Ed) in *. cbn [dropWhile] in IH. rewrite Ed in IH.
      destruct r' as [|x t].
      * simpl in He. congruence.
      * cbn [single_spaced] in Hs. destruct Hs as [Hdx _].
        rewrite Ed in Hdx. simpl in Hdx.
        cbn [dropWhile] in IH. rewrite Hdx in IH.
        pose proof (@words_starts_visible x t Hdx) as Hne.
        destruct (words (x :: t)) as [|w ws]; [contradiction|].
        change (join_words ([c] :: w :: ws))
          with ([c] ++ 32%N :: join_words (w :: ws)).
        rewrite IH. reflexivity.
    + cbn [dropWhile] in IH. rewrite Ed in IH.
      pose proof (@words_starts_visible d r' Ed) as Hne.
      destruct (words (d :: r')) as [|w ws]; [contradiction|].
      rewrite join_words_cons. now rewrite IH.
Qed.

Lemma last_rev_hd (s : jsstring) (d : N) : last (rev s) d = hd d s.
Proof.
  destruct s as [|x r]; [reflexivity|]. cbn [rev hd]. apply last_last.
Qed.

Lemma dropWhile_hd (p : N -> bool) (s : jsstring) :
  p 0%N = false -> p (hd 0%N (dropWhile p s)) = false.
Proof.
  intro H0. induction s as [|c r IH]; [exact H0|]. cbn [dropWhile].
  destruct (p c) eqn:Ec; [exact IH | exact Ec].
Qed.

Lemma trim_ends_visible (s : jsstring) : ends_visible (trim s).
Proof.
  unfold ends_visible, trim, trimEnd. rewrite last_rev_hd.
  now apply dropWhile_hd.
Qed.

Lemma trim_starts_visible (s : jsstring) : starts_visible (trim s).
Proof.
  destruct (trim_shape s) as [E|(x & r & E & Hx & _)]; rewrite E;
    [exact I | exact Hx].
Qed.

(** The source's pipeline computes the normal form. *)
Lemma singleLine_normal_form (text : jsstring) :
  trim (replace_ws false text) = normal_form text.
Proof.
  set (singleLine := trim (replace_ws false text)).
  assert (P : only_plain_spaces singleLine)
    by apply trim_plain, replace_ws_plain.
  assert (S : single_spaced singleLine)
    by apply single_spaced_trim, replace_ws_single_spaced.
  pose proof (trim_ends_visible (replace_ws false text)) as E.
  pose proof (trim_starts_visible (replace_ws false text)) as V.
  fold singleLine in E, V.
  pose proof (join_words_tidy P S E) as J.
  rewrite (dropWhile_visible is_space singleLine V) in J.
  unfold normal_form. rewrite <- J. unfold singleLine.
  now rewrite words_trim, words_replace_ws.
Qed.

Lemma words_shape (s : jsstring) :
  Forall (fun w => w <> [] /\ forallb nonspace w = true) (words s) /\
  List.concat (words s) = filter nonspace s.
Proof.
  induction s as [|c r [IHw IHc]]; [split; [constructor | reflexivity]|].
  cbn [filter]. destruct (nonspace c) eqn:En.
  - assert (Ec : is_space c = false)
      by (unfold nonspace in En; now destruct (is_space c)).
    assert (Hc : forallb nonspace [c] = true) by (cbn [forallb]; now rewrite En).
    rewrite (@words_visible c r Ec). destruct (word_ends r).
    + split; [constructor; [split; [discriminate | exact Hc] | exact IHw]|].
      cbn [List.concat app]. now rewrite IHc.
    + destruct (words r) as [|w ws].
      * split; [constructor; [split; [discriminate | exact Hc] | constructor]|].
        cbn [List.concat app] in *. now rewrite <- IHc.
      * inversion IHw as [|? ? [Hne Hw] Hws]; subst. split.
        -- constructor; [|exact Hws]. split; [discriminate|].
           cbn [forallb]. now rewrite En, Hw.
        -- cbn [List.concat app] in *. now rewrite IHc.
  - assert (Ec : is_space c = true)
      by (unfold nonspace in En; now destruct (is_space c)).
    rewrite (@words_space c r Ec). now split.
Qed.

(** C2.  Snippet normalisation.  Write [singleLine] for the normal form of
    the input: its words, the maximal runs of code units that are not
    white space, joined by one U+0020 each; so every white-space run
    inside the text has become one space and those at its ends are gone.
    When [singleLine] is longer than 220 code units the snippet is its
    first 220 code units followed by the ellipsis: its length is 221 and it
    ends with the ellipsis.  When the input has at most 220 code units
    (more generally, when [singleLine] has) the snippet is [singleLine].
    It differs from the input in white space only: the other code units
    are the input's, in order; every white space left is a U+0020, no two
    of them are neighbours and none stands at an end.  The lexical and the
    hybrid mapping both set [snippet] to [buildSnippet] of the item's
    text. *)
Theorem buildSnippet_normalizes (text : jsstring) :
  let singleLine := normal_form text in
  ((220 < List.length singleLine)%nat ->
     buildSnippet text = firstn 220 singleLine ++ [ellipsis] /\
     List.length (buildSnippet text) = 221%nat /\
     last (buildSnippet text) 0%N = ellipsis) /\
  ((List.length singleLine <= 220)%nat -> buildSnippet text = singleLine) /\
  ((List.length text <= 220)%nat -> buildSnippet text = singleLine) /\
  (Forall (fun w => w <> [] /\ forallb nonspace w = true) (words text) /\
   List.concat (words text) = filter nonspace text) /\
  filter nonspace singleLine = filter nonspace text /\
  only_plain_spaces singleLine /\
  single_spaced singleLine /\
  starts_visible singleLine /\
  ends_visible singleLine /\
  (List.length (buildSnippet text) <= 221)%nat /\
  (forall r : engine_result,
     snippet (lexical_item r) = buildSnippet (nullish (item_text (row_of r)) []) /\
     snippet (hybrid_item r) = buildSnippet (nullish (item_text (row_of r)) [])).
Proof.
  intro singleLine. unfold singleLine. clear singleLine.
  rewrite <- (singleLine_normal_form text).
  set (singleLine := trim (replace_ws false text)).
  assert (Hlong : (220 < List.length singleLine)%nat ->
                  buildSnippet text = firstn 220 singleLine ++ [ellipsis] /\
                  List.length (buildSnippet text) = 221%nat).
  { intro H. pose proof (buildSnippet_long text H) as E. split; [exact E|].
    rewrite E, length_app, length_firstn.
    change (List.length [ellipsis]) with 1%nat. unfold singleLine in *. lia. }
  split; [|split; [|split; [|split; [|split; [|split; [|split;
    [|split; [|split; [|split]]]]]]]]].
  - intro H. destruct (Hlong H) as [E L]. split; [exact E|]. split; [exact L|].
    rewrite E. apply last_last.
  - apply buildSnippet_short.
  - intro H. apply buildSnippet_short.
    pose proof (trim_length (replace_ws false text)).
    pose proof (replace_ws_length false text). unfold singleLine. lia.
  - apply words_shape.
  - unfold singleLine. now rewrite trim_filter, replace_ws_filter.
  - apply trim_plain, replace_ws_plain.
  - apply single_spaced_trim, replace_ws_single_spaced.
  - apply trim_starts_visible.
  - apply trim_ends_visible.
  - destruct (Nat.le_gt_cases (List.length singleLine) 220) as [H|H].
    + rewrite (buildSnippet_short text H). fold singleLine. lia.
    + destruct (Hlong H) as [_ E]. lia.
  - intro r. split; reflexivity.
Qed.

(** The words of a text, and its normal form. *)
Example normal_form_value :
  words ([32; 9] ++ u16 "offline" ++ [10; 13; 32] ++ u16 "memory" ++ [160])%N
  = [u16 "offline"; u16 "memory"] /\
  normal_form ([32; 9] ++ u16 "offline" ++ [10; 13; 32] ++ u16 "memory" ++ [160])%N
  = u16 "offline memory" /\
  normal_form (u16 "a  b") = u16 "a b".
Proof. vm_compute. repeat split. Qed.

End SnippetFacts.

(** ** Sorting *)

Module OrderFacts.

Import OrderSpec Timeline.

Lemma descending_insert {A : Type} (key : A -> Z) (cmp : A -> A -> Z)
    (x : A) (l : list A) :
  (forall y, In y l -> (0 < cmp x y <-> key x < key y)) ->
  descending key l ->
  descending key (insert_sorted cmp x l).
Proof.
  induction l as [|y r IH]; intros Hc Hd.
  - simpl. split; constructor.
  - cbn [insert_sorted]. destruct Hd as [Hy Hr].
    destruct (0 <? cmp x y) eqn:E.
    + apply Z.ltb_lt, (Hc y (or_introl eq_refl)) in E.
      cbn [descending]. split.
      * eapply Permutation_Forall.
        -- symmetry. apply TimelineFacts.insert_sorted_perm.
        -- constructor; [lia | exact Hy].
      * apply IH; [|exact Hr]. intros z Hz. apply Hc. now right.
    + apply Z.ltb_ge in E.
      assert (Hxy : key y <= key x).
      { destruct (Z.lt_ge_cases (key x) (key y)) as [L|G]; [|lia].
        apply (Hc y (or_introl eq_refl)) in L. lia. }
      cbn [descending]. repeat split; [|exact Hy | exact Hr].
      constructor; [exact Hxy|].
      eapply Forall_impl; [|exact Hy]. intros z Hz. simpl in Hz. lia.
Qed.

(** The sort puts the larger keys first, provided the comparator decides
    by the key on the elements of the list. *)
Lemma sort_descending {A : Type} (key : A -> Z) (cmp : A -> A -> Z) (l : list A) :
  (forall x y, In x l -> In y l -> (0 < cmp x y <-> key x < key y)) ->
  descending key (sort cmp l).
Proof.
  induction l as [|x r IH]; intro Hc; [exact I|].
  cbn [sort fold_right]. apply descending_insert.
  - intros y Hy. apply Hc; [now left | right].
    eapply Permutation_in; [apply TimelineFacts.sort_perm | exact Hy].
  - apply IH. intros a b Ha Hb. apply Hc; now right.
Qed.

Lemma descending_firstn {A : Type} (key : A -> Z) (n : nat) (l : list A) :
  descending key l -> descending key (firstn n l).
Proof.
  revert n. induction l as [|x r IH]; intros n Hd; [now rewrite firstn_nil|].
  destruct n as [|n]; [exact I|]. destruct Hd as [Hx Hr].
  cbn [firstn descending]. split; [|now apply IH].
  rewrite <- (firstn_skipn n r) in Hx. apply Forall_app in Hx. tauto.
Qed.

Lemma slice_to_prefix {A : Type} (n : Z) (l : list A) :
  exists m, ActivityBackend.slice_to n l = firstn m l.
Proof.
  unfold ActivityBackend.slice_to. destruct (n <? 0); eexists; reflexivity.
Qed.

Lemma slice_to_length {A : Type} (n : Z) (l : list A) :
  0 <= n -> Z.of_nat (List.length (ActivityBackend.slice_to n l)) <= n.
Proof.
  intro Hn. unfold ActivityBackend.slice_to.
  replace (n <? 0) with false by (symmetry; apply Z.ltb_ge; lia).
  rewrite length_firstn. lia.
Qed.

Lemma In_firstn {A : Type} (n : nat) (l : list A) (x : A) :
  In x (firstn n l) -> In x l.
Proof.
  intro H. rewrite <- (firstn_skipn n l). apply in_or_app. now left.
Qed.

Lemma In_slice_to {A : Type} (n : Z) (l : list A) (x : A) :
  In x (ActivityBackend.slice_to n l) -> In x l.
Proof.
  destruct (slice_to_prefix n l) as [m E]. rewrite E. apply In_firstn.
Qed.

(** In a descending list nothing behind a prefix exceeds an element of
    the prefix. *)
Lemma descending_split {A : Type} (key : A -> Z) (n : nat) (l : list A) :
  descending key l ->
  Forall (fun old => Forall (fun e => key old <= key e) (firstn n l)) (skipn n l).
Proof.
  revert n. induction l as [|x r IH]; intros n Hd.
  - rewrite skipn_nil. constructor.
  - destruct n as [|n]; cbn [firstn skipn].
    + apply Forall_forall. intros; constructor.
    + destruct Hd as [Hx Hr]. specialize (IH n Hr).
      rewrite Forall_forall in IH. apply Forall_forall. intros old Ho.
      constructor; [|now apply IH].
      rewrite Forall_forall in Hx. apply Hx.
      rewrite <- (firstn_skipn n r). apply in_or_app. now right.
Qed.

End OrderFacts.

(** ** The search adapter: failures, modes, items *)

Module SearchMoreFacts.

Import Search SearchSpec SearchMoreSpec JsStringSpec JsStringFacts SearchFacts.

Lemma buildSnippet_bound (text : jsstring) :
  (List.length (buildSnippet text) <= 221)%nat.
Proof.
  destruct (Nat.le_gt_cases (List.length (trim (replace_ws false text))) 220) as [H|H].
  - rewrite (buildSnippet_short text H).
    generalize dependent (List.length (trim (replace_ws false text))).
    intros n H. lia.
  - rewrite (buildSnippet_long text H), length_app, length_firstn.
    change (List.length [ellipsis]) with 1%nat.
    generalize dependent (List.length (trim (replace_ws false text))).
    intros n H. lia.
Qed.

Lemma blank_query_no_call
    (E : Engine) (cfg : config) (req : SearchRequest) :
  forallb is_space (query req) = true -> search E cfg req = ([], Return []).
Proof. intro H. unfold search. now rewrite (trim_blank _ H). Qed.

(** X7.  The adapter surfaces an engine failure as it is and stops there:
    for a query that is not blank, when [openDb], [initSchema],
    [searchItems] or [hybridSearch] throws, [search] throws the same
    message, the failing call is the last one made, and no item is
    returned. *)
Theorem search_engine_failure_propagates
    (E : Engine) (cfg : config) (req : SearchRequest) (e : jsstring) :
  trim (query req) <> [] ->
  (openDb E (dbPath cfg) = Throw e ->
   search E cfg req = ([CallOpenDb (dbPath cfg)], Throw e)) /\
  (forall d,
     openDb E (dbPath cfg) = Return d -> initSchema E d = Throw e ->
     search E cfg req = ([CallOpenDb (dbPath cfg); CallInitSchema], Throw e)) /\
  (forall d u,
     openDb E (dbPath cfg) = Return d -> initSchema E d = Return u ->
     nullish (mode req) (defaultMode cfg) = lexical ->
     searchItems E d (trim (query req)) (nullish (limit req) (defaultTopK cfg))
     = Throw e ->
     search E cfg req
     = ([CallOpenDb (dbPath cfg); CallInitSchema;
         CallSearchItems (trim (query req)) (nullish (limit req) (defaultTopK cfg))],
        Throw e)) /\
  (forall d u,
     openDb E (dbPath cfg) = Return d -> initSchema E d = Return u ->
     nullish (mode req) (defaultMode cfg) <> lexical ->
     searchItems E d (trim (query req)) 1 = Throw e ->
     search E cfg req
     = ([CallOpenDb (dbPath cfg); CallInitSchema;
         CallSearchItems (trim (query req)) 1],
        Throw e)) /\
  (forall d u esc,
     openDb E (dbPath cfg) = Return d -> initSchema E d = Return u ->
     nullish (mode req) (defaultMode cfg) <> lexical ->
     searchItems E d (trim (query req)) 1 = Return esc ->
     let opts := {| topK := nullish (limit req) (defaultTopK cfg);
                    candidates := nullish (k req) (defaultCandidates cfg);
                    o_semanticWeight := semanticWeight cfg |} in
     hybridSearch E d
       {| mc_dbPath := dbPath cfg; mc_ollamaBaseUrl := ollamaBaseUrl cfg;
          mc_embeddingModel := embeddingModel cfg;
          mc_ollamaTimeoutMs := ollamaTimeoutMs cfg |}
       (escapedQuery esc) opts = Throw e ->
     search E cfg req
     = ([CallOpenDb (dbPath cfg); CallInitSchema;
         CallSearchItems (trim (query req)) 1;
         CallHybridSearch (escapedQuery esc) opts],
        Throw e)).
Proof.
  intro Hq. unfold search.
  destruct (trim (query req)) as [|c q] eqn:Eq; [contradiction|].
  split; [|split; [|split; [|split]]].
  - intro Ho. unfold bind, invoke. now rewrite Ho.
  - intros d Ho Hi. unfold bind, invoke. now rewrite Ho, Hi.
  - intros d u Ho Hi Hm Hs. unfold bind, invoke. rewrite Ho, Hi, Hm.
    unfold searchLexical, bind, invoke. now rewrite Hs.
  - intros d u Ho Hi Hm Hs. unfold bind, invoke. rewrite Ho, Hi.
    destruct (nullish (mode req) (defaultMode cfg)); [contradiction| |];
      unfold searchHybrid, bind, invoke; now rewrite Hs.
  - intros d u esc Ho Hi Hm Hs Hh. unfold bind, invoke. rewrite Ho, Hi.
    destruct (nullish (mode req) (defaultMode cfg)); [contradiction| |];
      unfold searchHybrid, bind, invoke; rewrite Hs; now rewrite Hh.
Qed.

Lemma search_engine_failure_propagates_witness :
  trim (query (MiniEngine.request " memory " None)) <> [] /\
  search locked_engine MiniEngine.cfg (MiniEngine.request " memory " None)
  = ([CallOpenDb (dbPath MiniEngine.cfg)],
     Throw (u16 "unable to open database file")).
Proof.
  split; [discriminate|].
  apply (@search_engine_failure_propagates locked_engine MiniEngine.cfg
           (MiniEngine.request " memory " None)
           (u16 "unable to open database file")).
  - discriminate.
  - reflexivity.
Defined.

(** X8.  The mode [semantic] is served exactly as [hybrid].  When such a
    search returns, the engine was called four times: the store opened,
    the schema initialised, [searchItems] asked for one result with the
    trimmed query (for its escaped form), and [hybridSearch] run on the
    escaped query with [topK] the limit, [candidates] the pool size and
    the configured semantic weight. *)
Theorem semantic_mode_is_hybrid
    (E : Engine) (cfg : config) (q : jsstring) (lim kk : option Z) :
  search E cfg {| query := q; mode := Some semantic; limit := lim; k := kk |}
  = search E cfg {| query := q; mode := Some hybrid; limit := lim; k := kk |} /\
  (forall t items,
     trim q <> [] ->
     search E cfg {| query := q; mode := Some semantic; limit := lim; k := kk |}
     = (t, Return items) ->
     exists esc,
       t = [CallOpenDb (dbPath cfg); CallInitSchema;
            CallSearchItems (trim q) 1;
            CallHybridSearch esc
              {| topK := nullish lim (defaultTopK cfg);
                 candidates := nullish kk (defaultCandidates cfg);
                 o_semanticWeight := semanticWeight cfg |}]).
Proof.
  split; [reflexivity|].
  intros t items Hq H. unfold search in H. cbn [query mode limit k nullish] in H.
  destruct (trim q) as [|c r] eqn:Eq; [contradiction|].
  apply bind_Return in H. destruct H as (t1 & d & t2 & Ho & H & ->).
  apply bind_Return in H. destruct H as (t3 & u & t4 & Hi & H & ->).
  unfold searchHybrid in H.
  apply bind_Return in H. destruct H as (t5 & esc & t6 & Hs & H & ->).
  apply bind_Return in H. destruct H as (t7 & rs & t8 & Hh & H & ->).
  unfold invoke in Ho, Hi, Hs, Hh. unfold ret in H.
  inversion Ho; inversion Hi; inversion Hs; inversion Hh; inversion H; subst.
  now exists (escapedQuery esc).
Qed.

Lemma lexical_item_well_formed (r : engine_result) :
  well_formed_item (lexical_item r) /\ score_embed (lexical_item r) = None.
Proof.
  unfold well_formed_item. cbn. repeat split.
  - apply buildSnippet_bound.
  - discriminate.
Qed.

Lemma hybrid_item_well_formed (r : engine_result) :
  well_formed_item (hybrid_item r).
Proof.
  unfold well_formed_item. cbn. repeat split.
  - apply buildSnippet_bound.
  - discriminate.
Qed.

(** X9.  Every item of a response is of kind [memory], has a source, has
    as id the printed identifier its payload carries, and has as snippet
    the snippet of the full text its payload carries, at most 221 code
    units long; in lexical mode no item has an embedding score. *)
Theorem search_items_well_formed
    (E : Engine) (cfg : config) (req : SearchRequest)
    (t : list call) (items : list SearchItem) :
  search E cfg req = (t, Return items) ->
  Forall well_formed_item items /\
  (nullish (mode req) (defaultMode cfg) = lexical ->
   Forall (fun it => score_embed it = None) items).
Proof.
  intro H. unfold search in H.
  destruct (trim (query req)) as [|c q].
  - apply ret_Return in H. subst. split; [constructor | intros; constructor].
  - apply bind_Return in H. destruct H as (t1 & d & t2 & _ & H & _).
    apply bind_Return in H. destruct H as (t3 & u & t4 & _ & H & _).
    assert (L : forall lim t', searchLexical E d (c :: q) lim = (t', Return items) ->
                Forall (fun it => well_formed_item it /\ score_embed it = None) items).
    { intros lim t' Hs. unfold searchLexical in Hs.
      apply bind_Return in Hs. destruct Hs as (ta & res & tb & _ & Hr & _).
      apply ret_Return in Hr. subst items. apply Forall_forall. intros it Hin.
      apply in_map_iff in Hin. destruct Hin as (r & <- & _).
      apply lexical_item_well_formed. }
    assert (Hy : forall lim cands t',
                searchHybrid E cfg d (c :: q) lim cands = (t', Return items) ->
                Forall well_formed_item items).
    { intros lim cands t' Hs. unfold searchHybrid in Hs.
      apply bind_Return in Hs. destruct Hs as (ta & esc & tb & _ & Hs & _).
      apply bind_Return in Hs. destruct Hs as (tc & rs & td & _ & Hr & _).
      apply ret_Return in Hr. subst items. apply Forall_forall. intros it Hin.
      apply in_map_iff in Hin. destruct Hin as (r & <- & _).
      apply hybrid_item_well_formed. }
    destruct (nullish (mode req) (defaultMode cfg)).
    + apply L in H. split; [|intros _]; eapply Forall_impl; try exact H;
        simpl; tauto.
    + split; [eapply Hy, H | discriminate].
    + split; [eapply Hy, H | discriminate].
Qed.

Lemma search_items_well_formed_witness :
  search (MiniEngine.engine two_rows) MiniEngine.cfg
         (MiniEngine.request "memory" (Some lexical))
  = ([CallOpenDb (dbPath MiniEngine.cfg); CallInitSchema;
      CallSearchItems (u16 "memory") 20],
     Return (map lexical_item two_rows)) /\
  Forall well_formed_item (map lexical_item two_rows).
Proof.
  split; [reflexivity|].
  eapply (@search_items_well_formed (MiniEngine.engine two_rows) MiniEngine.cfg
            (MiniEngine.request "memory" (Some lexical))).
  reflexivity.
Defined.

(** With the default options a request that names only the query runs
    the hybrid search for 20 results out of 80 candidates, weight 0.7. *)
Example search_defaults :
  fst (search (MiniEngine.engine two_rows) MiniEngine.cfg
              (MiniEngine.request "memory" None))
  = [CallOpenDb (dbPath MiniEngine.cfg); CallInitSchema;
     CallSearchItems (u16 "memory") 1;
     CallHybridSearch (u16 "memory")
       {| topK := 20; candidates := 80; o_semanticWeight := 7 # 10 |}].
Proof. reflexivity. Qed.

Import SearchRoute.

(** X10.  The route [GET /memory/search]: a blank or missing [q] is
    answered with status 200 and the empty list without any call to the
    engine, so even when the store cannot be opened; a [mode] that is not
    [lexical], whatever its text, is served as [hybrid]; otherwise the
    answer is status 200 with the items when the search returns, and
    status 500 with a non-empty error message when it throws. *)
Theorem memory_search_route
    (E : Engine) (cfg : config) (q mode : option jsstring) (limit : Z) :
  (forallb is_space (or_else q []) = true ->
   memory_search_handler E cfg q mode limit = ([], Response 200 (Payload []))) /\
  (mode_of_param mode <> lexical ->
   memory_search_handler E cfg q mode limit
   = memory_search_handler E cfg q (Some (u16 "hybrid")) limit) /\
  (match snd (memory_search_handler E cfg q mode limit) with
   | Response st (Payload items) =>
       st = 200 /\
       exists t req, query req = or_else q [] /\ search E cfg req = (t, Return items)
   | Response st (ErrorObject m) =>
       st = 500 /\ m <> [] /\
       exists t req e, query req = or_else q [] /\ search E cfg req = (t, Throw e)
   end).
Proof.
  split; [|split].
  - intro Hb. unfold memory_search_handler.
    rewrite blank_query_no_call; [reflexivity | exact Hb].
  - intro Hm. unfold memory_search_handler.
    change (mode_of_param (Some (u16 "hybrid"))) with hybrid.
    destruct (mode_of_param mode); [contradiction | reflexivity | reflexivity].
  - unfold memory_search_handler.
    destruct (search E cfg _) as [t [items|e]] eqn:Es; simpl.
    + split; [reflexivity|]. eexists t, _. split; [|exact Es]. reflexivity.
    + split; [reflexivity|]. split.
      * unfold message_or, or_else. destruct e; discriminate.
      * eexists t, _, e. split; [|exact Es]. reflexivity.
Qed.

(** The store is locked: a blank query is still answered, a real one is
    answered with status 500 and the engine's message. *)
Example memory_search_locked_store :
  memory_search_handler locked_engine MiniEngine.cfg (Some (u16 "  ")) None 20
  = ([], Response 200 (Payload [])) /\
  memory_search_handler locked_engine MiniEngine.cfg (Some (u16 "memory")) None 20
  = ([CallOpenDb (dbPath MiniEngine.cfg)],
     Response 500 (ErrorObject (u16 "unable to open database file"))).
Proof. split; reflexivity. Qed.

End SearchMoreFacts.

(** ** The placeholder backend *)

Module InMemorySearchFacts.

Import Search SearchMoreSpec OrderSpec OrderFacts InMemorySearch.

Lemma occurrences_nonneg (q : jsstring) (h : jsstring) :
  forall skip, 0 <= occurrences q skip h.
Proof.
  induction h as [|c r IH]; intro skip.
  - simpl. destruct skip; [destruct q|]; lia.
  - cbn [occurrences]. destruct skip as [|k]; [|apply IH].
    destruct (startsWith q (c :: r)).
    + specialize (IH (List.length q - 1)%nat). lia.
    + apply IH.
Qed.

(** A text that contains the pattern has at least one match of it. *)
Lemma occurrences_includes (q : jsstring) (h : jsstring) :
  includes q h = true -> 1 <= occurrences q 0 h.
Proof.
  induction h as [|c r IH]; intro H.
  - cbn [includes] in H. destruct q; [simpl; lia | discriminate].
  - cbn [includes] in H. cbn [occurrences].
    destruct (startsWith q (c :: r)) eqn:E.
    + pose proof (occurrences_nonneg q r (List.length q - 1)). lia.
    + simpl in H. apply IH. exact H.
Qed.

Lemma by_score_integers (a b : SearchItem) (x y : Z) :
  score a = inject_Z x -> score b = inject_Z y ->
  (0 < by_score a b <-> score_key a < score_key b).
Proof.
  intros Ha Hb. unfold by_score, score_key. rewrite Ha, Hb.
  unfold Qminus, Qplus, Qopp, inject_Z. cbn [Qnum Qden]. lia.
Qed.

(** X11.  The placeholder backend returns at most [limit] items (20 when
    the request gives none); every returned item is a stored item with a
    new score, its title and snippet contain the query when both are put
    in lower case, and its score is the number of matches of the query
    there, which is at least 1; the items come with the larger scores
    first. *)
Theorem in_memory_search_ranked
    (toLowerCase : jsstring -> jsstring)
    (items : list SearchItem) (query : jsstring) (limit : option Z) :
  let out := InMemorySearch.search toLowerCase items query limit in
  let q := toLowerCase query in
  (0 <= nullish limit 20 -> Z.of_nat (List.length out) <= nullish limit 20) /\
  Forall (fun r =>
            exists item, In item items /\
              r = with_score item (score r) /\
              includes q (toLowerCase (haystack item)) = true /\
              score r = inject_Z (occurrences q 0 (toLowerCase (haystack item))) /\
              1 <= score_key r) out /\
  descending score_key out.
Proof.
  intros out q.
  assert (Hs : forall r,
            In r (map (fun item =>
                         with_score item
                           (inject_Z (or_one (occurrences q 0
                                                (toLowerCase (haystack item))))))
                      (filter (fun item => includes q (toLowerCase (haystack item)))
                              items)) ->
            exists item, In item items /\
              r = with_score item (score r) /\
              includes q (toLowerCase (haystack item)) = true /\
              score r = inject_Z (occurrences q 0 (toLowerCase (haystack item))) /\
              1 <= score_key r).
  { intros r Hr. apply in_map_iff in Hr. destruct Hr as [item [Er Hi]].
    apply filter_In in Hi. destruct Hi as [Hi Hinc].
    pose proof (occurrences_includes _ _ Hinc) as Hocc.
    assert (Eo : or_one (occurrences q 0 (toLowerCase (haystack item)))
                 = occurrences q 0 (toLowerCase (haystack item))).
    { unfold or_one.
      destruct (occurrences q 0 (toLowerCase (haystack item)) =? 0) eqn:E0;
        [apply Z.eqb_eq in E0; lia | reflexivity]. }
    rewrite Eo in Er. exists item. subst r.
    repeat split; try assumption. }
  split; [|split].
  - intro Hl. apply slice_to_length. exact Hl.
  - apply Forall_forall. intros r Hr. apply Hs.
    apply In_slice_to in Hr.
    eapply Permutation_in; [apply TimelineFacts.sort_perm | exact Hr].
  - unfold out, InMemorySearch.search.
    match goal with |- descending _ (ActivityBackend.slice_to ?n ?l) =>
      destruct (slice_to_prefix n l) as [m Em]; rewrite Em end.
    apply descending_firstn, sort_descending.
    intros x y Hx Hy.
    destruct (Hs x Hx) as [ix [_ [_ [_ [Ex _]]]]].
    destruct (Hs y Hy) as [iy [_ [_ [_ [Ey _]]]]].
    eapply by_score_integers; eassumption.
Qed.

(** Two notes mention the query; the one that mentions it three times
    comes first. *)
Example in_memory_search_value :
  map (fun r => (id r, score r))
      (InMemorySearch.search ascii_lower notes (u16 "BACKUP") None)
  = [(u16 "b", inject_Z 3); (u16 "a", inject_Z 1)].
Proof. reflexivity. Qed.

End InMemorySearchFacts.

(** ** The activity backend, the feed of frontend-v2.ts, the merge of the page *)

Module ActivityFacts.

Import ActivityBackend ActivitySpec OrderSpec OrderFacts.

Lemma geb_nil (a : jsstring) : geb a [] = true.
Proof. destruct a; reflexivity. Qed.

Lemma filter_all {A : Type} (p : A -> bool) (l : list A) :
  (forall x, p x = true) -> filter p l = l.
Proof.
  intro Hp. induction l as [|x r IH]; simpl; [reflexivity|].
  now rewrite Hp, IH.
Qed.

Lemma listActivity_filter (events : list ActivityEvent) (p : option params) :
  listActivity events p
  = slice_to (limit_of p) (filter (fun e => geb (ts e) (since_of p)) events).
Proof.
  unfold listActivity, limit_of, since_of.
  destruct p as [[[[|c r]|] l]|]; cbn [since limit or_else];
    try reflexivity;
    now rewrite (filter_all _ events (fun e => geb_nil (ts e))).
Qed.

(** X12.  [listActivity] answers with a prefix of the stored events that
    are not before [since] (all of them when [since] is missing or empty),
    in their stored order; the prefix has at most [limit] events (20 when
    the call gives none) and is the whole list when the limit is not
    smaller than the number of stored events. *)
Theorem listActivity_window (events : list ActivityEvent) (p : option params) :
  let out := listActivity events p in
  let kept := filter (fun e => geb (ts e) (since_of p)) events in
  (exists m, out = firstn m kept) /\
  (0 <= limit_of p -> Z.of_nat (List.length out) <= limit_of p) /\
  (Z.of_nat (List.length events) <= limit_of p -> out = kept) /\
  Forall (fun e => In e events /\ geb (ts e) (since_of p) = true) out.
Proof.
  intros out kept. unfold out. rewrite listActivity_filter. fold kept.
  split; [|split; [|split]].
  - apply slice_to_prefix.
  - apply slice_to_length.
  - intro Hl. apply TimelineFacts.slice_to_all.
    pose proof (filter_length_le (fun e => geb (ts e) (since_of p)) events) as L.
    fold kept in L. etransitivity; [|exact Hl]. apply Nat2Z.inj_le. exact L.
  - apply Forall_forall. intros e He. apply In_slice_to in He.
    unfold kept in He. apply filter_In in He. exact He.
Qed.

(** With a non-empty [since] and a limit that is not negative. *)
Lemma listActivity_filter_bound (events : list ActivityEvent) (s : jsstring) :
  let out := listActivity events (Some {| since := Some s; limit := Some 100 |}) in
  Z.of_nat (List.length out) <= 100 /\
  Forall (fun a => geb (ts a) s = true) out.
Proof.
  intro out. unfold out. rewrite listActivity_filter.
  unfold limit_of, since_of. cbn [since limit nullish].
  split; [apply slice_to_length; lia|].
  apply Forall_forall. intros e He. apply In_slice_to, filter_In in He.
  destruct He as [_ He]. destruct s; [apply geb_nil | exact He].
Qed.

End ActivityFacts.

Module FeedFacts.

Import Classifier Timeline TimelineSpec ActivitySpec OrderSpec OrderFacts.

Section WithRuntime.

Context `{JsRuntime}.

Lemma session_events_shape (rq : request) (l : list session_entry) :
  forall i evs,
    session_events rq i l = Return evs ->
    List.length evs = List.length l /\
    Forall (fun e => from_session e = true /\ kind e = session) evs.
Proof.
  induction l as [|s r IH]; intros i evs E; cbn [session_events] in E.
  - inversion E. split; [reflexivity | constructor].
  - destruct (session_event rq i s) as [e|] eqn:Es; [|discriminate].
    destruct (session_events rq (S i) r) as [evs'|] eqn:Er; [|discriminate].
    inversion E; subst evs. destruct (IH _ _ Er) as [L F].
    split; [simpl; now rewrite L|].
    constructor; [|exact F].
    unfold session_event in Es.
    destruct (match nonzero (updatedAt s) with
              | Some ms => Date_toISOString ms
              | None => Return (now_iso rq i)
              end); inversion Es; split; reflexivity.
Qed.

Lemma cron_events_shape (l : list job) :
  forall evs,
    cron_events l = Return evs ->
    List.length evs = List.length (filter has_run l) /\
    Forall (fun e => from_task e = true /\ kind e = cron) evs.
Proof.
  induction l as [|t r IH]; intros evs E; cbn [cron_events] in E.
  - inversion E. split; [reflexivity | constructor].
  - cbn [filter]. unfold has_run at 1.
    destruct (nonzero (job_lastRunAtMs t)) as [ms|]; [|now apply IH].
    destruct (Date_toISOString ms) as [stamp|]; [|discriminate].
    destruct (cron_events r) as [evs'|]; [|discriminate].
    inversion E; subst evs. destruct (IH _ eq_refl) as [L F].
    split; [simpl; now rewrite L|].
    constructor; [split; reflexivity | exact F].
Qed.

Lemma filter_none {A : Type} (p : A -> bool) (l : list A) :
  Forall (fun x => p x = false) l -> filter p l = [].
Proof.
  induction 1 as [|x r Hx _ IH]; simpl; [reflexivity|]. now rewrite Hx.
Qed.

Lemma filter_every {A : Type} (p : A -> bool) (l : list A) :
  Forall (fun x => p x = true) l -> filter p l = l.
Proof.
  induction 1 as [|x r Hx _ IH]; simpl; [reflexivity|]. now rewrite Hx, IH.
Qed.

(** X13.  [GET /timeline-data] of frontend-v2.ts always answers with
    status 200 and a list: every event of the list has a [ts] that is not
    before [since] (the parameter, or the default when it is missing or
    empty), the list has at most [limit] events, it is empty when [limit]
    is not a number and when building the events throws, and it holds
    only events that were collected. *)
Theorem timeline_data_window (rq : request) :
  let since := or_else (since_param rq) (default_since rq) in
  exists out,
    timeline_data_handler rq = Response 200 (Payload out) /\
    Forall (fun e => not_before since e = true) out /\
    (forall n, Timeline.limit rq = Some n -> 0 <= n ->
               Z.of_nat (List.length out) <= n) /\
    (Timeline.limit rq = None -> out = []) /\
    (forall e, collect rq = Throw e -> out = []) /\
    (forall e, In e out -> exists events, collect rq = Return events /\ In e events).
Proof.
  intro since. unfold timeline_data_handler. fold since.
  destruct (collect rq) as [events|err].
  - eexists. split; [reflexivity|].
    assert (Hin : forall e,
              In e (slice_limit (Timeline.limit rq)
                      (sort newest_first (filter (not_before since) events))) ->
              In e (filter (not_before since) events)).
    { intros e He. unfold slice_limit in He.
      destruct (Timeline.limit rq) as [n|]; [|destruct He].
      apply In_slice_to in He.
      eapply Permutation_in; [apply TimelineFacts.sort_perm | exact He]. }
    split; [|split; [|split; [|split]]].
    + apply Forall_forall. intros e He. apply Hin, filter_In in He. tauto.
    + intros n Hn Hpos. rewrite Hn. apply slice_to_length, Hpos.
    + intro Hn. now rewrite Hn.
    + discriminate.
    + intros e He. exists events. split; [reflexivity|].
      apply Hin, filter_In in He. tauto.
  - exists []. split; [reflexivity|].
    split; [constructor|]. split; [intros; simpl; lia|].
    split; [reflexivity|]. split; [reflexivity|]. intros e [].
Qed.

(** X14.  What the feed is built from: one event of kind [session] for
    every entry of [sessions.json], one event of kind [cron] for every
    job that has run and none for a job that has not, and at most 100
    events of the activity backend, none of them before [since]. *)
Theorem timeline_data_sources (rq : request) (events : list FeedEvent) :
  collect rq = Return events ->
  let since := or_else (since_param rq) (default_since rq) in
  List.length (filter from_session events)
  = List.length (session_entries (sessions_json rq)) /\
  List.length (filter from_task events)
  = List.length (filter has_run (task_entries (jobs_json rq))) /\
  (List.length (filter from_activity events) <= 100)%nat /\
  Forall (fun e => from_session e = true -> kind e = session) events /\
  Forall (fun e => from_task e = true -> kind e = cron) events /\
  Forall (fun e => from_activity e = true -> not_before since e = true) events.
Proof.
  intros Hc since. unfold collect in Hc. fold since in Hc.
  destruct (session_events rq 0 (session_entries (sessions_json rq)))
    as [ss|] eqn:Es; [|discriminate].
  destruct (cron_events (task_entries (jobs_json rq))) as [cs|] eqn:Ec;
    [|discriminate].
  inversion Hc as [Hev]. clear Hc.
  destruct (session_events_shape _ _ _ Es) as [Ls Fs].
  destruct (cron_events_shape _ Ec) as [Lc Fc].
  set (act := ActivityBackend.listActivity (backend_events rq)
                (Some {| ActivityBackend.since := Some since;
                         ActivityBackend.limit := Some 100 |})) in *.
  assert (La : Z.of_nat (List.length act) <= 100).
  { apply (proj1 (ActivityFacts.listActivity_filter_bound
                    (backend_events rq) since)). }
  assert (Fa : Forall (fun a => geb (ActivityBackend.ts a) since = true) act).
  { apply (proj2 (ActivityFacts.listActivity_filter_bound
                    (backend_events rq) since)). }
  assert (Ss : Forall (fun e => (from_session e = true /\ from_task e = false /\
                                 from_activity e = false) /\ kind e = session) ss).
  { eapply Forall_impl; [|exact Fs]. intros e [Hf Hk].
    unfold from_session, from_task, from_activity in *.
    destruct (details e) as [[| |]|]; try discriminate. now repeat split. }
  assert (Cs : Forall (fun e => (from_session e = false /\ from_task e = true /\
                                 from_activity e = false) /\ kind e = cron) cs).
  { eapply Forall_impl; [|exact Fc]. intros e [Hf Hk].
    unfold from_session, from_task, from_activity in *.
    destruct (details e) as [[| |]|]; try discriminate. now repeat split. }
  assert (Sa : Forall (fun e => (from_session e = false /\ from_task e = false /\
                                 from_activity e = true) /\
                                not_before since e = true)
                      (map activity_event act)).
  { apply Forall_map. eapply Forall_impl; [|exact Fa].
    intros a Ha. now repeat split. }
  subst events. rewrite !filter_app.
  rewrite (@filter_every _ from_session ss),
          (@filter_none _ from_session cs),
          (@filter_none _ from_session (map activity_event act)),
          (@filter_none _ from_task ss),
          (@filter_every _ from_task cs),
          (@filter_none _ from_task (map activity_event act)),
          (@filter_none _ from_activity ss),
          (@filter_none _ from_activity cs),
          (@filter_every _ from_activity (map activity_event act));
    try (eapply Forall_impl; [|first [exact Ss | exact Cs | exact Sa]];
         cbv beta; intros e He; tauto).
  cbn [app]. rewrite !app_nil_r, length_map.
  split; [exact Ls|]. split; [exact Lc|]. split; [lia|].
  split; [|split]; rewrite !Forall_app; repeat split;
    (eapply Forall_impl; [|first [exact Ss | exact Cs | exact Sa]];
     cbv beta; intros e [[H1 [H2 H3]] H4] Hg;
     first [exact H4 | congruence]).
Qed.

End WithRuntime.

Lemma timeline_data_sources_witness :
  collect busy_request = Return busy_events /\
  List.length (filter from_session busy_events) = 2%nat /\
  List.length (filter from_task busy_events) = 1%nat /\
  (List.length (filter from_activity busy_events) <= 100)%nat.
Proof.
  assert (Hc : collect busy_request = Return busy_events)
    by (vm_compute; reflexivity).
  split; [exact Hc|].
  destruct (@timeline_data_sources Mini.runtime busy_request busy_events Hc)
    as [H1 [H2 [H3 _]]].
  split; [exact H1|]. split; [exact H2 | exact H3].
Defined.

(** The feed of that request, newest first: the session that was never
    updated, stamped with the time of the request, the one recent event of
    the backend, the job that ran, the session that was updated. *)
Example timeline_data_value :
  match timeline_data_handler busy_request with
  | Response st (Payload evs) =>
      st = 200 /\
      map (fun e => (kind e, ts e)) evs
      = [(session, Some (u16 "2026-01-02T00:00:00.000Z"));
         (tool, Some (u16 "2026-01-01T12:00:00.000Z"));
         (cron, Some (u16 "2026-01-01T09:00:00.000Z"));
         (session, Some (u16 "2026-01-01T08:00:00.000Z"))]
  | Response _ (ErrorObject _) => False
  end.
Proof. vm_compute. split; reflexivity. Qed.

End FeedFacts.

Module MergeFacts.

Import Classifier Timeline TimelineSpec ActivitySpec OrderSpec OrderFacts
       TimelineFacts.

Section WithRuntime.

Context `{JsRuntime}.

Lemma newest_first_dated {D : Type} (a b : event D) :
  dated a -> dated b -> (0 < newest_first a b <-> time_key a < time_key b).
Proof.
  unfold dated, newest_first, time_key, num_sub. intros Ha Hb.
  destruct (getTime (ts a)), (getTime (ts b)); try contradiction. lia.
Qed.

Lemma sort_newest_first {D : Type} (l : list (event D)) :
  Forall dated l -> descending time_key (sort newest_first l).
Proof.
  intro Hd. apply sort_descending. intros x y Hx Hy.
  rewrite Forall_forall in Hd. apply newest_first_dated; now apply Hd.
Qed.

(** X15.  When the [ts] of every collected event is a date, the answer
    of [GET /timeline-data] of frontend-v2.ts is in the order of time,
    newest first. *)
Theorem timeline_data_newest_first (rq : request) (events : list FeedEvent) :
  collect rq = Return events ->
  Forall dated events ->
  exists out,
    timeline_data_handler rq = Response 200 (Payload out) /\
    descending time_key out.
Proof.
  intros Hc Hd. unfold timeline_data_handler. rewrite Hc.
  eexists. split; [reflexivity|].
  unfold slice_limit. destruct (Timeline.limit rq) as [n|]; [|exact I].
  match goal with |- descending _ (ActivityBackend.slice_to ?n ?l) =>
    destruct (slice_to_prefix n l) as [m Em]; rewrite Em end.
  apply descending_firstn, sort_newest_first.
  apply Forall_forall. intros e He. apply filter_In in He.
  rewrite Forall_forall in Hd. apply Hd. tauto.
Qed.

Lemma fold_remember_from (evs : list (option TimelineEvent)) :
  forall (m : list (jsstring * TimelineEvent)) k e,
    In (k, e) (fold_left remember evs m) ->
    In (k, e) m \/ (In (Some e) evs /\ id e = Some k /\ k <> []).
Proof.
  induction evs as [|ev r IH]; intros m k e Hin; cbn [fold_left] in Hin.
  - now left.
  - destruct (IH _ _ _ Hin) as [Hm|[Hr Hk]]; [|right; split; [now right | exact Hk]].
    unfold remember in Hm. destruct ev as [e0|]; [|now left].
    destruct (id e0) as [[|c s]|] eqn:Hi; try now left.
    apply map_set_In in Hm. destruct Hm as [E|Hm]; [|now left].
    inversion E; subst. right. split; [now left|]. split; [exact Hi | discriminate].
Qed.

Lemma NoDup_map_Some {A : Type} (l : list A) : NoDup l -> NoDup (map Some l).
Proof.
  induction 1 as [|x l Hx _ IH]; simpl; constructor; [|exact IH].
  intro Hin. apply in_map_iff in Hin. destruct Hin as [y [E Hy]].
  inversion E; subst. contradiction.
Qed.

Lemma well_keyed_ids (m : list (jsstring * TimelineEvent)) :
  well_keyed m -> map id (map snd m) = map Some (map fst m).
Proof.
  intros [_ Hid]. induction m as [|[k e] r IH]; simpl; [reflexivity|].
  rewrite (Hid k e (or_introl eq_refl)), IH; [reflexivity|].
  intros k' e' Hin. apply Hid. now right.
Qed.

(** X16.  The list the timeline page keeps after a merge has at most 500
    events, no two of them with the same id, and each of them is an event
    of the cache or of the answer just fetched that has a non-empty
    id. *)
Theorem loadTimeline_merge_bounded (cached fresh : list (option TimelineEvent)) :
  let out := trimmed cached fresh in
  (List.length out <= 500)%nat /\
  NoDup (map id out) /\
  Forall (fun e => In (Some e) (cached ++ fresh) /\ JsString.truthy (id e) = true) out.
Proof.
  intro out. unfold out, trimmed, allEvents.
  assert (Hw : well_keyed (eventMap cached fresh)).
  { apply fold_remember_well_keyed. split; [constructor | intros ? ? []]. }
  split; [|split].
  - rewrite length_firstn. unfold maxEvents. lia.
  - rewrite <- firstn_map. apply SearchFacts.NoDup_firstn.
    eapply Permutation_NoDup.
    + symmetry. apply Permutation_map, sort_perm.
    + pose proof (well_keyed_ids Hw) as E.
      eapply eq_ind_r with (P := @NoDup _); [|exact E].
      apply NoDup_map_Some, Hw.
  - apply Forall_forall. intros e He. apply In_firstn in He.
    eapply Permutation_in in He; [|apply sort_perm].
    apply in_map_iff in He. destruct He as [[k e'] [E Hin]]. simpl in E. subst e'.
    unfold eventMap in Hin. apply fold_remember_from in Hin.
    destruct Hin as [[]|[Hin [Hi Hk]]]. split; [exact Hin|].
    rewrite Hi. destruct k; [contradiction | reflexivity].
Qed.

(** X17.  When the [ts] of every event of the cache and of the answer is
    a date, the list the timeline page keeps is in the order of time,
    newest first: the 500 that are kept are the newest ones. *)
Theorem loadTimeline_newest_first (cached fresh : list (option TimelineEvent)) :
  Forall dated_entry (cached ++ fresh) ->
  descending time_key (allEvents cached fresh) /\
  trimmed cached fresh = firstn 500 (allEvents cached fresh) /\
  Forall (fun old =>
            Forall (fun e => time_key old <= time_key e) (trimmed cached fresh))
         (skipn 500 (allEvents cached fresh)).
Proof.
  intro Hd.
  assert (Hs : descending time_key (allEvents cached fresh)).
  { unfold allEvents. apply sort_newest_first.
    apply Forall_forall. intros e He.
    apply in_map_iff in He. destruct He as [[k e'] [E Hin]]. simpl in E. subst e'.
    unfold eventMap in Hin. apply fold_remember_from in Hin.
    destruct Hin as [[]|[Hin _]].
    rewrite Forall_forall in Hd. exact (Hd _ Hin). }
  split; [exact Hs|]. split; [reflexivity|].
  unfold trimmed, maxEvents.
  apply descending_split, Hs.
Qed.

End WithRuntime.

Lemma timeline_data_newest_first_witness :
  collect busy_request = Return busy_events /\
  Forall dated busy_events /\
  exists out,
    timeline_data_handler busy_request = Response 200 (Payload out) /\
    descending time_key out.
Proof.
  assert (Hc : collect busy_request = Return busy_events)
    by (vm_compute; reflexivity).
  assert (Hd : Forall dated busy_events).
  { unfold busy_events.
    repeat (constructor; [unfold dated; vm_compute; discriminate|]).
    constructor. }
  split; [exact Hc|]. split; [exact Hd|].
  apply (@timeline_data_newest_first Mini.runtime busy_request busy_events Hc Hd).
Defined.

Lemma loadTimeline_newest_first_witness :
  Forall dated_entry
    ([stamped "a" "2026-01-01T08:00:00.000Z"; None]
     ++ [stamped "b" "2026-01-01T09:00:00.000Z"]) /\
  descending time_key
    (allEvents [stamped "a" "2026-01-01T08:00:00.000Z"; None]
               [stamped "b" "2026-01-01T09:00:00.000Z"]).
Proof.
  assert (Hd : Forall dated_entry
                 ([stamped "a" "2026-01-01T08:00:00.000Z"; None]
                  ++ [stamped "b" "2026-01-01T09:00:00.000Z"])).
  { cbn [app].
    repeat (constructor;
            [first [exact I | unfold dated_entry, stamped, dated; vm_compute; discriminate]|]).
    constructor. }
  split; [exact Hd|].
  apply (@loadTimeline_newest_first Mini.runtime _ _ Hd).
Defined.

(** The event fetched last is the newer one and comes first. *)
Example loadTimeline_value :
  map id (trimmed [stamped "a" "2026-01-01T08:00:00.000Z"; None]
                  [stamped "b" "2026-01-01T09:00:00.000Z";
                   stamped "a" "2026-01-01T08:30:00.000Z"])
  = [Some (u16 "b"); Some (u16 "a")].
Proof. vm_compute. reflexivity. Qed.

End MergeFacts.

(** ** The merge of the page and the feed of the handler *)

Module TimelineClaim.

Import Classifier Timeline TimelineSpec ActivitySpec OrderSpec OrderFacts
       TimelineFacts MergeFacts.

(** C1 (as amended).  The merge of the timeline page ([loadTimeline],
    frontend.ts) puts the cached events, then the newly fetched ones, into
    a map keyed by id and sorts its values by time: for every non-empty id
    the sorted list holds exactly one event, the one merged last, whatever
    the time stamps; so of two events with the same id only the
    later-merged one is kept.  The sorted list is newest first when every
    [ts] is a date, and the list the page keeps is its first 500 entries.
    The handler of [GET /timeline-data] of frontend-v2.ts builds no such
    map: its answer is the collected events whose [ts] is not before
    [since], sorted by time (newest first when every [ts] is a date) and
    cut at [limit]; when the limit does not cut, every such event is in
    the answer, two events that share an id among them. *)
Theorem loadTimeline_merge_last_write_wins
    `{JsRuntime} (k : jsstring) (cached fresh : list (option TimelineEvent)) :
  k <> [] ->
  filter (has_id k) (allEvents cached fresh)
  = match last_with_id k (cached ++ fresh) with
    | Some e => [e]
    | None => []
    end /\
  (forall before between after e1 e2,
     cached ++ fresh = before ++ Some e1 :: between ++ Some e2 :: after ->
     id e1 = Some k -> id e2 = Some k ->
     (forall ev, In ev after -> merged_as k ev = false) ->
     filter (has_id k) (allEvents cached fresh) = [e2]) /\
  (Forall dated_entry (cached ++ fresh) ->
   descending time_key (allEvents cached fresh)) /\
  trimmed cached fresh = firstn 500 (allEvents cached fresh) /\
  (forall rq events,
     collect rq = Return events ->
     exists sorted,
       Permutation sorted
         (filter (not_before (or_else (since_param rq) (default_since rq))) events) /\
       (Forall dated events -> descending time_key sorted) /\
       timeline_data_handler rq
       = Response 200
           (Payload
              match Timeline.limit rq with
              | None => []
              | Some n =>
                  if n <? 0
                  then firstn (List.length sorted - Z.to_nat (- n)) sorted
                  else firstn (Z.to_nat n) sorted
              end) /\
       (forall n,
          Timeline.limit rq = Some n -> Z.of_nat (List.length events) <= n ->
          timeline_data_handler rq = Response 200 (Payload sorted))).
Proof.
  intro Hk. split; [|split; [|split; [|split]]].
  - apply allEvents_one_per_id, Hk.
  - intros before between after e1 e2 E H1 H2 Hafter.
    rewrite (allEvents_one_per_id cached fresh Hk), E.
    replace (before ++ Some e1 :: between ++ Some e2 :: after)
      with ((before ++ Some e1 :: between) ++ Some e2 :: after)
      by (rewrite <- app_assoc; reflexivity).
    now rewrite (@last_with_id_later k _ after e2 H2 Hafter).
  - intro Hd. unfold allEvents. apply sort_newest_first.
    apply Forall_forall. intros e He.
    apply in_map_iff in He. destruct He as [[k' e'] [E Hin]]. simpl in E. subst e'.
    unfold eventMap in Hin. apply fold_remember_from in Hin.
    destruct Hin as [[]|[Hin _]].
    rewrite Forall_forall in Hd. exact (Hd _ Hin).
  - reflexivity.
  - intros rq events Hc.
    set (since := or_else (since_param rq) (default_since rq)).
    exists (sort newest_first (filter (not_before since) events)).
    split; [apply sort_perm|]. split; [|split].
    + intro Hd. apply sort_newest_first.
      apply Forall_forall. intros e He. apply filter_In in He.
      rewrite Forall_forall in Hd. apply Hd. tauto.
    + unfold timeline_data_handler. rewrite Hc. fold since.
      unfold slice_limit, ActivityBackend.slice_to.
      destruct (Timeline.limit rq); reflexivity.
    + intros n Hl Hn. unfold timeline_data_handler. rewrite Hc, Hl. fold since.
      unfold slice_limit. rewrite slice_to_all; [reflexivity|].
      pose proof (Permutation_length
                    (sort_perm newest_first (filter (not_before since) events))) as L.
      pose proof (filter_length_le (not_before since) events) as F.
      etransitivity; [|exact Hn]. apply Nat2Z.inj_le.
      eapply Nat.le_trans; [apply Nat.eq_le_incl, L | exact F].
Qed.

(** The cached event carries the later time stamp; the fetched one, merged
    last, is the one kept. *)
Lemma loadTimeline_merge_last_write_wins_witness :
  u16 "2026-01-01T08:00:00.000Z-cron" <> [] /\
  filter (has_id (u16 "2026-01-01T08:00:00.000Z-cron"))
         (allEvents [ev "2026-01-01T09:00:00.000Z" "cached"]
                    [ev "2026-01-01T08:00:00.000Z" "fetched"])
  = unwrap (ev "2026-01-01T08:00:00.000Z" "fetched").
Proof.
  split; [discriminate|].
  apply (@loadTimeline_merge_last_write_wins Mini.runtime
           (u16 "2026-01-01T08:00:00.000Z-cron")
           [ev "2026-01-01T09:00:00.000Z" "cached"]
           [ev "2026-01-01T08:00:00.000Z" "fetched"]).
  discriminate.
Defined.

(** C1 (as stated) fails: a session and a cron job that share the id
    [nightly] both appear in the answer of [GET /timeline-data], the cron
    event first because it is the newer one. *)
Lemma timeline_data_keeps_duplicates_counterexample :
  match timeline_data_handler nightly_request with
  | Response st (Payload evs) =>
      st = 200 /\
      map (fun e => (id e, summary e)) evs
      = [(Some (u16 "nightly"), u16 "Nightly backup");
         (Some (u16 "nightly"), u16 "Nightly session")] /\
      List.length (filter (has_id (u16 "nightly")) evs) = 2%nat
  | Response _ (ErrorObject _) => False
  end.
Proof. vm_compute. repeat split. Qed.

End TimelineClaim.

(** ** More on the provider endpoints of frontend.ts *)

Module HandlersFacts.

Import Tasks Classifier Frontend FrontendSpec HandlersSpec FrontendFacts.

Lemma or_else_nonempty (s : option jsstring) (d : jsstring) :
  d <> [] -> or_else s d <> [].
Proof.
  intro Hd. unfold or_else. destruct s as [[|c r]|]; try exact Hd. discriminate.
Qed.

(** X18.  The two formatters of a schedule in frontend.ts, that of the
    items built from the companion service and that of the CLI fallback,
    give the same text exactly on the regular schedules: they differ on a
    [cron] schedule without expression, on an [every] schedule that rounds
    to zero minutes and on an [at] schedule without time.  The first one
    never gives an empty text. *)
Theorem schedule_formatters_agree (s : option schedule) :
  (cli_schedule s = Some (formatSchedule s) <-> regular s = true) /\
  formatSchedule s <> [].
Proof.
  unfold cli_schedule, formatSchedule, regular.
  destruct s as [sc|]; [|split; [tauto | discriminate]].
  destruct (is_lit (sched_kind sc) "cron").
  { split.
    - destruct (sched_expr sc) as [[|c r]|]; simpl; split; intro E;
        try discriminate; reflexivity.
    - apply or_else_nonempty. discriminate. }
  destruct (is_lit (sched_kind sc) "every").
  { destruct (round_minutes (nullish (sched_everyMs sc) 0) =? 0) eqn:E0; simpl.
    - split; [|discriminate]. split; [|discriminate].
      intro E. inversion E.
    - split; [tauto | discriminate]. }
  destruct (is_lit (sched_kind sc) "at").
  { destruct (sched_at sc) as [[|c r]|]; simpl; split; try discriminate;
      split; intro E; try discriminate; reflexivity. }
  split; [tauto | discriminate].
Qed.

Section Handlers.

Context `{JsRuntime}.

(** X19.  The handler of [/tasks] of frontend.ts runs the CLI exactly
    when the companion service failed.  It answers with status 200 and a
    list, or with status 500 and a non-empty message; status 500 is given
    only when the companion service failed.  An answer of the companion
    service gives one item per job, whether it is an array or an object
    with [jobs]; the output of the CLI gives one item per job of its
    [jobs], so none when it is an array. *)
Theorem tasks_handler_outcomes (plugin : exn cron_payload) (cli : exec_result) :
  (In (Exec cron_list_command) (fst (tasks_handler plugin cli))
   <-> exists e, plugin = Throw e) /\
  (match snd (tasks_handler plugin cli) with
   | Response st (Payload _) => st = 200
   | Response st (ErrorObject m) => st = 500 /\ m <> [] /\ exists e, plugin = Throw e
   end) /\
  (forall jobs,
     plugin = Return (CronArray jobs) \/ plugin = Return (CronObject (Some jobs)) ->
     snd (tasks_handler plugin cli) = Response 200 (Payload (map plugin_item jobs))) /\
  (forall e out data,
     plugin = Throw e -> cli = ExecOk out ->
     JSON_parse_cron (from_first_bracket (strip_ansi out)) = Return data ->
     snd (tasks_handler plugin cli)
     = Response 200 (Payload (map cli_item (cli_jobs data))) /\
     (forall jobs, data = CronArray jobs ->
                   snd (tasks_handler plugin cli) = Response 200 (Payload []))).
Proof.
  split; [|split; [|split]].
  - unfold tasks_handler. destruct plugin as [[jobs|jobs]|e]; simpl.
    + split; [intros [E|[]]; discriminate | intros [e E]; discriminate].
    + split; [intros [E|[]]; discriminate | intros [e E]; discriminate].
    + split; [now exists e|]. intros _.
      destruct cli as [out|e' so]; simpl.
      * destruct (JSON_parse_cron _); simpl; right; now left.
      * right; now left.
  - unfold tasks_handler. destruct plugin as [[jobs|jobs]|e]; simpl;
      try reflexivity.
    destruct cli as [out|e' so]; simpl.
    + destruct (JSON_parse_cron _) as [data|e']; simpl; [reflexivity|].
      split; [reflexivity|]. split; [|now exists e].
      destruct e', e; discriminate.
    + split; [reflexivity|]. split; [|now exists e].
      destruct e', e; discriminate.
  - intros jobs [E|E]; subst plugin; reflexivity.
  - intros e out data Ep Ec Hp. subst plugin cli. unfold tasks_handler. simpl.
    rewrite Hp. split; [reflexivity|]. intros jobs Ed. subst data. reflexivity.
Qed.

(** X20.  Once the cache of [/sessions] holds a truthy value stored at
    time [t0], every request of a run of requests made less than 15
    minutes after [t0] is answered with that value, without any request to
    the companion service or the CLI, and leaves the cache as it is:
    serving from the cache does not extend its life. *)
Theorem sessions_cache_serves_window
    (data : json) (t0 : Z) (reqs : list sessions_request) :
  Js.truthy data = true ->
  Forall (fun rq => rq_now rq - t0 < SESSIONS_TTL_MS) reqs ->
  let c := {| lastSessionsJson := data; lastSessionsAt := t0 |} in
  serve reqs c
  = map (fun _ => {| sessions_effects := [];
                     sessions_response := Response 200 (Payload data);
                     sessions_cache := c |}) reqs.
Proof.
  intros Ht Hw c. induction Hw as [|rq rest Hrq _ IH]; [reflexivity|].
  cbn [serve map].
  assert (E : sessions_handler (rq_plugin rq) (rq_cli rq) (rq_now rq) c
              = {| sessions_effects := [];
                   sessions_response := Response 200 (Payload data);
                   sessions_cache := c |}).
  { unfold sessions_handler, cache_fresh. cbn [lastSessionsJson lastSessionsAt c].
    rewrite Ht. apply Z.ltb_lt in Hrq. now rewrite Hrq. }
  rewrite E. cbn [sessions_cache]. now rewrite IH.
Qed.

Lemma classify_lines_all_strings (lines : list json) :
  forallb is_string lines = true ->
  exists events, classify_lines lines = Return events.
Proof.
  induction lines as [|x r IH]; intro Hs; [now exists []|].
  cbn [forallb] in Hs. apply andb_prop in Hs. destruct Hs as [Hx Hr].
  destruct x; try discriminate. destruct (IH Hr) as [events E].
  cbn [classify_lines]. rewrite E. eexists. reflexivity.
Qed.

Lemma classify_lines_throw (lines : list json) (e : jsstring) :
  classify_lines lines = Throw e ->
  exists x, In x lines /\ is_string x = false.
Proof.
  induction lines as [|x r IH]; intro E; [discriminate|].
  destruct x; try (eexists; split; [now left | reflexivity]).
  cbn [classify_lines] in E.
  destruct (classify_lines r) as [events|e'] eqn:Er; [discriminate|].
  destruct (IH E) as [y [Hy Hs]]. exists y. split; [now right | exact Hs].
Qed.

Lemma as_line_strings (items : list json) :
  forallb is_string (map as_line items) = true.
Proof.
  induction items as [|x r IH]; [reflexivity|].
  cbn [map forallb]. rewrite IH. now destruct x.
Qed.

Lemma map_JStr_strings (l : list jsstring) :
  forallb is_string (map JStr l) = true.
Proof. induction l as [|x r IH]; [reflexivity | exact IH]. Qed.

(** X21.  The handler of [/activity] of frontend.ts runs the CLI exactly
    when the companion service gave no line.  It answers with status 500
    only when the answer of the companion service is an object whose
    [lines] array holds a value that is not a string: the lines of the
    CLI, an array answer and a [logs] array are always answered with
    status 200. *)
Theorem activity_handler_failure_needs_raw_lines
    (plugin : exn json) (cli : exec_result) :
  (In (Exec logs_command) (fst (activity_handler plugin cli))
   <-> plugin_lines (data_of plugin) = []) /\
  (forall st m,
     snd (activity_handler plugin cli) = Response st (ErrorObject m) ->
     m <> [] /\
     exists lines x,
       get "lines" (data_of plugin) = Some (JArr lines) /\
       In x lines /\ is_string x = false).
Proof.
  unfold activity_handler, activity_lines. fold (data_of plugin).
  split.
  - destruct (plugin_lines (data_of plugin)) as [|l ls] eqn:El;
      destruct (classify_lines _); simpl; split;
      first [ intros _; reflexivity
            | intros _; right; left; reflexivity
            | discriminate
            | intros [E|[]]; discriminate ].
  - intros st m E.
    assert (Hl : plugin_lines (data_of plugin) <> [] /\
                 exists e, classify_lines (plugin_lines (data_of plugin)) = Throw e /\
                           m = message_or e "activity failed").
    { destruct (plugin_lines (data_of plugin)) as [|l ls] eqn:El.
      - rewrite classify_lines_strings in E. discriminate.
      - destruct (classify_lines (l :: ls)) as [events|e]; simpl in E;
          [discriminate|].
        split; [discriminate|]. exists e. split; [reflexivity|]. congruence. }
    destruct Hl as [Hne [e [Hc Hm]]]. split.
    { subst m. apply or_else_nonempty. discriminate. }
    destruct (classify_lines_throw _ Hc) as [x [Hx Hs]].
    unfold plugin_lines in *.
    destruct (data_of plugin) as [| | | |items|fields] eqn:Ed.
    + destruct Hx.
    + destruct b; destruct Hx.
    + simpl in Hx. destruct (negb (n =? 0)); simpl in Hx;
        (destruct Hx).
    + simpl in Hx. destruct s; destruct Hx.
    + exfalso. pose proof (as_line_strings items) as Ha.
      rewrite forallb_forall in Ha. rewrite (Ha x Hx) in Hs. discriminate.
    + cbn [Js.truthy] in *.
      destruct (get "lines" (JObj fields)) as [[| | | |lines|]|] eqn:Eg;
        try (destruct (get "logs" (JObj fields)) as [[| | | |logs|]|];
             try (now destruct Hx);
             exfalso; pose proof (as_line_strings logs) as Ha;
             rewrite forallb_forall in Ha; rewrite (Ha x Hx) in Hs; discriminate).
      exists lines, x. repeat split; assumption.
Qed.

End Handlers.

Lemma sessions_cache_serves_window_witness :
  Js.truthy one_session = true /\
  Forall (fun rq => rq_now rq - 1767225600000 < SESSIONS_TTL_MS) quarter_hour /\
  map sessions_response
      (serve quarter_hour
         {| lastSessionsJson := one_session; lastSessionsAt := 1767225600000 |})
  = [Response 200 (Payload one_session);
     Response 200 (Payload one_session);
     Response 200 (Payload one_session)].
Proof.
  assert (Ht : Js.truthy one_session = true) by reflexivity.
  assert (Hw : Forall (fun rq => rq_now rq - 1767225600000 < SESSIONS_TTL_MS)
                      quarter_hour).
  { repeat constructor. }
  split; [exact Ht|]. split; [exact Hw|].
  rewrite (@sessions_cache_serves_window Mini.runtime one_session 1767225600000
             quarter_hour Ht Hw).
  reflexivity.
Defined.

(** The same three requests when the cache holds [null]: each of them
    asks the companion service and the CLI again. *)
Example sessions_null_is_never_served :
  map sessions_effects (serve quarter_hour initial_cache)
  = [[FetchPlugin "/clawscope/sessions"; Exec sessions_command];
     [FetchPlugin "/clawscope/sessions"; Exec sessions_command];
     [FetchPlugin "/clawscope/sessions"; Exec sessions_command]].
Proof. reflexivity. Qed.

End HandlersFacts.

(** ** The events of the classifiers *)

Module ClassifierMoreFacts.

Import Classifier ClassifierSpec ClassifierMoreSpec ClassifierFacts.

Lemma takeWhile_all (p : N -> bool) (l : jsstring) :
  forallb p (takeWhile p l) = true.
Proof.
  induction l as [|x r IH]; [reflexivity|]. cbn [takeWhile].
  destruct (p x) eqn:E; [|reflexivity]. cbn [forallb]. now rewrite E, IH.
Qed.

(** The capture of [/P(\w+)/] is a non-empty word. *)
Lemma match_word_after_word (prefix s w : jsstring) :
  match_word_after prefix s = Some w ->
  w <> [] /\ forallb is_word w = true.
Proof.
  induction s as [|c r IH]; intro E; [discriminate|].
  cbn [match_word_after] in E.
  destruct (startsWith prefix (c :: r)); [|now apply IH].
  destruct (takeWhile is_word (skipn (List.length prefix) (c :: r)))
    as [|x t] eqn:Et; [now apply IH|].
  inversion E; subst w. split; [discriminate|].
  rewrite <- Et. apply takeWhile_all.
Qed.

Lemma slice0_length (n : nat) (s : jsstring) :
  (List.length (slice0 n s) <= n)%nat.
Proof. unfold slice0. rewrite length_firstn. lia. Qed.

Lemma alert_level (l : jsstring) (b : bool) :
  (JsString.eqb l (u16 "warn") || JsString.eqb l (u16 "error")) && b = true ->
  Some l = Some (u16 "warn") \/ Some l = Some (u16 "error").
Proof.
  intro E. apply andb_prop in E. destruct E as [E _].
  apply orb_prop in E. destruct E as [E|E]; apply eqb_eq in E; subst l; auto.
Qed.

Lemma identified_intro (t : option jsstring) (suffix : jsstring) :
  suffix <> [] ->
  exists s, s <> [] /\
            time_id t (45%N :: suffix) = Some (Tasks.interpolate t ++ 45%N :: s).
Proof. intro Hs. exists suffix. split; [exact Hs | reflexivity]. Qed.

Ltac split_rules :=
  repeat match goal with
         | |- context [if ?b then _ else _] => destruct b eqn:?
         | |- context [match ?x with _ => _ end] => destruct x eqn:?
         end.

Ltac shape :=
  match goal with
  | |- Forall _ [] => constructor
  | |- Forall _ [_] =>
      constructor; [|constructor];
      unfold shaped, identified, mk, tool_summary; cbn [level kind summary id ts];
      repeat split;
      try discriminate;
      try (intros _; apply slice0_length);
      try (intros [E|E]; first [discriminate E | apply slice0_length]);
      try (intros _; eapply alert_level; eassumption);
      try (intros _;
           match goal with
           | Hw : match_word_after _ _ = Some ?w |- _ =>
               destruct (match_word_after_word _ _ Hw) as [Hne Hword];
               exists w; repeat split; auto;
               match goal with
               | |- context [if ?b then _ else _] => destruct b; auto
               end
           end);
      try assumption;
      try (apply identified_intro; first [discriminate | assumption]);
      try (match goal with
           | Hw : match_word_after _ _ = Some ?w |- exists _, _ =>
               exists w; split;
               [exact (proj1 (match_word_after_word _ _ Hw)) | reflexivity]
           end)
  end.

Section Rules.

Context `{JsRuntime}.

(** X22.  Every event of the three classifiers of log lines has the
    shape described above, with the summary of a cron event cut at 60
    code units and that of a memory event or an alert at 80 in frontend.ts
    (at 100 and 150 in the MCP tool).  The events of [/timeline-data] and
    of [/activity] carry an id made of the time of the line, a hyphen and
    a suffix, those of the MCP tool carry none; only [/timeline-data]
    yields events of kind [memory], and none of its events is older than
    the lower bound. *)
Theorem classified_events_shape (sinceTs : option Z) (line : jsstring) :
  Forall (fun e => shaped 60 80 e /\ identified e /\
                   num_lt (getTime (ts e)) sinceTs = false)
         (classify_timeline sinceTs line) /\
  Forall (fun e => shaped 60 80 e /\ identified e /\ kind e <> memory)
         (classify_activity line) /\
  Forall (fun e => shaped 100 150 e /\ id e = None /\ kind e <> memory)
         (classify_mcp line).
Proof.
  split; [|split].
  - unfold classify_timeline. split_rules; shape.
  - unfold classify_activity. split_rules; shape.
  - unfold classify_mcp. split_rules; shape.
Qed.

(** X23.  A line whose message contains the text of the version
    mismatch gives no alert, whatever its level, in any of the three
    classifiers. *)
Theorem benign_message_never_alerts
    (sinceTs : option Z) (line : jsstring) (parsed : log_record) :
  JSON_parse_log line = Return parsed ->
  includes benign (or_else (log_message parsed) []) = true ->
  Forall (fun e => kind e <> alert) (classify_timeline sinceTs line) /\
  Forall (fun e => kind e <> alert) (classify_activity line) /\
  Forall (fun e => kind e <> alert) (classify_mcp line).
Proof.
  intros Hp Hb.
  unfold classify_timeline, classify_activity, classify_mcp. rewrite Hp, Hb.
  rewrite !andb_false_r.
  repeat split; split_rules;
    repeat constructor; unfold mk; cbn [kind]; discriminate.
Qed.

End Rules.

Lemma benign_message_never_alerts_witness :
  JSON_parse_log benign_text = Return benign_rec /\
  includes benign (or_else (log_message benign_rec) []) = true /\
  classify_timeline None benign_text = [] /\
  Forall (fun e => kind e <> alert) (classify_activity benign_text).
Proof.
  assert (Hp : JSON_parse_log benign_text = Return benign_rec)
    by (vm_compute; reflexivity).
  assert (Hb : includes benign (or_else (log_message benign_rec) []) = true)
    by (vm_compute; reflexivity).
  split; [exact Hp|]. split; [exact Hb|]. split; [vm_compute; reflexivity|].
  exact (proj1 (proj2 (@benign_message_never_alerts Mini.runtime None
                         benign_text benign_rec Hp Hb))).
Defined.

End ClassifierMoreFacts.

(** ** The activity tool of the MCP server and the log timeline *)

Module LogFacts.

Import Classifier Frontend Timeline ClassifierFacts ClassifierMoreSpec
       ClassifierMoreFacts
       ActivitySpec OrderSpec OrderFacts.

Lemma flat_map_le_1 {A B : Type} (f : A -> list B) (l : list A) :
  (forall x, List.length (f x) <= 1)%nat ->
  (List.length (flat_map f l) <= List.length l)%nat.
Proof.
  intro Hf. induction l as [|x r IH]; [simpl; lia|].
  cbn [flat_map]. rewrite length_app. specialize (Hf x). simpl. lia.
Qed.

Lemma Forall_flat_map_each {A B : Type} (P : B -> Prop) (f : A -> list B)
    (l : list A) :
  (forall x, Forall P (f x)) -> Forall P (flat_map f l).
Proof.
  intro Hf. induction l as [|x r IH]; [constructor|].
  cbn [flat_map]. apply Forall_app. split; [apply Hf | exact IH].
Qed.

Section WithRuntime.

Context `{JsRuntime}.

Lemma classify_mcp_no_id (line : jsstring) :
  Forall (fun e => id e = None) (classify_mcp line).
Proof.
  unfold classify_mcp. split_rules; repeat constructor.
Qed.

Lemma classify_timeline_since (sinceTs : option Z) (line : jsstring) :
  Forall (fun e => num_lt (getTime (ts e)) sinceTs = false)
         (classify_timeline sinceTs line).
Proof.
  unfold classify_timeline. split_rules; repeat constructor; assumption.
Qed.

(** X24.  The tool [clawscope_get_activity] asks the CLI for [limit] log
    lines (50 when no limit is given) and never throws.  When the command
    fails the result is the error with the message of the failure.
    Otherwise it is a prefix of the classified events in the order of the
    log, so the first ones and not the latest; it has at most [limit]
    events and at most one per line, and none of them has an id. *)
Theorem get_activity_prefix (limit : option Z) (cli : exec_result) :
  fst (Mcp.get_activity limit cli) = [Exec (Mcp.logs_command (nullish limit 50))] /\
  match cli with
  | ExecFail e _ => snd (Mcp.get_activity limit cli) = Mcp.ErrorText e
  | ExecOk out =>
      let lines := split_lines (strip_ansi out) in
      exists evs,
        snd (Mcp.get_activity limit cli) = Mcp.Content evs /\
        (exists m, evs = firstn m (flat_map classify_mcp lines)) /\
        (0 <= nullish limit 50 ->
         Z.of_nat (List.length evs) <= nullish limit 50) /\
        (List.length evs <= List.length lines)%nat /\
        Forall (fun e => id e = None) evs
  end.
Proof.
  split; [reflexivity|].
  destruct cli as [out|e so]; [|reflexivity].
  intro lines. unfold Mcp.get_activity. cbn [Mcp.runOpenclaw snd]. fold lines.
  eexists. split; [reflexivity|].
  destruct (slice_to_prefix (nullish limit 50) (flat_map classify_mcp lines))
    as [m Em].
  split; [now exists m|]. split; [apply slice_to_length|]. split.
  - rewrite Em, length_firstn.
    pose proof (@flat_map_le_1 _ _ classify_mcp lines classify_mcp_le_1). lia.
  - apply Forall_forall. intros e He. apply In_slice_to in He.
    pose proof (@Forall_flat_map_each _ _ _ classify_mcp lines classify_mcp_no_id) as F.
    rewrite Forall_forall in F. now apply F.
Qed.

(** X25.  [GET /timeline-data] of frontend.ts always answers with status
    200, also when the CLI fails: the events are those classified from
    whatever output there is, each of them once, at most one per line and
    none of them with a time before [since]; with no output there is no
    event.  The limit goes into the command only. *)
Theorem log_timeline_answer
    (since_param : option jsstring) (default_since : jsstring)
    (limit : option Z) (cli : exec_result) :
  let sinceTs := Date_getTime (or_else since_param default_since) in
  let lines := split_lines (strip_ansi (cli_stdout cli)) in
  exists out,
    LogTimeline.timeline_data_handler since_param default_since limit cli
    = ([Exec (LogTimeline.logs_command limit)], Response 200 (Payload out)) /\
    Permutation out (flat_map (classify_timeline sinceTs) lines) /\
    (List.length out <= List.length lines)%nat /\
    Forall (fun e => num_lt (getTime (ts e)) sinceTs = false) out /\
    (cli_stdout cli = [] -> out = []).
Proof.
  intros sinceTs lines. unfold LogTimeline.timeline_data_handler.
  exists (sort newest_first (flat_map (classify_timeline sinceTs) lines)).
  split; [reflexivity|].
  pose proof (TimelineFacts.sort_perm newest_first
                (flat_map (classify_timeline sinceTs) lines)) as P.
  split; [exact P|]. split; [|split].
  - eapply Nat.le_trans; [apply Nat.eq_le_incl, (Permutation_length P)|].
    apply flat_map_le_1. intro x. apply classify_timeline_le_1.
  - eapply Permutation_Forall; [symmetry; exact P|].
    apply Forall_flat_map_each. intro x. apply classify_timeline_since.
  - intro E. unfold lines. rewrite E. reflexivity.
Qed.

(** X26.  When the time of every classified event is a date, the answer
    of [GET /timeline-data] of frontend.ts is in the order of time, newest
    first. *)
Theorem log_timeline_newest_first
    (since_param : option jsstring) (default_since : jsstring)
    (limit : option Z) (cli : exec_result) :
  Forall dated
    (flat_map (classify_timeline (Date_getTime (or_else since_param default_since)))
              (split_lines (strip_ansi (cli_stdout cli)))) ->
  exists out,
    snd (LogTimeline.timeline_data_handler since_param default_since limit cli)
    = Response 200 (Payload out) /\
    descending time_key out.
Proof.
  intro Hd. unfold LogTimeline.timeline_data_handler. cbn [snd].
  eexists. split; [reflexivity|].
  apply MergeFacts.sort_newest_first, Hd.
Qed.

End WithRuntime.

Lemma log_timeline_newest_first_witness :
  Forall dated
    (flat_map (classify_timeline
                 (Date_getTime (or_else None (u16 "2026-01-01T00:00:00.000Z"))))
              (split_lines (strip_ansi (cli_stdout (ExecOk two_log_lines))))) /\
  exists out,
    snd (LogTimeline.timeline_data_handler None (u16 "2026-01-01T00:00:00.000Z")
           (Some 50) (ExecOk two_log_lines))
    = Response 200 (Payload out) /\
    descending time_key out.
Proof.
  assert (Hd : Forall dated
                 (flat_map (classify_timeline
                              (Date_getTime
                                 (or_else None (u16 "2026-01-01T00:00:00.000Z"))))
                           (split_lines
                              (strip_ansi (cli_stdout (ExecOk two_log_lines)))))).
  { apply Forall_forall. intros e He. vm_compute in He.
    destruct He as [E|[E|[]]]; subst e; unfold dated; vm_compute; discriminate. }
  split; [exact Hd|].
  apply (@log_timeline_newest_first Mini.runtime None
           (u16 "2026-01-01T00:00:00.000Z") (Some 50) (ExecOk two_log_lines) Hd).
Defined.

(** The warning is the later of the two lines and comes first; the tool
    of the MCP server keeps the order of the log. *)
Example log_timeline_value :
  match snd (LogTimeline.timeline_data_handler None (u16 "2026-01-01T00:00:00.000Z")
               (Some 50) (ExecOk two_log_lines)) with
  | Response st (Payload evs) => st = 200 /\ map kind evs = [alert; cron]
  | Response _ (ErrorObject _) => False
  end /\
  match snd (Mcp.get_activity None (ExecOk two_log_lines)) with
  | Mcp.Content evs => map kind evs = [cron; alert]
  | Mcp.ErrorText _ => False
  end.
Proof. vm_compute. repeat split. Qed.

End LogFacts.

(** ** The graph of frontend-v2.ts *)

Module GraphFacts.

Import Graph GraphSpec ClassifierFacts.

Lemma add_node_cases (k : jsstring) (m : list node) :
  (In k (ids m) /\ add_node k m = m) \/
  (~ In k (ids m) /\ add_node k m = m ++ [{| node_id := k; label := k |}]).
Proof.
  unfold add_node.
  destruct (existsb (fun n => JsString.eqb (node_id n) k) m) eqn:E.
  - left. split; [|reflexivity]. apply existsb_exists in E.
    destruct E as [n [Hn En]]. apply eqb_eq in En. subst k.
    unfold ids. now apply in_map.
  - right. split; [|reflexivity]. intro Hin. unfold ids in Hin.
    apply in_map_iff in Hin. destruct Hin as [n [En Hn]].
    assert (Ex : existsb (fun n => JsString.eqb (node_id n) k) m = true).
    { apply existsb_exists. exists n. split; [exact Hn|].
      rewrite En. apply eqb_refl. }
    congruence.
Qed.

Lemma add_node_incl (k x : jsstring) (m : list node) :
  In x (ids m) -> In x (ids (add_node k m)).
Proof.
  intro Hx. destruct (add_node_cases k m) as [[_ E]|[_ E]]; rewrite E;
    [exact Hx|]. unfold ids. rewrite map_app. apply in_or_app. now left.
Qed.

Lemma add_node_In (k : jsstring) (m : list node) : In k (ids (add_node k m)).
Proof.
  destruct (add_node_cases k m) as [[Hk E]|[_ E]]; rewrite E; [exact Hk|].
  unfold ids. rewrite map_app. apply in_or_app. right. now left.
Qed.

Lemma add_node_NoDup (k : jsstring) (m : list node) :
  NoDup (ids m) -> NoDup (ids (add_node k m)).
Proof.
  intro Hn. destruct (add_node_cases k m) as [[_ E]|[Hk E]]; rewrite E;
    [exact Hn|]. unfold ids. rewrite map_app. simpl.
  apply NoDup_app; [exact Hn | repeat constructor; intros [] |].
  intros x Hx [Hx'|[]]. subst x. contradiction.
Qed.

Lemma add_node_Forall (P : node -> Prop) (k : jsstring) (m : list node) :
  Forall P m -> P {| node_id := k; label := k |} -> Forall P (add_node k m).
Proof.
  intros Hm Hk. destruct (add_node_cases k m) as [[_ E]|[_ E]]; rewrite E;
    [exact Hm|]. apply Forall_app. split; [exact Hm | now constructor].
Qed.

Lemma visit_closed (skip : fact -> bool) (acc : list node * list edge) (f : fact) :
  closed (fst acc) (snd acc) ->
  closed (fst (visit skip acc f)) (snd (visit skip acc f)).
Proof.
  destruct acc as [ns es]. intros (Hn & Hns & Hes). unfold visit.
  destruct (skip f); [now repeat split|]. cbn [fst snd].
  split; [|split].
  - now apply add_node_NoDup, add_node_NoDup.
  - assert (Hold : Forall (fun n => label n = node_id n /\
                     exists e, In e (es ++ [edge_of f]) /\
                               (from e = node_id n \/ to e = node_id n)) ns).
    { eapply Forall_impl; [|exact Hns]. intros n [Hl [e [He Hend]]].
      split; [exact Hl|]. exists e. split; [|exact Hend].
      apply in_or_app. now left. }
    apply add_node_Forall; [apply add_node_Forall; [exact Hold|]|];
      (split; [reflexivity|]; exists (edge_of f);
       split; [apply in_or_app; right; now left | simpl; auto]).
  - apply Forall_app. split.
    + eapply Forall_impl; [|exact Hes]. intros e [Hf Ht].
      split; now apply add_node_incl, add_node_incl.
    + constructor; [|constructor]. cbn [edge_of from to]. split.
      * apply add_node_incl, add_node_In.
      * apply add_node_In.
Qed.

Lemma fold_visit_closed (skip : fact -> bool) (facts : list fact) :
  forall acc,
    closed (fst acc) (snd acc) ->
    closed (fst (fold_left (visit skip) facts acc))
           (snd (fold_left (visit skip) facts acc)).
Proof.
  induction facts as [|f r IH]; intros acc Hc; [exact Hc|].
  cbn [fold_left]. apply IH, visit_closed, Hc.
Qed.

Lemma build_closed (skip : fact -> bool) (facts : list fact) :
  closed (fst (build skip facts)) (snd (build skip facts)).
Proof.
  apply fold_visit_closed. repeat split; constructor.
Qed.

Lemma fold_visit_edges (skip : fact -> bool) (facts : list fact) :
  forall acc,
    snd (fold_left (visit skip) facts acc)
    = snd acc ++ map edge_of (filter (fun f => negb (skip f)) facts).
Proof.
  induction facts as [|f r IH]; intro acc; cbn [fold_left filter].
  - now rewrite app_nil_r.
  - rewrite IH. unfold visit. destruct (skip f); cbn [negb snd map];
      [reflexivity|]. now rewrite <- app_assoc.
Qed.

Lemma build_edges (skip : fact -> bool) (facts : list fact) :
  snd (build skip facts) = map edge_of (filter (fun f => negb (skip f)) facts).
Proof. unfold build. now rewrite fold_visit_edges. Qed.

Lemma closed_empty : closed [] [].
Proof. repeat split; constructor. Qed.

Lemma sound_failed (db : GraphDb) (limit : option Z) (minConf : option Q)
    (entity : option jsstring) (e : jsstring) :
  sound_answer db limit minConf entity
    {| nodes := []; edges := []; stats := JObj []; error := Some e |}.
Proof.
  split; [apply closed_empty|]. split; [now intros | discriminate].
Qed.

Lemma sound_all (db : GraphDb) (limit : option Z) (minConf : option Q)
    (entity : option jsstring) (facts : list fact)
    (ns : list node) (es : list edge) (st : json) :
  JsString.truthy entity = false ->
  getAllFacts db limit = Return facts ->
  build (below minConf) facts = (ns, es) ->
  sound_answer db limit minConf entity
    {| nodes := ns; edges := es; stats := st; error := None |}.
Proof.
  intros He Hf Hb.
  pose proof (build_closed (below minConf) facts) as Hc.
  pose proof (build_edges (below minConf) facts) as Hedges.
  rewrite Hb in Hc, Hedges. cbn [fst snd] in Hc, Hedges.
  split; [exact Hc|]. split; [discriminate|]. intros _.
  assert (G : exists facts',
            getAllFacts db limit = Return facts' /\
            es = map edge_of (filter (fun f => negb (below minConf f)) facts') /\
            forall m, minConf = Some m ->
                      Forall (fun e => (m <= edge_confidence e)%Q) es).
  { exists facts. split; [exact Hf|]. split; [exact Hedges|].
    intros m Hm. rewrite Hedges. apply Forall_map.
    apply Forall_forall. intros f Hin. apply filter_In in Hin.
    destruct Hin as [_ Hlow]. subst minConf. unfold below in Hlow.
    rewrite negb_involutive in Hlow. now apply Qle_bool_iff in Hlow. }
  destruct entity as [[|c r]|]; try exact G. discriminate.
Qed.

(** X27.  [GET /graph-data] of frontend-v2.ts always answers with
    status 200 and a graph the page can draw: distinct node ids, every
    node an end of some edge, both ends of every edge among the nodes.
    When a call to the engine throws (opening the store, the query for
    the facts or for the entity's graph, or the statistics) the answer is
    the empty graph with empty statistics and the message of that throw.
    When none throws the answer carries no error and the statistics the
    engine gave.  Without an entity the edges are those of the facts whose
    confidence is not below [minConfidence], in their order; with an
    entity they are all the edges of its graph, whatever their
    confidence. *)
Theorem graph_data_closed (db : GraphDb)
    (limit : option Z) (minConf : option Q) (entity : option jsstring) :
  (exists a,
     graph_data_handler db limit minConf entity = Response 200 (Payload a) /\
     sound_answer db limit minConf entity a) /\
  (forall e,
     open db = Throw e ->
     graph_data_handler db limit minConf entity
     = Response 200 (Payload (failed_answer e))) /\
  (forall u e,
     open db = Return u ->
     facts_query db limit entity = Throw e ->
     graph_data_handler db limit minConf entity
     = Response 200 (Payload (failed_answer e))) /\
  (forall u facts e,
     open db = Return u ->
     facts_query db limit entity = Return facts ->
     getGraphStats db = Throw e ->
     graph_data_handler db limit minConf entity
     = Response 200 (Payload (failed_answer e))) /\
  (forall u facts st,
     open db = Return u ->
     facts_query db limit entity = Return facts ->
     getGraphStats db = Return st ->
     exists a,
       graph_data_handler db limit minConf entity = Response 200 (Payload a) /\
       error a = None /\ stats a = st /\
       (List.length (edges a) <= List.length facts)%nat).
Proof.
  split; [|split; [|split; [|split]]].
  - unfold graph_data_handler.
    destruct (open db) as [u|e0]; [|eexists; split; [reflexivity | apply sound_failed]].
    destruct entity as [[|c r]|].
    + destruct (getAllFacts db limit) as [facts|e] eqn:Ef;
        [|eexists; split; [reflexivity | apply sound_failed]].
      destruct (build (below minConf) facts) as [ns es] eqn:Eb.
      destruct (getGraphStats db) as [st|e];
        [|eexists; split; [reflexivity | apply sound_failed]].
      eexists. split; [reflexivity|].
      eapply sound_all; [reflexivity | exact Ef | exact Eb].
    + destruct (getEntityGraph db (c :: r)) as [facts|e] eqn:Ef;
        [|eexists; split; [reflexivity | apply sound_failed]].
      destruct (build (fun _ => false) facts) as [ns es] eqn:Eb.
      destruct (getGraphStats db) as [st|e];
        [|eexists; split; [reflexivity | apply sound_failed]].
      eexists. split; [reflexivity|].
      pose proof (build_closed (fun _ => false) facts) as Hc.
      pose proof (build_edges (fun _ => false) facts) as He.
      rewrite Eb in Hc, He. cbn [fst snd] in Hc, He.
      split; [exact Hc|]. split; [discriminate|].
      intros _. exists facts. split; [exact Ef|].
      cbn [edges]. rewrite He. f_equal.
      apply ActivityFacts.filter_all. reflexivity.
    + destruct (getAllFacts db limit) as [facts|e] eqn:Ef;
        [|eexists; split; [reflexivity | apply sound_failed]].
      destruct (build (below minConf) facts) as [ns es] eqn:Eb.
      destruct (getGraphStats db) as [st|e];
        [|eexists; split; [reflexivity | apply sound_failed]].
      eexists. split; [reflexivity|].
      eapply sound_all; [reflexivity | exact Ef | exact Eb].
  - intros e Ho. unfold graph_data_handler. now rewrite Ho.
  - intros u e Ho Hq. unfold graph_data_handler, facts_query in *. rewrite Ho.
    destruct entity as [[|c r]|]; now rewrite Hq.
  - intros u facts e Ho Hq Hs.
    unfold graph_data_handler, facts_query in *. rewrite Ho.
    destruct entity as [[|c r]|]; rewrite Hq;
      match goal with
      | |- context [build ?k facts] => destruct (build k facts) as [ns es]
      end; now rewrite Hs.
  - intros u facts st Ho Hq Hs.
    unfold graph_data_handler, facts_query in *. rewrite Ho.
    destruct entity as [[|c r]|]; rewrite Hq;
      match goal with
      | |- context [build ?k facts] =>
          pose proof (build_edges k facts) as He;
          destruct (build k facts) as [ns es]
      end; rewrite Hs; eexists; (split; [reflexivity|]);
      cbn [error stats edges snd] in *; (split; [reflexivity|]);
      (split; [reflexivity|]); rewrite He, length_map; apply filter_length_le.
Qed.

(** Two of the three facts pass a minimum confidence of one half; the
    graph of an entity keeps its weak edge. *)
Example graph_data_value :
  match graph_data_handler small_db (Some 5000) (Some (1 # 2)) None with
  | Response st (Payload a) =>
      st = 200 /\
      ids (nodes a) = [u16 "Ada"; u16 "Bob"; u16 "Lyon"] /\
      map edge_label (edges a) = [u16 "knows"; u16 "lives in"]
  | Response _ (ErrorObject _) => False
  end /\
  match graph_data_handler small_db (Some 5000) (Some (1 # 2)) (Some (u16 "Bob")) with
  | Response st (Payload a) =>
      ids (nodes a) = [u16 "Ada"; u16 "Bob"; u16 "Lyon"] /\
      map edge_confidence (edges a) = [9 # 10; 3 # 10]
  | Response _ (ErrorObject _) => False
  end.
Proof. vm_compute. repeat split. Qed.

End GraphFacts.

(** ** The settings file *)

Module SettingsFacts.

Import Frontend Settings.

Section WithRuntime.

Context `{JsRuntime}.

(** X28.  What [POST /settings/save] writes is what
    [GET /settings/config] reads: after a body that is JSON is saved, the
    request is answered with [{ok: true}] and the configuration served is
    the value of the body, provided the runtime parses what it printed
    back to the same value.  The content of the file before the save plays
    no part. *)
Theorem settings_saved_then_loaded
    (chunks : list jsstring) (file : option jsstring) (data : json) :
  List.concat chunks <> [] ->
  JSON_parse (List.concat chunks) = Return data ->
  JSON_stringify_indent data <> [] ->
  JSON_parse (JSON_stringify_indent data) = Return data ->
  fst (settings_save_handler chunks file)
  = Responded (Response 200 (Payload ok_true)) /\
  settings_config_handler (snd (settings_save_handler chunks file))
  = Response 200 (Payload data).
Proof.
  intros Hne Hp Hs Hr.
  unfold settings_save_handler, register_listeners, on_end.
  destruct (List.concat chunks) as [|c r] eqn:Eb; [contradiction|].
  rewrite Hp. cbn [fst snd]. split; [reflexivity|].
  unfold settings_config_handler, loadLocalSettings, saveLocalSettings, or_else.
  destruct (JSON_stringify_indent data) as [|x t] eqn:Et; [contradiction|].
  now rewrite Hr.
Qed.

End WithRuntime.

Lemma settings_saved_then_loaded_witness :
  let chunks := [Mini.json_text "{'mode':"; Mini.json_text "'lexical'}"] in
  let data := JObj [(u16 "mode", JStr (u16 "lexical"))] in
  List.concat chunks <> [] /\
  JSON_parse (List.concat chunks) = Return data /\
  settings_config_handler (snd (settings_save_handler chunks (Some (u16 "{}"))))
  = Response 200 (Payload data).
Proof.
  intros chunks data.
  assert (Hne : List.concat chunks <> []) by discriminate.
  assert (Hp : JSON_parse (List.concat chunks) = Return data)
    by (vm_compute; reflexivity).
  assert (Hs : JSON_stringify_indent data <> []) by discriminate.
  assert (Hr : JSON_parse (JSON_stringify_indent data) = Return data)
    by (vm_compute; reflexivity).
  split; [exact Hne|]. split; [exact Hp|].
  exact (proj2 (@settings_saved_then_loaded Mini.runtime chunks (Some (u16 "{}"))
                  data Hne Hp Hs Hr)).
Defined.

(** A settings file that is missing, empty or not JSON is served as the
    empty object. *)
Example settings_config_defaults :
  settings_config_handler None = Response 200 (Payload (JObj [])) /\
  settings_config_handler (Some []) = Response 200 (Payload (JObj [])) /\
  settings_config_handler (Some (u16 "{")) = Response 200 (Payload (JObj [])).
Proof. vm_compute. repeat split. Qed.

End SettingsFacts.

(** ** The groups of the timeline page *)

Module GroupingFacts.

Import Classifier Timeline Grouping ClassifierFacts TimelineFacts.

Lemma push_to_keys (day : jsstring) (ev : TimelineEvent)
    (groups : list (jsstring * list TimelineEvent)) :
  (In day (map fst groups) /\ map fst (push_to day ev groups) = map fst groups) \/
  (~ In day (map fst groups) /\
   map fst (push_to day ev groups) = map fst groups ++ [day]).
Proof.
  induction groups as [|[d evs] r IH]; cbn [push_to map fst].
  - right. now split.
  - destruct (JsString.eqb d day) eqn:E.
    + apply eqb_eq in E. subst d. left. split; [now left | reflexivity].
    + apply eqb_neq in E. destruct IH as [[Hin Hk]|[Hn Hk]].
      * left. split; [now right|]. cbn [map fst]. now rewrite Hk.
      * right. split.
        -- intros [Hd|Hin]; [congruence | contradiction].
        -- cbn [map fst app]. now rewrite Hk.
Qed.

Lemma push_to_events (day : jsstring) (ev : TimelineEvent)
    (groups : list (jsstring * list TimelineEvent)) :
  Permutation (List.concat (map snd (push_to day ev groups)))
              (ev :: List.concat (map snd groups)).
Proof.
  induction groups as [|[d evs] r IH]; cbn [push_to map snd List.concat].
  - reflexivity.
  - destruct (JsString.eqb d day); cbn [map snd List.concat].
    + rewrite <- app_assoc. cbn [app].
      rewrite <- Permutation_middle. reflexivity.
    + rewrite IH. rewrite <- Permutation_middle. reflexivity.
Qed.

Lemma push_to_days (P : jsstring -> TimelineEvent -> Prop)
    (day : jsstring) (ev : TimelineEvent)
    (groups : list (jsstring * list TimelineEvent)) :
  P day ev ->
  Forall (fun g => snd g <> [] /\ Forall (P (fst g)) (snd g)) groups ->
  Forall (fun g => snd g <> [] /\ Forall (P (fst g)) (snd g))
         (push_to day ev groups).
Proof.
  intros Hev Hg. induction Hg as [|[d evs] r [Hne Hd] Hr IH]; cbn [push_to].
  - constructor; [|constructor]. split; [discriminate | now constructor].
  - destruct (JsString.eqb d day) eqn:E.
    + apply eqb_eq in E. subst d. constructor; [|exact Hr].
      cbn [fst snd] in *. split.
      * destruct evs; discriminate.
      * apply Forall_app. split; [exact Hd | now constructor].
    + constructor; [now split | exact IH].
Qed.

Lemma groups_le_events {K A : Type} (groups : list (K * list A)) :
  Forall (fun g => snd g <> []) groups ->
  (List.length groups <= List.length (List.concat (map snd groups)))%nat.
Proof.
  induction 1 as [|g r Hne _ IH]; [apply Nat.le_refl|].
  cbn [map List.concat List.length]. rewrite length_app.
  destruct (snd g) as [|e t]; [contradiction|]. cbn [List.length].
  apply le_n_S. eapply Nat.le_trans; [exact IH|]. apply Nat.le_add_l.
Qed.

Section WithFormat.

Context `{JsRuntime}.

Variable formatDate : option jsstring -> jsstring.

Lemma fold_push (events : list TimelineEvent) :
  forall groups,
    NoDup (map fst groups) ->
    Forall (fun g => snd g <> [] /\
                     Forall (fun e => formatDate (ts e) = fst g) (snd g)) groups ->
    let out := fold_left (fun g ev => push_to (formatDate (ts ev)) ev g)
                         events groups in
    NoDup (map fst out) /\
    Forall (fun g => snd g <> [] /\
                     Forall (fun e => formatDate (ts e) = fst g) (snd g)) out /\
    Permutation (List.concat (map snd out))
                (List.concat (map snd groups) ++ events).
Proof.
  induction events as [|ev r IH]; intros groups Hn Hg; cbn [fold_left].
  - repeat split; try assumption. now rewrite app_nil_r.
  - assert (Hn' : NoDup (map fst (push_to (formatDate (ts ev)) ev groups))).
    { destruct (push_to_keys (formatDate (ts ev)) ev groups) as [[_ E]|[Hd E]];
        rewrite E; [exact Hn|].
      apply NoDup_app; [exact Hn | repeat constructor; intros [] |].
      intros x Hx [Hx'|[]]. subst x. contradiction. }
    assert (Hg' : Forall (fun g => snd g <> [] /\
                            Forall (fun e => formatDate (ts e) = fst g) (snd g))
                         (push_to (formatDate (ts ev)) ev groups)).
    { apply (push_to_days (fun d e => formatDate (ts e) = d)); [reflexivity|].
      exact Hg. }
    destruct (IH _ Hn' Hg') as (N & F & P). split; [exact N|]. split; [exact F|].
    etransitivity; [exact P|].
    rewrite push_to_events. cbn [app].
    apply Permutation_middle.
Qed.

(** X29.  [groupByDay] of the timeline page puts every event into one
    group, that of its day: the groups have distinct days, none is empty,
    every event of a group has the day of the group, and the groups
    together hold the events given, each of them once. *)
Theorem groupByDay_partitions (events : list TimelineEvent) :
  let groups := groupByDay formatDate events in
  NoDup (map fst groups) /\
  Forall (fun g => snd g <> [] /\
                   Forall (fun e => formatDate (ts e) = fst g) (snd g)) groups /\
  Permutation (List.concat (map snd groups)) events /\
  (List.length groups <= List.length events)%nat.
Proof.
  intro groups. unfold groups, groupByDay.
  destruct (fold_push events (groups := []) (NoDup_nil _) (Forall_nil _))
    as (N & F & P).
  set (raw := fold_left (fun g ev => push_to (formatDate (ts ev)) ev g) events [])
    in *.
  assert (Hk : map fst (map (fun g => (fst g, sort newest_first (snd g))) raw)
               = map fst raw).
  { rewrite map_map. reflexivity. }
  assert (Hp : Permutation
                 (List.concat (map snd (map (fun g => (fst g, sort newest_first (snd g)))
                                            raw)))
                 (List.concat (map snd raw))).
  { clear. induction raw as [|g r IH]; [reflexivity|].
    cbn [map snd List.concat]. apply Permutation_app; [apply sort_perm | exact IH]. }
  assert (Hf : Forall (fun g => snd g <> [] /\
                         Forall (fun e => formatDate (ts e) = fst g) (snd g))
                      (map (fun g => (fst g, sort newest_first (snd g))) raw)).
  { apply Forall_map. eapply Forall_impl; [|exact F].
    intros g [Hne Hd]. cbn [fst snd]. split.
    - intro E. apply Hne.
      pose proof (Permutation_length (sort_perm newest_first (snd g))) as L.
      rewrite E in L. destruct (snd g); [reflexivity | discriminate].
    - eapply Permutation_Forall; [symmetry; apply sort_perm | exact Hd]. }
  split; [eapply eq_ind_r with (P := @NoDup _); [exact N | exact Hk]|].
  split; [exact Hf|].
  split; [etransitivity; [exact Hp | exact P]|].
  assert (Hl : (List.length raw <= List.length (List.concat (map snd raw)))%nat).
  { apply groups_le_events. eapply Forall_impl; [|exact F]. now intros g [Hne _]. }
  eapply Nat.le_trans; [apply Nat.eq_le_incl, length_map|].
  eapply Nat.le_trans; [exact Hl|].
  apply Nat.eq_le_incl, (Permutation_length P).
Qed.

End WithFormat.

(** Three events of two days, the day read off the first ten characters
    of the time: two groups in the order of their first event, the events
    of a group newest first. *)
Example groupByDay_value :
  map (fun g => (fst g, map id (snd g)))
      (groupByDay (fun t => slice0 10 (nullish t []))
         (flat_map TimelineSpec.unwrap
            [ActivitySpec.stamped "a" "2026-01-01T08:00:00.000Z";
             ActivitySpec.stamped "b" "2026-01-02T09:00:00.000Z";
             ActivitySpec.stamped "c" "2026-01-01T10:00:00.000Z"]))
  = [(u16 "2026-01-01", [Some (u16 "c"); Some (u16 "a")]);
     (u16 "2026-01-02", [Some (u16 "b")])].
Proof. vm_compute. reflexivity. Qed.

End GroupingFacts.

(** ** The paragraphs of the search page *)

Module MarkdownFacts.

Import JsStringSpec JsStringFacts Page StringHelperFacts.

Lemma split_paragraphs_aux_bounded (P : N -> Prop) (n : nat) :
  forall s cur,
    (List.length s <= n)%nat ->
    Forall P cur -> Forall P s ->
    Forall (Forall P) (split_paragraphs_aux cur s).
Proof.
  induction n as [|n IH]; intros s cur Hn Hcur Hs.
  - destruct s; [|simpl in Hn; lia].
    constructor; [now apply Forall_rev | constructor].
  - destruct s as [|c [|d r']]; cbn [split_paragraphs_aux].
    + constructor; [now apply Forall_rev | constructor].
    + constructor; [|constructor]. apply Forall_rev.
      constructor; [now inversion Hs | exact Hcur].
    + inversion Hs as [|? ? Hc Hr]; subst. inversion Hr as [|? ? Hd Hr']; subst.
      simpl in Hn.
      destruct (N.eqb c 10 && N.eqb d 10)%bool.
      * constructor; [now apply Forall_rev|].
        apply IH; [lia | constructor | exact Hr'].
      * apply (IH (d :: r') (c :: cur)); [simpl; lia | now constructor | exact Hr].
Qed.

Lemma split_paragraphs_aux_units (P : N -> Prop) (s cur : jsstring) :
  Forall P cur -> Forall P s ->
  Forall (Forall P) (split_paragraphs_aux cur s).
Proof. apply (@split_paragraphs_aux_bounded P (List.length s)). lia. Qed.

Lemma trim_Forall (P : N -> Prop) (s : jsstring) : Forall P s -> Forall P (trim s).
Proof.
  intro H. unfold trim, trimEnd, trimStart.
  apply Forall_rev, dropWhile_Forall, Forall_rev, dropWhile_Forall, H.
Qed.

Lemma paragraphs_of (P : N -> Prop) (parts : list jsstring) :
  Forall (Forall P) parts ->
  exists ps,
    flat_map paragraph parts = map paragraph_markup ps /\
    Forall (fun p => p <> [] /\ Forall P p) ps /\
    (List.length ps <= List.length parts)%nat.
Proof.
  induction 1 as [|part r Hpart _ [ps (E & F & L)]].
  - exists []. repeat split; constructor.
  - cbn [flat_map]. unfold paragraph at 1.
    pose proof (trim_Forall Hpart) as Ht.
    destruct (trim part) as [|x t] eqn:Et.
    + exists ps. split; [exact E|]. split; [exact F|]. simpl. lia.
    + exists ((x :: t) :: ps). cbn [app map]. split; [now rewrite E|].
      split; [|simpl; lia]. constructor; [|exact F]. split; [discriminate | exact Ht].
Qed.

Lemma space_is_plain (c : N) : is_space c = true -> escape_unit c = [c].
Proof.
  intro Hs. unfold escape_unit.
  destruct (N.eqb c 38) eqn:E1; [apply N.eqb_eq in E1; subst; discriminate|].
  destruct (N.eqb c 60) eqn:E2; [apply N.eqb_eq in E2; subst; discriminate|].
  destruct (N.eqb c 62) eqn:E3; [apply N.eqb_eq in E3; subst; discriminate|].
  destruct (N.eqb c 34) eqn:E4; [apply N.eqb_eq in E4; subst; discriminate|].
  destruct (N.eqb c 39) eqn:E5; [apply N.eqb_eq in E5; subst; discriminate|].
  reflexivity.
Qed.

Lemma escapeHtml_blank (s : jsstring) :
  forallb is_space s = true -> escapeHtml s = s.
Proof.
  intro H. rewrite (proj1 (escapeHtml_one_pass s)).
  induction s as [|c r IH]; [reflexivity|].
  cbn [forallb] in H. apply andb_prop in H. destruct H as [Hc Hr].
  cbn [flat_map]. rewrite (space_is_plain c Hc), IH by exact Hr. reflexivity.
Qed.

Lemma flat_map_paragraph_blank (parts : list jsstring) :
  Forall (Forall (fun c => is_space c = true)) parts ->
  flat_map paragraph parts = [].
Proof.
  induction 1 as [|part r Hpart _ IH]; [reflexivity|].
  cbn [flat_map]. rewrite IH, app_nil_r. unfold paragraph.
  rewrite trim_blank; [reflexivity|].
  apply forallb_forall. rewrite Forall_forall in Hpart. exact Hpart.
Qed.

(** X30.  [renderMarkdown] of the search page emits only its own tags:
    its result is a sequence of paragraphs, at most one for each part of
    the text between blank lines, and the text of each paragraph is not
    empty and holds no angle bracket and no quotation mark, the source
    being escaped first.  The first line feed of a paragraph, and only that
    one, becomes a line break.  A text of white space gives the empty
    string. *)
Theorem renderMarkdown_emits_only_its_tags (src : jsstring) :
  (exists ps,
     renderMarkdown src = List.concat (map paragraph_markup ps) /\
     Forall (fun p => p <> [] /\ free_of is_markup p) ps /\
     (List.length ps <= List.length (split_paragraphs (escapeHtml src)))%nat) /\
  (forall a b,
     Forall (fun c => c <> 10%N) a ->
     replace_first 10 (u16 "<br/>") (a ++ 10%N :: b) = a ++ u16 "<br/>" ++ b) /\
  (forallb is_space src = true -> renderMarkdown src = []).
Proof.
  split; [|split].
  - assert (Hfree : Forall (fun c => negb (is_markup c) = true) (escapeHtml src)).
    { apply Forall_forall. apply forallb_forall.
      rewrite (proj1 (escapeHtml_one_pass src)).
      apply free_of_flat_map. apply escape_unit_free. }
    pose proof (@split_paragraphs_aux_units
                  (fun c => negb (is_markup c) = true)
                  (escapeHtml src) [] (Forall_nil _) Hfree) as Hparts.
    destruct (paragraphs_of Hparts) as [ps (E & F & L)].
    exists ps. unfold renderMarkdown, split_paragraphs. rewrite E.
    split; [reflexivity|]. split; [|exact L].
    eapply Forall_impl; [|exact F]. intros p [Hne Hp]. split; [exact Hne|].
    unfold free_of. apply forallb_forall. rewrite Forall_forall in Hp. exact Hp.
  - intros a b Ha. induction Ha as [|x r Hx _ IH]; [reflexivity|].
    cbn [app replace_first]. apply N.eqb_neq in Hx. rewrite Hx. now rewrite IH.
  - intro Hb. unfold renderMarkdown, split_paragraphs.
    rewrite (escapeHtml_blank src Hb).
    rewrite flat_map_paragraph_blank; [reflexivity|].
    apply split_paragraphs_aux_units; [constructor|].
    apply Forall_forall. apply forallb_forall. exact Hb.
Qed.

(** Two paragraphs, the first with two line feeds: only its first one
    becomes a line break. *)
Example renderMarkdown_value :
  renderMarkdown (u16 "a <b>" ++ [10; 32; 10; 10; 10]%N ++ u16 "x" ++ [10]%N
                  ++ u16 "y" ++ [10]%N ++ u16 "z" ++ [10; 10; 32]%N)
  = u16 "<p>a &lt;b&gt;</p><p>x<br/>y" ++ [10]%N ++ u16 "z</p>".
Proof. vm_compute. reflexivity. Qed.

End MarkdownFacts.
